(** * Template editor server: project index synchronisation

    A shallow embedding of the two Express servers of the repository,
    [src/TemplateEdit/server-editor.js] (projects stored beside the editor's
    parent, module [ServerEditor]) and the nested-layout variant
    (projects stored under [TemplateEdit/projects], module [NestedServer]),
    followed by the properties the specification states about them.

    Conventions of the model.
    - A JavaScript string is a sequence of code units; the model keeps the
      code units below 256 (Latin-1), which is what [Ascii.ascii] holds.
    - A value read from JSON is a [json]; [undefined], which only arises
      from reading an absent property, is [None] in an [option json]. A
      number is one that [JSON.parse] reads as a finite number (a literal
      beyond the range of a double, which parses to [Infinity] and is
      written back as [null], is not among the values).
    - A thrown exception is the [Throw] case of [result]; a handler that
      lets one escape ends in [Unhandled].
    - The file system is the state: the images directory, the projects
      directory and the index file [projects.json]. File names are those
      of a POSIX system that tells upper from lower case; the directories
      are writable and the disk has room, so that a write fails only for
      the name it is given. *)

From Stdlib Require Import Ascii String NArith DecimalString.
From stdpp Require Import base option list strings gmap.

Local Open Scope string_scope.
Local Open Scope list_scope.

(** ** Characters and strings *)

Module Chars.

Definition code (c : ascii) : N := N_of_ascii c.

Definition between (lo hi : N) (c : ascii) : bool :=
  ((lo <=? code c) && (code c <=? hi))%N.

Definition is_lower (c : ascii) : bool := between 97 122 c.   (* a-z *)
Definition is_upper (c : ascii) : bool := between 65 90 c.    (* A-Z *)
Definition is_digit (c : ascii) : bool := between 48 57 c.    (* 0-9 *)
Definition is_char (x : ascii) (c : ascii) : bool := (code c =? code x)%N.

(** [\w] of a regular expression without the [u] flag: [A-Za-z0-9_]. *)
Definition is_word (c : ascii) : bool :=
  is_lower c || is_upper c || is_digit c || is_char "_" c.

(** [\s], and the characters [trim] removes: tab, line feed, vertical tab,
    form feed, carriage return, space and the no-break space U+00A0. *)
Definition is_space (c : ascii) : bool :=
  between 9 13 c || is_char " " c || (code c =? 160)%N.

(** [toLowerCase] on one code unit: A-Z and the Latin-1 capitals
    U+00C0..U+00DE (the multiplication sign U+00D7 apart) move up by 32. *)
Definition lower_char (c : ascii) : ascii :=
  if is_upper c || (between 192 222 c && negb (code c =? 215)%N)
  then ascii_of_N (code c + 32) else c.

(** [toUpperCase] on a code unit that [\w] matched: a-z move down by 32. *)
Definition upper_char (c : ascii) : ascii :=
  if is_lower c then ascii_of_N (code c - 32) else c.

(** Equality of two code units under the [i] flag: a literal of the
    patterns is an ASCII character, and without the [u] flag no code unit
    above 127 is identified with one below. *)
Definition ci_char (x : ascii) (c : ascii) : bool :=
  (code (upper_char c) =? code (upper_char x))%N.

End Chars.

Module Str.
Import Chars.

Fixpoint map (f : ascii -> ascii) (s : string) : string :=
  match s with
  | EmptyString => EmptyString
  | String c s' => String (f c) (map f s')
  end.

Definition toLowerCase (s : string) : string := map lower_char s.

(** [s.replace(/[class]/g, by)] for a class of single code units. *)
Definition replace_class (cls : ascii -> bool) (by_ : ascii) (s : string) : string :=
  map (fun c => if cls c then by_ else c) s.

Fixpoint trimStart (s : string) : string :=
  match s with
  | String c s' => if is_space c then trimStart s' else s
  | EmptyString => EmptyString
  end.

Fixpoint trimEnd (s : string) : string :=
  match s with
  | EmptyString => EmptyString
  | String c s' =>
      match trimEnd s' with
      | EmptyString => if is_space c then EmptyString else String c EmptyString
      | t => String c t
      end
  end.

Definition trim (s : string) : string := trimEnd (trimStart s).

Fixpoint endsWith_rev (s suffix : list ascii) : bool :=
  match suffix, s with
  | [], _ => true
  | x :: suffix', c :: s' => (code c =? code x)%N && endsWith_rev s' suffix'
  | _ :: _, [] => false
  end.

(** [s.endsWith(suffix)] *)
Definition endsWith (s suffix : string) : bool :=
  endsWith_rev (rev (list_ascii_of_string s)) (rev (list_ascii_of_string suffix)).

Definition dropEnd (n : nat) (s : string) : string :=
  String.substring 0 (String.length s - n) s.

(** Decimal rendering of a length or a count, as a template literal and
    [JSON.stringify] print it. *)
Definition of_nat (n : nat) : string := NilEmpty.string_of_uint (Nat.to_uint n).

End Str.

(** ** JSON values and the JavaScript operations on them *)

Module JS.
Import Chars.

(** What [JSON.parse] yields. A number is kept as its decimal rendering,
    the string [String(n)] gives: the servers only ever test a number for
    truth and convert it to a string. *)
#[warnings="-register-all"]
Inductive json : Type :=
| JNull
| JBool (b : bool)
| JNum (digits : string)
| JStr (s : string)
| JArr (items : list json)
| JObj (props : list (string * json)).

(** What is thrown: a [TypeError] of the language, or an error of the
    file system ([EISDIR], [ENAMETOOLONG]). *)
Inductive exn : Type := TypeError | SystemError.

Inductive result (A : Type) : Type :=
| Ok (a : A)
| Throw (e : exn).
Arguments Ok {A} a.
Arguments Throw {A} e.

#[global] Instance result_ret : MRet result := fun A a => Ok a.
#[global] Instance result_bind : MBind result := fun A B f m =>
  match m with
  | Ok a => f a
  | Throw e => Throw e
  end.

Fixpoint assoc (k : string) (props : list (string * json)) : option json :=
  match props with
  | [] => None
  | (k', v) :: rest => if String.eqb k' k then Some v else assoc k rest
  end.

(** [v.k] for a value that is not [null], and a property name that no
    prototype defines (slug, html, meta, title, category, dataCategory,
    description, tags, image): the own property of an object, else
    [undefined]. *)
Definition prop (v : json) (k : string) : option json :=
  match v with
  | JObj props => assoc k props
  | _ => None
  end.

(** [p.k] where [p] may be [null]: reading a property of [null] throws. *)
Definition get (p : json) (k : string) : result (option json) :=
  match p with
  | JNull => Throw TypeError
  | _ => Ok (prop p k)
  end.

Definition truthy (v : json) : bool :=
  match v with
  | JNull => false
  | JBool b => b
  | JNum d => negb (String.eqb d "0")
  | JStr s => negb (String.eqb s "")
  | JArr _ | JObj _ => true
  end.

(** [a || d] where [a] may be [undefined] *)
Definition or_else (a : option json) (d : json) : json :=
  match a with
  | Some v => if truthy v then v else d
  | None => d
  end.

Definition isArray (v : json) : bool :=
  match v with
  | JArr _ => true
  | _ => false
  end.

(** Calling a string method ([replace], [toLowerCase]) on [v]: only a
    string has it, on anything else the call throws. *)
Definition as_string (v : json) : result string :=
  match v with
  | JStr s => Ok s
  | _ => Throw TypeError
  end.

(** [String(v)]. An array is joined with commas, [null] elements
    giving nothing. For an object the conversion calls its [toString]:
    the one every object inherits, unless the object has a property of
    that name. A property read from JSON is never a function, and with
    it the conversion finds nothing to call that yields a string (the
    inherited [valueOf] returns the object itself): it throws. *)
Fixpoint toString (v : json) : result string :=
  match v with
  | JNull => Ok "null"
  | JBool true => Ok "true"
  | JBool false => Ok "false"
  | JNum d => Ok d
  | JStr s => Ok s
  | JArr items =>
      (fix join (l : list json) : result string :=
         match l with
         | [] => Ok ""
         | x :: rest =>
             here ← match x with JNull => Ok "" | _ => toString x end;
             match rest with
             | [] => Ok here
             | _ => tail ← join rest; Ok (here +:+ "," +:+ tail)
             end
         end) items
  | JObj props =>
      match assoc "toString" props with
      | Some _ => Throw TypeError
      | None => Ok "[object Object]"
      end
  end.

(** The string of a conversion that went through; the empty string
    stands for one that threw. *)
Definition text_of (r : result string) : string :=
  match r with
  | Ok s => s
  | Throw _ => ""
  end.

(** [arr.findIndex(pred)]: the first index whose element satisfies
    [pred], or [None] for -1; an exception thrown by [pred] escapes. *)
Fixpoint findIndex (pred : json -> result bool) (l : list json) : result (option nat) :=
  match l with
  | [] => Ok None
  | x :: rest =>
      b ← pred x;
      if (b : bool) then Ok (Some 0)
      else i ← findIndex pred rest; Ok (S <$> (i : option nat))
  end.

(** [arr.map(f)] with a callback that may throw *)
Fixpoint mapM {A} (f : json -> result A) (l : list json) : result (list A) :=
  match l with
  | [] => Ok []
  | x :: rest => y ← f x; ys ← mapM f rest; Ok (y :: ys)
  end.

End JS.

(** ** Regular expressions

    The patterns of the servers are sequences of literals, character
    classes, greedy repetitions of a class, one capture group and the
    end anchor. [exec] is the backtracking matcher at a fixed start
    position; [search] tries the start positions from left to right, as
    [String.prototype.match] and [replace] do for a pattern without the
    [g] flag. *)

Module Regex.
Import Chars.

Inductive item : Type :=
| Lit (x : ascii)              (* a literal, compared under the flag [i] *)
| Class (p : ascii -> bool)    (* [...] *)
| Star (p : ascii -> bool)     (* [...]*, greedy *)
| Plus (p : ascii -> bool)     (* [...]+, greedy *)
| Open                         (* ( *)
| Close                        (* ) *)
| End.                         (* $ *)

Definition regex : Type := list item.

Definition lits (s : string) : regex := Lit <$> list_ascii_of_string s.

(** The text of group 1 grows while the matcher is inside the group. *)
Definition push (inside : bool) (cap : string) (c : ascii) : string :=
  if inside then cap +:+ String c EmptyString else cap.

Fixpoint star (p : ascii -> bool) (inside : bool)
    (k : string -> string -> option (string * string))
    (cap : string) (s : string) {struct s} : option (string * string) :=
  match s with
  | String c s' =>
      if p c then
        match star p inside k (push inside cap c) s' with
        | Some m => Some m
        | None => k cap s
        end
      else k cap s
  | EmptyString => k cap s
  end.

Definition one (p : ascii -> bool) (inside : bool)
    (k : string -> string -> option (string * string))
    (cap : string) (s : string) : option (string * string) :=
  match s with
  | String c s' => if p c then k (push inside cap c) s' else None
  | EmptyString => None
  end.

(** [exec r inside cap s]: match [r] at the start of [s]; the result is
    the text of group 1 and what is left of [s] after the match. *)
Fixpoint exec (r : regex) (inside : bool) (cap : string) (s : string)
    {struct r} : option (string * string) :=
  match r with
  | [] => Some (cap, s)
  | Lit x :: r' => one (ci_char x) inside (exec r' inside) cap s
  | Class p :: r' => one p inside (exec r' inside) cap s
  | Star p :: r' => star p inside (exec r' inside) cap s
  | Plus p :: r' => one p inside (star p inside (exec r' inside)) cap s
  | Open :: r' => exec r' true EmptyString s
  | Close :: r' => exec r' false cap s
  | End :: r' =>
      match s with
      | EmptyString => exec r' inside cap s
      | String _ _ => None
      end
  end.

Record found : Type := Found { before : string; group1 : string; after : string }.

Fixpoint search (r : regex) (s : string) : option found :=
  match exec r false EmptyString s with
  | Some (g, rest) => Some (Found EmptyString g rest)
  | None =>
      match s with
      | String c s' =>
          (fun m => Found (String c (before m)) (group1 m) (after m)) <$> search r s'
      | EmptyString => None
      end
  end.

(** [s.match(r)] projected on [[1]] *)
Definition match1 (r : regex) (s : string) : option string :=
  group1 <$> search r s.

(** [s.replace(r, '')] for a pattern without the [g] flag *)
Definition remove_first (r : regex) (s : string) : string :=
  match search r s with
  | Some m => before m +:+ after m
  | None => s
  end.

End Regex.

(** ** The [path] and [fs] modules of Node, and the state of the server *)

Module Node.
Import Chars JS.

Definition is_slash (c : ascii) : bool := is_char "/" c.

Fixpoint drop_while (p : ascii -> bool) (l : list ascii) : list ascii :=
  match l with
  | c :: l' => if p c then drop_while p l' else l
  | [] => []
  end.

Fixpoint take_while (p : ascii -> bool) (l : list ascii) : list ascii :=
  match l with
  | c :: l' => if p c then c :: take_while p l' else []
  | [] => []
  end.

(** [path.basename(p)] (POSIX): trailing slashes are ignored, the result
    is what follows the last remaining slash. *)
Definition basename (p : string) : string :=
  string_of_list_ascii
    (rev (take_while (fun c => negb (is_slash c))
            (drop_while is_slash (rev (list_ascii_of_string p))))).

(** [path.basename(f, ext)] for a directory entry [f], which holds no
    separator: [ext] is cut off the end when [f] ends with it; a name
    equal to [ext] gives the empty string. *)
Definition basename_ext (f ext : string) : string :=
  if Str.endsWith f ext then Str.dropEnd (String.length ext) f else f.

(** The index file [projects.json], by what reading and parsing it does:
    it is absent, or it is a file on which [JSON.parse(fs.readFileSync(..))]
    throws, or one on which it yields a value. *)
Inductive index_file : Type :=
| Missing
| Malformed
| Parsed (v : json).

(** A directory lists its entries in some order; an entry that is no
    file (a subdirectory, say) has no content: it can be neither read
    nor written as a file. *)
Definition directory : Type := list (string * option string).

Record FS : Type := MkFS {
  images : list (string * string);   (* PUBLIC_IMAGES *)
  files : directory;                 (* PROJECTS_DIR, the index file apart *)
  index : index_file                 (* PROJECTS_JSON *)
}.

Fixpoint write (name : string) (data : string) (d : directory) : directory :=
  match d with
  | [] => [(name, Some data)]
  | (n, c) :: rest =>
      if String.eqb n name then (n, Some data) :: rest
      else (n, c) :: write name data rest
  end.

Fixpoint lookup_entry (name : string) (d : directory) : option (option string) :=
  match d with
  | [] => None
  | (n, c) :: rest => if String.eqb n name then Some c else lookup_entry name rest
  end.

(** A file of this name can be opened for writing: the name is no
    longer than the 255 bytes a file name may have, and it is not the
    name of an entry that is no file. The names the servers write hold
    ASCII characters only, one byte each. *)
Definition writable (name : string) (d : directory) : bool :=
  Nat.leb (String.length name) 255 &&
  match lookup_entry name d with
  | Some None => false
  | _ => true
  end.

(** [fs.writeFileSync(PROJECTS_DIR/name, data, 'utf8')]: Node refuses
    data that is not a string before it opens the file; opening fails
    with [ENAMETOOLONG] or [EISDIR] when the file is not [writable], and
    nothing is written then. *)
Definition writeFileSync (name : string) (data : json) (d : directory) : result directory :=
  match data with
  | JStr text => if writable name d then Ok (write name text d) else Throw SystemError
  | _ => Throw TypeError
  end.

(** [try { html = fs.readFileSync(..) } catch (e) { html = '' }] *)
Definition read_or_empty (name : string) (d : directory) : string :=
  match lookup_entry name d with
  | Some (Some text) => text
  | _ => EmptyString
  end.

(** [fs.readdirSync(PROJECTS_DIR)] lists [projects.json] too; no caller
    keeps a name that does not end in [.html]. *)
Definition readdirSync (fs : FS) : list string :=
  (fst <$> files fs) ++
  match index fs with
  | Missing => []
  | _ => ["projects.json"]
  end.

Fixpoint store (name : string) (data : string) (d : list (string * string))
    : list (string * string) :=
  match d with
  | [] => [(name, data)]
  | (n, c) :: rest =>
      if String.eqb n name then (n, data) :: rest
      else (n, c) :: store name data rest
  end.

(** The file part of a [multipart/form-data] request as the client sent
    it, and the [file] object multer hands to the storage: a name and
    the content. *)
Record upload_file : Type := MkUpload { originalname : string; data : string }.

Definition is_separator (c : ascii) : bool :=
  is_char "/" c || (code c =? 92)%N.

(** busboy, with which multer reads the request, keeps of the name the
    client sent what follows the last slash or backslash, and nothing of
    the names [.] and [..]. *)
Definition client_basename (name : string) : string :=
  let cut :=
    string_of_list_ascii
      (rev (take_while (fun c => negb (is_separator c))
              (rev (list_ascii_of_string name)))) in
  if String.eqb cut "." || String.eqb cut ".." then "" else cut.

(** [upload.single('image')] with a disk storage whose [filename]
    callback is [filename]. A part whose name busboy leaves empty is
    skipped, as if the request had no file. Else the callback names the
    file and the content is written to [PUBLIC_IMAGES] under that name,
    which fails when the name is longer than 255 bytes; the error goes
    to Express and nothing is stored. The result is the state and
    [req.file.filename], if [req.file] is set. *)
Definition single (filename : upload_file -> string) (fs : FS)
    (part : option upload_file) : result (FS * option string) :=
  match part with
  | None => Ok (fs, None)
  | Some f =>
      let original := client_basename (originalname f) in
      if String.eqb original "" then Ok (fs, None)
      else
        let name := filename (MkUpload original (data f)) in
        if Nat.leb (String.length name) 255
        then Ok (MkFS (store name (data f) (images fs)) (files fs) (index fs), Some name)
        else Throw SystemError
  end.

(** What a handler leaves behind: a response, or an exception that
    escapes to Express (which then answers with a server error), or
    nothing at all when no route took the request (Express answers 404). *)
Inductive outcome : Type :=
| Responded (status : nat) (body : json)
| Unhandled (e : exn)
| NotFound.

(** The requests the editor page sends. *)
Inductive request : Type :=
| PostUpload (part : option upload_file)   (* POST /api/upload *)
| PostSave (body : json)                   (* POST /api/save *)
| GetSync.                                 (* GET /api/sync-projects *)

End Node.

(** ** [src/TemplateEdit/server-editor.js]

    [PROJECTS_DIR] is [<portfolio root>/projects]. *)

Module ServerEditor.
Import Chars JS Node.

(** [/[^a-zA-Z0-9._-]/] *)
Definition unsafe_name_char (c : ascii) : bool :=
  negb (is_lower c || is_upper c || is_digit c
        || is_char "." c || is_char "_" c || is_char "-" c).

(** The [filename] callback of the disk storage. *)
Definition storage_filename (file : upload_file) : string :=
  let name := if String.eqb (originalname file) "" then "image" else originalname file in
  Str.replace_class unsafe_name_char "_" (basename name).

(** [upload.single('image')] followed by the handler of [/api/upload]:
    without [req.file] the answer is 400; with it the answer reports the
    name the storage chose, [req.file.filename]. *)
Definition upload (fs : FS) (part : option upload_file) : FS * outcome :=
  match single storage_filename fs part with
  | Throw e => (fs, Unhandled e)
  | Ok (fs', None) => (fs', Responded 400 (JObj [("error", JStr "No image file")]))
  | Ok (fs', Some filename) =>
      let url := "public/images/" +:+ filename in
      (fs', Responded 200 (JObj [("url", JStr url)]))
  end.

(** [/[^a-z0-9-]/gi] *)
Definition unsafe_slug_char (c : ascii) : bool :=
  negb (is_lower c || is_upper c || is_digit c || is_char "-" c).

(** [(req.body.slug || '').replace(/[^a-z0-9-]/gi, '-')] *)
Definition sanitize (raw : string) : string :=
  Str.replace_class unsafe_slug_char "-" raw.

Definition slug_of (body : json) : result string :=
  raw ← as_string (or_else (prop body "slug") (JStr ""));
  Ok (sanitize raw).

(** Lines 62-70: the index as a list, empty when the file is absent,
    cannot be parsed, or holds something that is not an array. *)
Definition load_projects (idx : index_file) : list json :=
  let projects :=
    match idx with
    | Missing => JArr []
    | Malformed => JArr []
    | Parsed v => v
    end in
  match projects with
  | JArr items => items
  | _ => []
  end.

(** [Array.isArray(x) ? x : (x ? [x] : [])] *)
Definition as_list (x : option json) : json :=
  match x with
  | Some (JArr items) => JArr items
  | Some v => if truthy v then JArr [v] else JArr []
  | None => JArr []
  end.

Definition make_entry (slug : string) (meta : json) : json :=
  JObj [ ("slug", JStr slug);
         ("title", or_else (prop meta "title") (JStr slug));
         ("category", or_else (prop meta "category") (JStr ""));
         ("dataCategory", as_list (prop meta "dataCategory"));
         ("description", or_else (prop meta "description") (JStr ""));
         ("tags", as_list (prop meta "tags"));
         ("image", or_else (prop meta "image") (JStr "")) ].

(** [(p) => (p.slug || '').toLowerCase() === slug.toLowerCase()] *)
Definition same_slug (slug : string) (p : json) : result bool :=
  s ← get p "slug";
  k ← as_string (or_else s (JStr ""));
  Ok (String.eqb (Str.toLowerCase k) (Str.toLowerCase slug)).

(** [if (idx >= 0) projects[idx] = entry; else projects.push(entry);] *)
Definition put (idx : option nat) (entry : json) (projects : list json) : list json :=
  match idx with
  | Some i => <[i := entry]> projects
  | None => projects ++ [entry]
  end.

(** The handler of [POST /api/save]; [body] is [req.body], which
    [express.json()] has parsed: an object or an array, never [null]. *)
Definition save (fs : FS) (body : json) : FS * outcome :=
  match slug_of body with
  | Throw e => (fs, Unhandled e)
  | Ok slug =>
      if String.eqb slug ""
      then (fs, Responded 400 (JObj [("error", JStr "Missing slug")]))
      else
        match writeFileSync (slug +:+ ".html")
                (or_else (prop body "html") (JStr "")) (files fs) with
        | Throw e => (fs, Unhandled e)
        | Ok files' =>
            let fs1 := MkFS (images fs) files' (index fs) in
            let meta := or_else (prop body "meta") (JObj []) in
            let projects := load_projects (index fs1) in
            let entry := make_entry slug meta in
            match findIndex (same_slug slug) projects with
            | Throw e => (fs1, Unhandled e)
            | Ok idx =>
                let projects' := put idx entry projects in
                (MkFS (images fs1) (files fs1) (Parsed (JArr projects')),
                 Responded 200
                   (JObj [("path", JStr ("projects/" +:+ slug +:+ ".html"))]))
            end
        end
  end.

(** The routes of the application. This file registers none for
    [/api/sync-projects], and the static middleware finds no such file. *)
Definition handle (fs : FS) (r : request) : FS * outcome :=
  match r with
  | PostUpload part => upload fs part
  | PostSave body => save fs body
  | GetSync => (fs, NotFound)
  end.

End ServerEditor.

(** ** The nested-layout server

    The second source file: [PROJECTS_DIR] is [TemplateEdit/projects], and
    the application has one more route, [/api/sync-projects]. *)

Module NestedServer.
Import Chars JS Node Regex.

(** [/[^a-zA-Z0-9._-]/] *)
Definition unsafe_name_char (c : ascii) : bool :=
  negb (is_lower c || is_upper c || is_digit c
        || is_char "." c || is_char "_" c || is_char "-" c).

Definition storage_filename (file : upload_file) : string :=
  let name := if String.eqb (originalname file) "" then "image" else originalname file in
  Str.replace_class unsafe_name_char "_" (basename name).

Definition upload (fs : FS) (part : option upload_file) : FS * outcome :=
  match single storage_filename fs part with
  | Throw e => (fs, Unhandled e)
  | Ok (fs', None) => (fs', Responded 400 (JObj [("error", JStr "No image file")]))
  | Ok (fs', Some filename) =>
      let url := "public/images/" +:+ filename in
      (fs', Responded 200 (JObj [("url", JStr url)]))
  end.

(** [/[^a-z0-9-]/gi] *)
Definition unsafe_slug_char (c : ascii) : bool :=
  negb (is_lower c || is_upper c || is_digit c || is_char "-" c).

Definition sanitize (raw : string) : string :=
  Str.replace_class unsafe_slug_char "-" raw.

Definition slug_of (body : json) : result string :=
  raw ← as_string (or_else (prop body "slug") (JStr ""));
  Ok (sanitize raw).

(** Lines 63-71 and 107-115 *)
Definition load_projects (idx : index_file) : list json :=
  let projects :=
    match idx with
    | Missing => JArr []
    | Malformed => JArr []
    | Parsed v => v
    end in
  match projects with
  | JArr items => items
  | _ => []
  end.

Definition as_list (x : option json) : json :=
  match x with
  | Some (JArr items) => JArr items
  | Some v => if truthy v then JArr [v] else JArr []
  | None => JArr []
  end.

Definition make_entry (slug : string) (meta : json) : json :=
  JObj [ ("slug", JStr slug);
         ("title", or_else (prop meta "title") (JStr slug));
         ("category", or_else (prop meta "category") (JStr ""));
         ("dataCategory", as_list (prop meta "dataCategory"));
         ("description", or_else (prop meta "description") (JStr ""));
         ("tags", as_list (prop meta "tags"));
         ("image", or_else (prop meta "image") (JStr "")) ].

Definition same_slug (slug : string) (p : json) : result bool :=
  s ← get p "slug";
  k ← as_string (or_else s (JStr ""));
  Ok (String.eqb (Str.toLowerCase k) (Str.toLowerCase slug)).

Definition put (idx : option nat) (entry : json) (projects : list json) : list json :=
  match idx with
  | Some i => <[i := entry]> projects
  | None => projects ++ [entry]
  end.

Definition save (fs : FS) (body : json) : FS * outcome :=
  match slug_of body with
  | Throw e => (fs, Unhandled e)
  | Ok slug =>
      if String.eqb slug ""
      then (fs, Responded 400 (JObj [("error", JStr "Missing slug")]))
      else
        match writeFileSync (slug +:+ ".html")
                (or_else (prop body "html") (JStr "")) (files fs) with
        | Throw e => (fs, Unhandled e)
        | Ok files' =>
            let fs1 := MkFS (images fs) files' (index fs) in
            let meta := or_else (prop body "meta") (JObj []) in
            let projects := load_projects (index fs1) in
            let entry := make_entry slug meta in
            match findIndex (same_slug slug) projects with
            | Throw e => (fs1, Unhandled e)
            | Ok idx =>
                let projects' := put idx entry projects in
                (MkFS (images fs1) (files fs1) (Parsed (JArr projects')),
                 Responded 200
                   (JObj [("path", JStr ("TemplateEdit/projects/" +:+ slug +:+ ".html"))]))
            end
        end
  end.

(** *** Scraping a page *)

Definition quote (c : ascii) : bool := (code c =? 34)%N || is_char "'" c.
Definition no (x : ascii) (c : ascii) : bool := negb (is_char x c).

(** [/<title[^>]*>([^<]+)<\/title>/i] *)
Definition title_re : regex :=
  (lits "<title" ++ [Star (no ">"); Lit ">"; Open; Plus (no "<"); Close]
   ++ lits "</title>")%list.

(** [/\s*\|\s*Sharva Paralkar\s*$/i] *)
Definition owner_re : regex :=
  ([Star is_space; Lit "|"; Star is_space] ++ lits "Sharva Paralkar"
   ++ [Star is_space; End])%list.

(** [/<h1[^>]*>([^<]+)<\/h1>/i] *)
Definition h1_re : regex :=
  (lits "<h1" ++ [Star (no ">"); Lit ">"; Open; Plus (no "<"); Close]
   ++ lits "</h1>")%list.

(** The pattern of the image: [<img], one or more characters other than
    [>], [src=], a quote of either kind, the captured run of characters
    that are not quotes, and a quote again; flag [i]. *)
Definition img_re : regex :=
  (lits "<img" ++ [Plus (no ">")] ++ lits "src="
   ++ [Class quote; Open; Plus (fun c => negb (quote c)); Close; Class quote])%list.

Record meta : Type := Meta { title : string; image : string }.

Definition parseMetaFromHtml (html : string) : meta :=
  let title0 :=
    match match1 title_re html with
    | Some t => Str.trim (remove_first owner_re t)
    | None => ""
    end in
  let title1 :=
    match match1 h1_re html with
    | Some h => if String.eqb title0 "" then Str.trim h else title0
    | None => title0
    end in
  let image1 :=
    match match1 img_re html with
    | Some src => Str.trim src
    | None => ""
    end in
  Meta title1 image1.

(** [.replace(/\b\w/g, (c) => c.toUpperCase())]: a word character is
    replaced when the character before it is not one. *)
Fixpoint capitalize (after_word : bool) (s : string) : string :=
  match s with
  | EmptyString => EmptyString
  | String c s' =>
      String (if is_word c && negb after_word then upper_char c else c)
             (capitalize (is_word c) s')
  end.

(** [slug.replace(/-/g, ' ').replace(/\b\w/g, (c) => c.toUpperCase())] *)
Definition humanize (slug : string) : string :=
  capitalize false (Str.replace_class (is_char "-") " " slug).

(** Lines 133-142 *)
Definition scraped_entry (slug : string) (html : string) : json :=
  let parsed := parseMetaFromHtml html in
  JObj [ ("slug", JStr slug);
         ("title", JStr (if String.eqb (title parsed) "" then humanize slug else title parsed));
         ("category", JStr "");
         ("dataCategory", JArr []);
         ("description", JStr "");
         ("tags", JArr []);
         ("image", JStr (image parsed)) ].

(** *** Reconciling the index with the directory *)

(** [String(p.slug || '').toLowerCase()] *)
Definition key_of (p : json) : result string :=
  s ← get p "slug";
  text ← toString (or_else s (JStr ""));
  Ok (Str.toLowerCase text).

(** [new Map(pairs)]: a later pair replaces an earlier one of the same key. *)
Definition new_Map (pairs : list (string * json)) : gmap string json :=
  foldl (fun m kv => <[kv.1 := kv.2]> m) ∅ pairs.

Record sync_state : Type := SyncState {
  st_projects : list json;
  st_bySlug : gmap string json;
  st_added : list string
}.

(** The body of the loop over [files] (lines 123-146) *)
Definition sync_step (dir : directory) (st : sync_state) (file : string) : sync_state :=
  let slug := basename_ext file ".html" in
  let key := Str.toLowerCase slug in
  match st_bySlug st !! key with
  | Some _ => st
  | None =>
      let html := read_or_empty file dir in
      let entry := scraped_entry slug html in
      SyncState (st_projects st ++ [entry]) (<[key := entry]> (st_bySlug st))
                (st_added st ++ [slug])
  end.

(** [projects.filter(pred)] with a callback that may throw *)
Fixpoint filterM (pred : json -> result bool) (l : list json) : result (list json) :=
  match l with
  | [] => Ok []
  | x :: rest =>
      b ← pred x;
      ys ← filterM pred rest;
      Ok (if (b : bool) then x :: ys else ys)
  end.

Definition sync_message (total added removed : nat) : string :=
  "Synced: " +:+ Str.of_nat total +:+ " project(s). Added: " +:+ Str.of_nat added
  +:+ "; removed from list: " +:+ Str.of_nat removed +:+ ".".

(** The handler of [GET /api/sync-projects] *)
Definition sync (fs : FS) : FS * outcome :=
  let projects := load_projects (index fs) in
  let files := filter (fun f => Str.endsWith f ".html" = true) (readdirSync fs) in
  let slugsFromFiles : gset string :=
    list_to_set ((fun f => Str.toLowerCase (basename_ext f ".html")) <$> files) in
  match mapM (fun p => k ← key_of p; Ok (k, p)) projects with
  | Throw e => (fs, Unhandled e)
  | Ok pairs =>
      let st := foldl (sync_step (Node.files fs))
                  (SyncState projects (new_Map pairs) []) files in
      let before := length (st_projects st) in
      match filterM (fun p => k ← key_of p; Ok (bool_decide (k ∈ slugsFromFiles)))
              (st_projects st) with
      | Throw e => (fs, Unhandled e)
      | Ok kept =>
          let removedCount := before - length kept in
          (MkFS (images fs) (Node.files fs) (Parsed (JArr kept)),
           Responded 200
             (JObj [ ("projects", JArr kept);
                     ("added", JArr (JStr <$> st_added st));
                     ("removed", JNum (Str.of_nat removedCount));
                     ("message", JStr (sync_message (length kept)
                                         (length (st_added st)) removedCount)) ]))
      end
  end.

Definition handle (fs : FS) (r : request) : FS * outcome :=
  match r with
  | PostUpload part => upload fs part
  | PostSave body => save fs body
  | GetSync => sync fs
  end.

End NestedServer.

(** ** Vocabulary of the specification *)

Module Spec.
Import Chars JS Node Regex.

(** The characters a slug keeps: [a-zA-Z0-9-]. *)
Definition slug_char (c : ascii) : bool :=
  is_lower c || is_upper c || is_digit c || is_char "-" c.

(** The records of a persisted index; an index that is absent, unreadable
    or not an array has none. *)
Definition records (idx : index_file) : list json :=
  match idx with
  | Parsed (JArr items) => items
  | _ => []
  end.

(** The slug of a record as the servers compare it: lower-cased, the
    empty string standing for a slug that is absent or falsy (and for
    one that cannot be converted to a string, on which both handlers
    throw). *)
Definition slug_key (p : json) : string :=
  Str.toLowerCase (text_of (toString (or_else (prop p "slug") (JStr "")))).

(** An element the reconcile can take the key of: it is not [null] and
    the conversion of its slug to a string goes through. *)
Definition keyed (p : json) : Prop := NestedServer.key_of p = Ok (slug_key p).

(** The records whose slug equals [slug] up to case. *)
Definition matching (slug : string) (l : list json) : list json :=
  filter (fun p => slug_key p = Str.toLowerCase slug) l.

(** No two records share a slug up to case. *)
Definition unique_slugs (l : list json) : Prop := NoDup (slug_key <$> l).

(** An element the lookup of [/api/save] can inspect: it is not [null]
    and its slug, when truthy, is a string. *)
Definition is_record (p : json) : bool :=
  match p with
  | JNull => false
  | _ => match or_else (prop p "slug") (JStr "") with
         | JStr _ => true
         | _ => false
         end
  end.

(** The request gives [html] as a string, or gives none. *)
Definition html_text (body : json) : option string :=
  match or_else (prop body "html") (JStr "") with
  | JStr text => Some text
  | _ => None
  end.

(** What the specification asks of a list field: a list is kept as it
    is, any other truthy value (a non-empty string, say) becomes the only
    element of a list, and a value that is absent or falsy (the empty
    string, [null], [false], zero) gives the empty list. *)
Definition normalizes (supplied : option json) (stored : option json) : Prop :=
  (forall l, supplied = Some (JArr l) -> stored = Some (JArr l)) /\
  (forall v, supplied = Some v -> isArray v = false -> truthy v = true ->
     stored = Some (JArr [v])) /\
  (supplied = None \/
   (exists v, supplied = Some v /\ isArray v = false /\ truthy v = false) ->
   stored = Some (JArr [])).

(** The projects directory takes a file of this name: the name has at
    most the 255 bytes a file name may have (the names of pages are
    ASCII), and no entry that is not a file, a subdirectory say, bears
    it. *)
Definition can_write (name : string) (d : directory) : Prop :=
  String.length name <= 255 /\ lookup_entry name d <> Some None.

(** The same directories with another index file. *)
Definition with_index (fs : FS) (idx : index_file) : FS :=
  MkFS (images fs) (files fs) idx.

(** The only difference the directory layout makes to a response: the
    stored path starts with [TemplateEdit/]. *)
Definition relocate (o : outcome) : outcome :=
  match o with
  | Responded 200 (JObj [(k, JStr p)]) =>
      if String.eqb k "path"
      then Responded 200 (JObj [(k, JStr ("TemplateEdit/" +:+ p))])
      else o
  | _ => o
  end.

(** The title of a scraped page as the specification words it: the text
    of the first title element, owner suffix and surrounding white space
    removed; without a title element the text of the first h1 element;
    without either the slug made readable. *)
Definition claimed_title (slug html : string) : string :=
  match match1 NestedServer.title_re html with
  | Some t => Str.trim (remove_first NestedServer.owner_re t)
  | None =>
      match match1 NestedServer.h1_re html with
      | Some h => h
      | None => NestedServer.humanize slug
      end
  end.

(** *** The image as the specification words it

    The first img element is the first tag named [img]: [<img] in any
    case, followed by white space, [/] or [>]. Its attributes are read
    from left to right up to the [>] that closes the tag: a name, and
    after [=] a value between two quotes of one kind, or a bare value
    that ends at white space or at the [>]. *)
Inductive reading : Type :=
| Between
| InName (name : string)
| AfterName (name : string)
| BeforeValue (name : string)
| InQuotes (name : string) (q : ascii) (value : string)
| InBare (name : string) (value : string).

Definition named_src (name : string) : bool :=
  String.eqb (Str.toLowerCase name) "src".

Definition snoc (s : string) (c : ascii) : string := s +:+ String c "".

(** The value of the first attribute named [src] of the tag whose text
    after the name is [s]. *)
Fixpoint src_attribute (m : reading) (s : string) : option string :=
  match s with
  | EmptyString => None
  | String c s' =>
      match m with
      | Between =>
          if is_space c || is_char "/" c then src_attribute Between s'
          else if is_char ">" c then None
          else src_attribute (InName (String c "")) s'
      | InName n =>
          if is_space c || is_char "/" c then src_attribute (AfterName n) s'
          else if is_char "=" c then src_attribute (BeforeValue n) s'
          else if is_char ">" c then (if named_src n then Some "" else None)
          else src_attribute (InName (snoc n c)) s'
      | AfterName n =>
          if is_space c || is_char "/" c then src_attribute (AfterName n) s'
          else if is_char "=" c then src_attribute (BeforeValue n) s'
          else if named_src n then Some ""
          else if is_char ">" c then None
          else src_attribute (InName (String c "")) s'
      | BeforeValue n =>
          if is_space c then src_attribute (BeforeValue n) s'
          else if NestedServer.quote c then src_attribute (InQuotes n c "") s'
          else if is_char ">" c then (if named_src n then Some "" else None)
          else src_attribute (InBare n (String c "")) s'
      | InQuotes n q v =>
          if is_char q c
          then (if named_src n then Some v else src_attribute Between s')
          else src_attribute (InQuotes n q (snoc v c)) s'
      | InBare n v =>
          if is_space c
          then (if named_src n then Some v else src_attribute Between s')
          else if is_char ">" c then (if named_src n then Some v else None)
          else src_attribute (InBare n (snoc v c)) s'
      end
  end.

(** The text after [<img] when [s] starts with an img tag. *)
Definition opens_img (s : string) : option string :=
  match s with
  | String a (String b (String c (String d rest))) =>
      if String.eqb (Str.toLowerCase (String a (String b (String c (String d ""))))) "<img"
      then
        match rest with
        | String e _ =>
            if is_space e || is_char "/" e || is_char ">" e then Some rest else None
        | EmptyString => None
        end
      else None
  | _ => None
  end.

Fixpoint first_img (s : string) : option string :=
  match opens_img s with
  | Some rest => Some rest
  | None =>
      match s with
      | String _ s' => first_img s'
      | EmptyString => None
      end
  end.

(** The image of a scraped page as the specification words it: the [src]
    attribute of the first img element, the empty string when there is
    no img element or the first one has no such attribute. *)
Definition claimed_image (html : string) : string :=
  match first_img html with
  | Some tag => default "" (src_attribute Between tag)
  | None => ""
  end.

(** *** What a pattern matches

    [accepts r inside cap s g rest]: the pattern [r] matches a prefix of
    [s] and leaves [rest]; [g] is the text of group 1 at the end, [cap]
    what the group held before. The relation knows nothing of the order
    in which the matcher tries the alternatives. *)
Inductive accepts : regex -> bool -> string -> string -> string -> string -> Prop :=
| acc_nil inside cap s : accepts [] inside cap s cap s
| acc_lit x r inside cap c s g rest :
    ci_char x c = true -> accepts r inside (push inside cap c) s g rest ->
    accepts (Lit x :: r) inside cap (String c s) g rest
| acc_class p r inside cap c s g rest :
    p c = true -> accepts r inside (push inside cap c) s g rest ->
    accepts (Class p :: r) inside cap (String c s) g rest
| acc_star_stop p r inside cap s g rest :
    accepts r inside cap s g rest -> accepts (Star p :: r) inside cap s g rest
| acc_star_more p r inside cap c s g rest :
    p c = true -> accepts (Star p :: r) inside (push inside cap c) s g rest ->
    accepts (Star p :: r) inside cap (String c s) g rest
| acc_plus p r inside cap c s g rest :
    p c = true -> accepts (Star p :: r) inside (push inside cap c) s g rest ->
    accepts (Plus p :: r) inside cap (String c s) g rest
| acc_open r inside cap s g rest :
    accepts r true EmptyString s g rest -> accepts (Open :: r) inside cap s g rest
| acc_close r inside cap s g rest :
    accepts r false cap s g rest -> accepts (Close :: r) inside cap s g rest
| acc_end r inside cap g rest :
    accepts r inside cap EmptyString g rest ->
    accepts (End :: r) inside cap EmptyString g rest.

(** The group after a run of characters went by. *)
Definition pushes (inside : bool) (cap mid : string) : string :=
  if inside then cap +:+ mid else cap.

Fixpoint all_chars (p : ascii -> bool) (s : string) : bool :=
  match s with
  | EmptyString => true
  | String c s' => p c && all_chars p s'
  end.

(** Equality with a literal under the flag [i], character by character. *)
Fixpoint ci_eq (a b : string) : bool :=
  match a, b with
  | EmptyString, EmptyString => true
  | String x a', String c b' => ci_char x c && ci_eq a' b'
  | _, _ => false
  end.

(** [s] starts with an element [name] that has the text [text]: a start
    tag (the name up to case, then anything up to the first [>]), a
    non-empty text without [<], and the end tag. *)
Definition element_at (name s text rest : string) : Prop :=
  exists tag attrs close,
    s = tag +:+ attrs +:+ ">" +:+ text +:+ close +:+ rest /\
    ci_eq ("<" +:+ name) tag = true /\
    all_chars (NestedServer.no ">") attrs = true /\
    text <> "" /\ all_chars (NestedServer.no "<") text = true /\
    ci_eq ("</" +:+ name +:+ ">") close = true.

(** One way to read the start of [s] as the pattern of the image does:
    [<img] up to case, the run [attrs] of one character or more without
    [>], [src=] up to case, a quote, the non-empty text [src] without
    quotes, a quote. The run may pass over a [src=] and stop at a later
    one, and the letters before [src=] are free: [data-src=] reads so. *)
Definition image_shape (s attrs src rest : string) : Prop :=
  exists tag key q1 q2,
    s = tag +:+ attrs +:+ key +:+ String q1 src +:+ String q2 rest /\
    ci_eq "<img" tag = true /\
    attrs <> "" /\ all_chars (NestedServer.no ">") attrs = true /\
    ci_eq "src=" key = true /\
    NestedServer.quote q1 = true /\ NestedServer.quote q2 = true /\
    src <> "" /\ all_chars (fun c => negb (NestedServer.quote c)) src = true.

(** The image found at the start of [s]: of the ways to read [s] as
    above, the one whose run [attrs] is longest, which is the one that
    stops at the last [src=] that has a quoted text after it. *)
Definition image_at (s src rest : string) : Prop :=
  exists attrs,
    image_shape s attrs src rest /\
    forall attrs' src' rest',
      image_shape s attrs' src' rest' -> String.length attrs' <= String.length attrs.

(** [x] is what is found at the leftmost place of [html] where something
    is found at all. *)
Definition leftmost (at_ : string -> string -> string -> Prop) (html x : string) : Prop :=
  exists pre s rest,
    html = pre +:+ s /\ at_ s x rest /\
    forall pre' s', html = pre' +:+ s' -> String.length pre' < String.length pre ->
      forall x' rest', ~ at_ s' x' rest'.

Definition nowhere (at_ : string -> string -> string -> Prop) (html : string) : Prop :=
  forall pre s, html = pre +:+ s -> forall x rest, ~ at_ s x rest.

(** The character at [i] starts a word of [s]: it is a word character
    and no word character stands before it. *)
Definition starts_word (s : string) (i : nat) : bool :=
  match String.get i s with
  | Some c =>
      is_word c &&
      match i with
      | 0 => true
      | S j => negb (default false (is_word <$> String.get j s))
      end
  | None => false
  end.

(** The character a readable slug has at [i], where the slug has [c]:
    a space for a hyphen, the capital of [c] at the start of a word. *)
Definition readable_char (s : string) (i : nat) (c : ascii) : ascii :=
  if is_char "-" c then " "%char
  else if starts_word s i then upper_char c else c.

(** The first candidate that is there and not empty, else the fallback. *)
Fixpoint first_nonempty (candidates : list (option string)) (fallback : string) : string :=
  match candidates with
  | [] => fallback
  | Some t :: rest => if String.eqb t "" then first_nonempty rest fallback else t
  | None :: rest => first_nonempty rest fallback
  end.

(** The title as the code settles it: the stripped text of the first
    title match, if there is one and it is not empty; else the trimmed
    text of the first h1 match, if there is one and it is not empty; else
    the slug made readable. *)
Definition settled_title (slug html : string) : string :=
  first_nonempty
    [ (fun t => Str.trim (remove_first NestedServer.owner_re t))
        <$> match1 NestedServer.title_re html;
      Str.trim <$> match1 NestedServer.h1_re html ]
    (NestedServer.humanize slug).

(** The image as the code settles it: the trimmed capture of the first
    match of the image pattern, the empty string without one. *)
Definition settled_image (html : string) : string :=
  default "" (Str.trim <$> match1 NestedServer.img_re html).

(** The title and the image the reconcile operation records for a file. *)
Definition extracted_title (slug html : string) : option json :=
  prop (NestedServer.scraped_entry slug html) "title".
Definition extracted_image (slug html : string) : option json :=
  prop (NestedServer.scraped_entry slug html) "image".

(** The pages of the projects directory, in listing order. *)
Definition html_files (d : directory) : list string :=
  filter (fun f => Str.endsWith f ".html" = true) (fst <$> d).

(** The key of a page: its name without [.html], lower-cased. *)
Definition file_key (f : string) : string :=
  Str.toLowerCase (basename_ext f ".html").

(** The state of the reconcile loop once every page has been visited. *)
Definition synced (d : directory) (projects : list json) : NestedServer.sync_state :=
  foldl (NestedServer.sync_step d)
    (NestedServer.SyncState projects
       (NestedServer.new_Map ((fun p => (slug_key p, p)) <$> projects)) [])
    (html_files d).

(** What the reconcile loop maintains: the keys of the map are the keys
    of the list, and every element of the list has a key. *)
Definition loop_inv (st : NestedServer.sync_state) : Prop :=
  (forall k, is_Some (NestedServer.st_bySlug st !! k)
             <-> k ∈ slug_key <$> NestedServer.st_projects st) /\
  Forall keyed (NestedServer.st_projects st).

(** The records reconcile keeps: those whose key is the key of a page. *)
Definition kept_records (d : directory) (l : list json) : list json :=
  filter (fun p => slug_key p ∈ file_key <$> html_files d) l.

(** A record reconcile made from a page of the directory. *)
Definition scraped_from (d : directory) (p : json) : Prop :=
  exists f, f ∈ html_files d /\
    p = NestedServer.scraped_entry (basename_ext f ".html") (read_or_empty f d).

(** The fields of an answer of [/api/sync-projects]. *)
Definition sync_answer (kept : list json) (added : list string) (removed : nat) : outcome :=
  Responded 200
    (JObj [ ("projects", JArr kept);
            ("added", JArr (JStr <$> added));
            ("removed", JNum (Str.of_nat removed));
            ("message", JStr (NestedServer.sync_message (length kept)
                                (length added) removed)) ]).

End Spec.

(** ** Sample states and requests *)

Module Samples.
Import JS Node.

Definition record (slug : string) : json := JObj [("slug", JStr slug)].

(** An index of two records, and a request that saves the second again
    with a scalar tag and a falsy category. *)
Definition demo_fs : FS :=
  MkFS [] [] (Parsed (JArr [JObj [("slug", JStr "Demo"); ("tags", JArr [])];
                            record "other"])).

Definition demo_meta : json :=
  JObj [("tags", JStr "web"); ("dataCategory", JNum "0")].

Definition demo_request : json :=
  JObj [("slug", JStr "demo"); ("meta", demo_meta)].

Definition demo_saved : FS :=
  MkFS [] [("demo.html", Some "")]
    (Parsed (JArr [ServerEditor.make_entry "demo" demo_meta; record "other"])).

(** A directory whose index names a page that is gone and misses one
    that is there; two names differ by case only, one entry cannot be
    read, one is no page. *)
Definition orphan_page : string := "<title>Orphan Page | Sharva Paralkar</title>".

Definition stale_fs : FS :=
  MkFS []
    [("orphan.html", Some orphan_page); ("B.html", None);
     ("b.html", Some "<h1>bee</h1>"); ("notes.txt", Some "")]
    (Parsed (JArr [record "gone"; record "B"])).

(** An index that already holds one slug twice, and the page of it. *)
Definition twice_fs : FS :=
  MkFS [] [("a.html", Some "")] (Parsed (JArr [record "a"; record "A"])).

(** A request with every field, and an upload. *)
Definition page_request : json :=
  JObj [("slug", JStr "My Project!"); ("html", JStr "<p>x</p>");
        ("meta", JObj [("title", JStr "T")])].

Definition photo : upload_file := MkUpload "../my photo.png" "bytes".

(** A slug of 256 letters: its page has a name no directory takes. *)
Definition long_slug : string := string_of_list_ascii (replicate 256 "a"%char).

(** Pages on which the scraper and the wording of the specification part. *)
Definition empty_title_page : string := "<title> | Sharva Paralkar</title><h1>Real</h1>".
Definition padded_h1_page : string := "<h1> Hello </h1>".
Definition padded_img_page : string := "<img src=' a.png '>".
Definition two_src_page : string := "<img src='a.png' data-src='b.png'>".
Definition late_src_page : string := "<img alt='x'><img src='y.png'>".
Definition plain_page : string :=
  "<html><head><TITLE lang=en>Orphan Page | sharva paralkar </TITLE></head><body><h1>Hi</h1><img class='x' src='a.png'></body></html>".

End Samples.

(** ** Vocabulary for the properties of the handlers *)

Module Props.
Import Chars JS Node Regex Spec.

(** The characters an uploaded file's name keeps: [a-zA-Z0-9._-]. *)
Definition name_char (c : ascii) : bool :=
  is_lower c || is_upper c || is_digit c
  || is_char "." c || is_char "_" c || is_char "-" c.

(** The name of the page of a slug: [slug + '.html']. *)
Definition page (slug : string) : string := slug +:+ ".html".

(** The slug of a record as [String(p.slug || '')] gives it. *)
Definition entry_slug (p : json) : string :=
  text_of (toString (or_else (prop p "slug") (JStr ""))).

(** [String(v)] goes through: neither [v] nor, when [v] is an array, any
    of its elements at any depth is an object with a property named
    [toString]. *)
Fixpoint convertible (v : json) : bool :=
  match v with
  | JArr items => forallb convertible items
  | JObj props =>
      match assoc "toString" props with
      | Some _ => false
      | None => true
      end
  | _ => true
  end.

(** The reconcile can take the key of an element: it is not [null], and
    its slug, when it has a truthy one, is [convertible]. *)
Definition has_key (p : json) : bool :=
  match p with
  | JNull => false
  | _ => convertible (or_else (prop p "slug") (JStr ""))
  end.

(** The records the reconcile loop appended to the list [old]. *)
Definition added_records (d : directory) (old : list json) : list json :=
  drop (length old) (NestedServer.st_projects (synced d old)).

(** [trim] would change nothing. *)
Definition trimmed (s : string) : Prop := Str.trim s = s.

(** What the owner pattern removes: white space, a bar, white space, the
    owner's name in any case, white space, up to the end. *)
Definition owner_suffix (s : string) : Prop :=
  exists w1 w2 name w3,
    s = w1 +:+ "|" +:+ w2 +:+ name +:+ w3 /\
    all_chars is_space w1 = true /\ all_chars is_space w2 = true /\
    ci_eq "Sharva Paralkar" name = true /\ all_chars is_space w3 = true.

End Props.

Import Chars JS Node Regex Spec.

(** ** Strings *)

Lemma str_map_length f s : String.length (Str.map f s) = String.length s.
Proof. induction s as [|c s IH]; simpl; congruence. Qed.

Lemma str_map_get f s i :
  String.get i (Str.map f s) = f <$> String.get i s.
Proof.
  revert i; induction s as [|c s IH]; intros [|i]; simpl; auto.
Qed.

Lemma str_map_map f g s : Str.map f (Str.map g s) = Str.map (fun c => f (g c)) s.
Proof. induction s as [|c s IH]; simpl; congruence. Qed.

Lemma str_map_ext f g s : (forall c, f c = g c) -> Str.map f s = Str.map g s.
Proof. intros E; induction s as [|c s IH]; simpl; congruence. Qed.

Lemma str_map_empty f s : Str.map f s = "" <-> s = "".
Proof. destruct s; simpl; split; congruence. Qed.

Lemma code_inj c d : code c = code d -> c = d.
Proof.
  unfold code; intros E.
  rewrite <- (ascii_N_embedding c), <- (ascii_N_embedding d); congruence.
Qed.

Lemma is_char_eq x c : is_char x c = true <-> c = x.
Proof.
  unfold is_char; rewrite N.eqb_eq; split; [apply code_inj | congruence].
Qed.

Lemma sanitize_char_kept c :
  slug_char (if ServerEditor.unsafe_slug_char c then "-"%char else c) = true.
Proof.
  unfold ServerEditor.unsafe_slug_char, slug_char.
  destruct (is_lower c || is_upper c || is_digit c || is_char "-" c) eqn:E;
    simpl; [exact E | reflexivity].
Qed.

Lemma sanitize_idem s : ServerEditor.sanitize (ServerEditor.sanitize s) = ServerEditor.sanitize s.
Proof.
  unfold ServerEditor.sanitize, Str.replace_class.
  rewrite str_map_map; apply str_map_ext; intros c.
  pose proof (sanitize_char_kept c) as K.
  unfold slug_char in K; unfold ServerEditor.unsafe_slug_char at 1.
  rewrite K; reflexivity.
Qed.

(** ** Looking a slug up *)

Lemma findIndex_Some pred l i :
  findIndex pred l = Ok (Some i) ->
  exists x, l !! i = Some x /\ pred x = Ok true /\
    forall j y, j < i -> l !! j = Some y -> pred y = Ok false.
Proof.
  revert i; induction l as [|a l IH]; intros i; simpl; [discriminate|].
  destruct (pred a) as [[|]|e] eqn:Pa; simpl; [| |discriminate].
  - intros [= <-]. exists a; repeat split; auto. intros j y Hj; lia.
  - destruct (findIndex pred l) as [[k|]|e] eqn:F; simpl; try discriminate.
    intros [= <-]. destruct (IH k eq_refl) as (x & Hx & Px & Hlt).
    exists x; repeat split; auto.
    intros [|j] y Hj; simpl; [congruence|]. apply Hlt; lia.
Qed.

Lemma findIndex_None pred l :
  findIndex pred l = Ok None -> Forall (fun x => pred x = Ok false) l.
Proof.
  induction l as [|a l IH]; simpl; [constructor|].
  destruct (pred a) as [[|]|e] eqn:Pa; simpl; try discriminate.
  destruct (findIndex pred l) as [[k|]|e] eqn:F; simpl; try discriminate.
  intros _; constructor; auto.
Qed.

Lemma findIndex_total pred l :
  Forall (fun x => exists b, pred x = Ok b) l -> exists idx, findIndex pred l = Ok idx.
Proof.
  induction 1 as [|a l [b Hb] _ [idx IH]]; simpl; [eauto|].
  rewrite Hb; simpl. destruct b; [eauto|]. rewrite IH; simpl; eauto.
Qed.

Lemma findIndex_lt pred l i : findIndex pred l = Ok (Some i) -> i < length l.
Proof.
  intros H; destruct (findIndex_Some _ _ _ H) as (x & Hx & _).
  eapply lookup_lt_Some; eauto.
Qed.

Lemma json_array_ind (P : json -> Prop) :
  P JNull -> (forall b, P (JBool b)) -> (forall d, P (JNum d)) ->
  (forall s, P (JStr s)) ->
  (forall items, Forall P items -> P (JArr items)) ->
  (forall props, P (JObj props)) ->
  forall v, P v.
Proof.
  intros Hn Hb Hd Hs Ha Ho. fix IH 1.
  intros [| | | |items|props];
    [exact Hn | apply Hb | apply Hd | apply Hs | | apply Ho].
  apply Ha. revert items. fix IHl 1.
  intros [|x rest]; constructor; [apply IH | apply IHl].
Qed.

(** [String(v)] gives a string or throws a [TypeError]. *)
Lemma toString_throws v : (exists t, toString v = Ok t) \/ toString v = Throw TypeError.
Proof.
  induction v as [|b|d|s|items IH|props] using json_array_ind;
    try (left; simpl; eauto; fail).
  - destruct b; left; simpl; eauto.
  - cbn [toString]. induction IH as [|x rest Hx _ IHrest]; [left; eauto|].
    assert (Hh : (exists t, match x with JNull => Ok "" | _ => toString x end = Ok t)
                 \/ match x with JNull => Ok "" | _ => toString x end = Throw TypeError).
    { destruct x; eauto. }
    destruct Hh as [[h ->]| ->]; [|right; reflexivity]. simpl.
    destruct rest as [|y rest]; [left; eauto|].
    destruct IHrest as [[t ->]| ->]; [left; simpl; eauto | right; reflexivity].
  - simpl. destruct (assoc "toString" props); eauto.
Qed.

Lemma get_Ok p k o : get p k = Ok o -> o = prop p k /\ p <> JNull.
Proof. destruct p; simpl; intros [= <-]; split; congruence. Qed.

Lemma same_slug_key slug p b :
  ServerEditor.same_slug slug p = Ok b ->
  b = bool_decide (slug_key p = Str.toLowerCase slug).
Proof.
  unfold ServerEditor.same_slug, slug_key; intros H.
  destruct (get p "slug") as [s|e] eqn:G; simpl in H; [|discriminate].
  apply get_Ok in G as [-> _].
  destruct (or_else (prop p "slug") (JStr "")) as [| | |k| |];
    simpl in H; try discriminate.
  injection H as <-; simpl.
  destruct (String.eqb_spec (Str.toLowerCase k) (Str.toLowerCase slug)); symmetry;
    [apply bool_decide_eq_true | apply bool_decide_eq_false]; auto.
Qed.

Lemma is_record_same_slug slug p :
  is_record p = true -> exists b, ServerEditor.same_slug slug p = Ok b.
Proof.
  unfold is_record, ServerEditor.same_slug, get; intros H.
  assert (exists k, or_else (prop p "slug") (JStr "") = JStr k) as [k Hk].
  { destruct p; try discriminate;
      destruct (or_else _ _); try discriminate; eauto. }
  destruct p; try discriminate; simpl; simpl in Hk; try rewrite Hk; simpl; eauto.
Qed.

Lemma slug_key_entry slug meta :
  slug <> "" -> slug_key (ServerEditor.make_entry slug meta) = Str.toLowerCase slug.
Proof.
  intros Hne; unfold slug_key; simpl.
  destruct (String.eqb_spec slug ""); [contradiction | reflexivity].
Qed.

Lemma is_record_entry slug meta : is_record (ServerEditor.make_entry slug meta) = true.
Proof. unfold is_record; simpl. destruct (negb (String.eqb slug "")); reflexivity. Qed.

(** ** The handler of [/api/save], case by case *)

Lemma load_projects_records idx : ServerEditor.load_projects idx = records idx.
Proof. destruct idx as [| |[]]; reflexivity. Qed.

Lemma html_text_write body text d name :
  html_text body = Some text -> writable name d = true ->
  writeFileSync name (or_else (prop body "html") (JStr "")) d = Ok (write name text d).
Proof.
  unfold html_text, writeFileSync.
  destruct (or_else (prop body "html") (JStr "")); try discriminate.
  intros [= ->] ->; reflexivity.
Qed.

Lemma html_text_refused body text d name :
  html_text body = Some text -> writable name d = false ->
  writeFileSync name (or_else (prop body "html") (JStr "")) d = Throw SystemError.
Proof.
  unfold html_text, writeFileSync.
  destruct (or_else (prop body "html") (JStr "")); try discriminate.
  intros [= ->] ->; reflexivity.
Qed.

Lemma write_html_text body d name d' :
  writeFileSync name (or_else (prop body "html") (JStr "")) d = Ok d' ->
  exists text, html_text body = Some text /\ writable name d = true /\
               d' = write name text d.
Proof.
  unfold html_text, writeFileSync.
  destruct (or_else (prop body "html") (JStr "")); try discriminate.
  destruct (writable name d); [|discriminate].
  intros [= <-]; eauto.
Qed.

Lemma writable_spelled name d : writable name d = true <-> can_write name d.
Proof.
  unfold writable, can_write. rewrite andb_true_iff, Nat.leb_le.
  destruct (lookup_entry name d) as [[t|]|]; intuition congruence.
Qed.

Lemma save_ok fs body slug text idx :
  ServerEditor.slug_of body = Ok slug -> slug <> "" ->
  html_text body = Some text ->
  writable (slug +:+ ".html") (files fs) = true ->
  findIndex (ServerEditor.same_slug slug) (records (index fs)) = Ok idx ->
  ServerEditor.save fs body =
    (MkFS (images fs) (write (slug +:+ ".html") text (files fs))
       (Parsed (JArr (ServerEditor.put idx
          (ServerEditor.make_entry slug (or_else (prop body "meta") (JObj [])))
          (records (index fs))))),
     Responded 200 (JObj [("path", JStr ("projects/" +:+ slug +:+ ".html"))])).
Proof.
  intros Hs Hne Ht Hw Hi. unfold ServerEditor.save. rewrite Hs.
  destruct (String.eqb_spec slug ""); [contradiction|].
  rewrite (html_text_write _ _ _ _ Ht Hw); simpl.
  rewrite load_projects_records, Hi; reflexivity.
Qed.

Lemma save_responded fs body fs' st b :
  ServerEditor.save fs body = (fs', Responded st b) ->
  (ServerEditor.slug_of body = Ok "" /\ fs' = fs /\ st = 400 /\
   b = JObj [("error", JStr "Missing slug")])
  \/
  (exists slug text idx,
     ServerEditor.slug_of body = Ok slug /\ slug <> "" /\
     html_text body = Some text /\
     writable (slug +:+ ".html") (files fs) = true /\
     findIndex (ServerEditor.same_slug slug) (records (index fs)) = Ok idx /\
     st = 200).
Proof.
  unfold ServerEditor.save.
  destruct (ServerEditor.slug_of body) as [slug|e] eqn:Hs; [|discriminate].
  destruct (String.eqb_spec slug "") as [->|Hne].
  - intros [= <- <- <-]; left; auto.
  - destruct (writeFileSync _ _ _) as [d'|e] eqn:W; [|discriminate].
    apply write_html_text in W as (text & Ht & Hw & ->). simpl.
    rewrite load_projects_records.
    destruct (findIndex _ _) as [idx|e] eqn:F; [|discriminate].
    intros [= <- <- <-]; right; exists slug, text, idx; auto 10.
Qed.

Lemma save_index_kept fs body fs' o :
  ServerEditor.save fs body = (fs', o) ->
  (forall b, o <> Responded 200 b) -> index fs' = index fs.
Proof.
  unfold ServerEditor.save.
  destruct (ServerEditor.slug_of body) as [slug|e]; [|intros [= <- <-]; auto].
  destruct (String.eqb slug ""); [intros [= <- <-]; auto|].
  destruct (writeFileSync _ _ _) as [d'|e]; [|intros [= <- <-]; auto].
  simpl. destruct (findIndex _ _) as [idx|e]; intros [= <- <-]; auto.
  intros H; exfalso; eapply H; reflexivity.
Qed.

Lemma nested_save fs body :
  NestedServer.save fs body =
    ((ServerEditor.save fs body).1, relocate (ServerEditor.save fs body).2).
Proof.
  unfold NestedServer.save, ServerEditor.save.
  change NestedServer.slug_of with ServerEditor.slug_of.
  destruct (ServerEditor.slug_of body) as [slug|e]; [|reflexivity].
  destruct (String.eqb slug ""); [reflexivity|].
  destruct (writeFileSync _ _ _) as [d'|e]; [|reflexivity].
  simpl.
  change NestedServer.load_projects with ServerEditor.load_projects.
  change NestedServer.same_slug with ServerEditor.same_slug.
  destruct (findIndex _ _) as [idx|e]; reflexivity.
Qed.

Lemma nested_save_stored_inv fs body fs1 b :
  NestedServer.save fs body = (fs1, Responded 200 b) ->
  exists b', ServerEditor.save fs body = (fs1, Responded 200 b').
Proof.
  rewrite nested_save. destruct (ServerEditor.save fs body) as [fs' o] eqn:E. simpl.
  intros [= -> Hr]. destruct o as [st' b'| |]; try discriminate.
  destruct (save_responded _ _ _ _ _ E) as [(_ & _ & -> & ->)|H].
  - simpl in Hr. discriminate.
  - destruct H as (? & ? & ? & _ & _ & _ & _ & _ & ->). eauto.
Qed.

Lemma nested_save_stored fs body fs' p :
  ServerEditor.save fs body = (fs', Responded 200 (JObj [("path", JStr p)])) ->
  NestedServer.save fs body =
    (fs', Responded 200 (JObj [("path", JStr ("TemplateEdit/" +:+ p))])).
Proof. intros H; rewrite nested_save, H; reflexivity. Qed.

Lemma lookup_write name text d :
  lookup_entry name (write name text d) = Some (Some text).
Proof.
  induction d as [|[n c] d IH]; simpl.
  - rewrite String.eqb_refl; reflexivity.
  - destruct (String.eqb n name) eqn:E; simpl; rewrite E; auto.
Qed.

Lemma lookup_write_other name other text d :
  other <> name -> lookup_entry other (write name text d) = lookup_entry other d.
Proof.
  intros Hne. induction d as [|[n c] d IH]; simpl.
  - destruct (String.eqb_spec name other); [congruence | reflexivity].
  - destruct (String.eqb_spec n name) as [->|Hn]; simpl.
    + destruct (String.eqb_spec name other); [congruence | reflexivity].
    + destruct (String.eqb n other); auto.
Qed.

Lemma writable_write name other text d :
  writable name d = true -> writable name (write other text d) = true.
Proof.
  unfold writable. destruct (String.eqb_spec name other) as [->|Hne].
  - rewrite lookup_write. destruct (Nat.leb _ _); auto.
  - rewrite lookup_write_other; auto.
Qed.

Lemma put_lookup idx entry l :
  (forall i, idx = Some i -> i < length l) ->
  ServerEditor.put idx entry l !! default (length l) idx = Some entry.
Proof.
  intros Hi; destruct idx as [i|]; simpl.
  - apply list_lookup_insert_eq; auto.
  - rewrite lookup_app_r, Nat.sub_diag; [reflexivity | lia].
Qed.

Lemma records_total slug l :
  Forall (fun p => is_record p = true) l ->
  exists idx, findIndex (ServerEditor.same_slug slug) l = Ok idx.
Proof.
  intros H; apply findIndex_total.
  eapply Forall_impl; [exact H|]. intros p Hp; apply is_record_same_slug; auto.
Qed.

Lemma slug_of_string body raw :
  prop body "slug" = Some (JStr raw) -> raw <> "" ->
  ServerEditor.slug_of body = Ok (ServerEditor.sanitize raw)
  /\ ServerEditor.sanitize raw <> "".
Proof.
  intros Hp Hne; unfold ServerEditor.slug_of; rewrite Hp; simpl.
  destruct (String.eqb_spec raw ""); [contradiction|]. split; [reflexivity|].
  unfold ServerEditor.sanitize, Str.replace_class. rewrite str_map_empty; auto.
Qed.

Lemma slug_of_raw body slug :
  ServerEditor.slug_of body = Ok slug -> slug <> "" ->
  exists raw, prop body "slug" = Some (JStr raw) /\ slug = ServerEditor.sanitize raw.
Proof.
  unfold ServerEditor.slug_of, or_else; intros H Hne.
  destruct (prop body "slug") as [v|]; [|injection H as <-; contradiction].
  destruct (truthy v) eqn:T; [|injection H as <-; contradiction].
  destruct v; simpl in H; try discriminate. injection H as <-; eauto.
Qed.

(** ** Sanitising the slug *)

(** C6. Sanitising a slug keeps its length, keeps every character of
    [a-zA-Z0-9-] and puts a hyphen for every other one; sanitising twice
    is sanitising once; a save whose request carries a non-empty slug
    stores the page and the record under the sanitised slug, in both
    servers, when the directory takes a page of that name; and whenever
    a save has stored a project, page and record are under the
    sanitised form of the slug the request gave. *)
Theorem sanitized_slug_is_stored :
  (forall s,
     String.length (ServerEditor.sanitize s) = String.length s /\
     forall i c, String.get i s = Some c ->
       String.get i (ServerEditor.sanitize s)
       = Some (if slug_char c then c else "-"%char)) /\
  (forall s, ServerEditor.sanitize (ServerEditor.sanitize s) = ServerEditor.sanitize s) /\
  (forall fs body raw text,
     prop body "slug" = Some (JStr raw) -> raw <> "" ->
     html_text body = Some text ->
     Forall (fun p => is_record p = true) (records (index fs)) ->
     let slug := ServerEditor.sanitize raw in
     can_write (slug +:+ ".html") (files fs) ->
     exists fs' i e,
       ServerEditor.save fs body
       = (fs', Responded 200 (JObj [("path", JStr ("projects/" +:+ slug +:+ ".html"))])) /\
       NestedServer.save fs body
       = (fs', Responded 200
                 (JObj [("path", JStr ("TemplateEdit/projects/" +:+ slug +:+ ".html"))])) /\
       records (index fs') !! i = Some e /\
       prop e "slug" = Some (JStr slug) /\
       lookup_entry (slug +:+ ".html") (files fs') = Some (Some text)) /\
  (forall fs body fs' b,
     ServerEditor.save fs body = (fs', Responded 200 b) \/
     NestedServer.save fs body = (fs', Responded 200 b) ->
     exists raw text i e,
       prop body "slug" = Some (JStr raw) /\
       html_text body = Some text /\
       records (index fs') !! i = Some e /\
       prop e "slug" = Some (JStr (ServerEditor.sanitize raw)) /\
       lookup_entry (ServerEditor.sanitize raw +:+ ".html") (files fs')
       = Some (Some text)).
Proof.
  split; [|split; [|split]].
  - intros s; unfold ServerEditor.sanitize, Str.replace_class; split.
    + apply str_map_length.
    + intros i c Hc; rewrite str_map_get, Hc; simpl.
      unfold ServerEditor.unsafe_slug_char, slug_char.
      destruct (is_lower c || is_upper c || is_digit c || is_char "-" c); reflexivity.
  - apply sanitize_idem.
  - intros fs body raw text Hraw Hne Ht Hrec slug Hw.
    apply writable_spelled in Hw.
    destruct (slug_of_string _ _ Hraw Hne) as [Hs Hne'].
    destruct (records_total slug _ Hrec) as [idx Hidx].
    pose proof (save_ok fs body slug text idx Hs Hne' Ht Hw Hidx) as Hsave.
    eexists _, (default (length (records (index fs))) idx), _.
    split; [exact Hsave|]. split; [apply (nested_save_stored _ _ _ _ Hsave)|].
    simpl. split; [|split].
    + apply put_lookup. intros i ->. eapply findIndex_lt; eauto.
    + reflexivity.
    + apply lookup_write.
  - intros fs body fs' b H.
    assert (exists b', ServerEditor.save fs body = (fs', Responded 200 b')) as [b' H'].
    { destruct H as [H|H]; [eauto|]. apply nested_save_stored_inv in H; exact H. }
    clear H. pose proof H' as H.
    apply save_responded in H' as [(_ & _ & ? & _)|H']; [discriminate|].
    destruct H' as (slug & text & idx & Hs & Hne & Ht & Hw & Hi & _).
    destruct (slug_of_raw _ _ Hs Hne) as (raw & Hraw & ->).
    rewrite (save_ok _ _ _ _ _ Hs Hne Ht Hw Hi) in H. injection H as <- _.
    exists raw, text, (default (length (records (index fs))) idx). eexists.
    split; [exact Hraw|]. split; [exact Ht|]. simpl. split; [|split].
    + apply put_lookup. intros i ->. eapply findIndex_lt; eauto.
    + reflexivity.
    + apply lookup_write.
Qed.

Lemma sanitized_slug_is_stored_witness :
  exists fs' i e,
    ServerEditor.save (MkFS [] [] Missing)
      (JObj [("slug", JStr "My Project!"); ("html", JStr "<p>x</p>")])
    = (fs', Responded 200 (JObj [("path", JStr "projects/My-Project-.html")])) /\
    NestedServer.save (MkFS [] [] Missing)
      (JObj [("slug", JStr "My Project!"); ("html", JStr "<p>x</p>")])
    = (fs', Responded 200 (JObj [("path", JStr "TemplateEdit/projects/My-Project-.html")])) /\
    records (index fs') !! i = Some e /\
    prop e "slug" = Some (JStr "My-Project-") /\
    lookup_entry "My-Project-.html" (files fs') = Some (Some "<p>x</p>").
Proof.
  apply (proj1 (proj2 (proj2 sanitized_slug_is_stored))
           (MkFS [] [] Missing)
           (JObj [("slug", JStr "My Project!"); ("html", JStr "<p>x</p>")])
           "My Project!" "<p>x</p>").
  - reflexivity.
  - discriminate.
  - reflexivity.
  - constructor.
  - split; [simpl; lia | discriminate].
Defined.

(** ** Rejecting a request without a slug *)

Lemma slug_of_empty body :
  ServerEditor.slug_of body = Ok "" <->
  (forall v, prop body "slug" = Some v -> truthy v = false).
Proof.
  unfold ServerEditor.slug_of, or_else. split.
  - intros H v Hv; rewrite Hv in H.
    destruct (truthy v) eqn:T; [|reflexivity].
    destruct v; simpl in H; try discriminate.
    injection H as H. apply str_map_empty in H; subst. discriminate.
  - intros H. destruct (prop body "slug") as [v|]; [|reflexivity].
    rewrite (H v eq_refl); reflexivity.
Qed.

(** C7. A save is answered with status 400 exactly when the sanitised
    slug is empty, which is when the request has no slug or a falsy one;
    the answer then carries the error message and the file system is left
    as it was: neither the page nor the index is written. Both servers. *)
Theorem missing_slug_rejected fs body :
  (ServerEditor.slug_of body = Ok ""
   <-> exists fs' b, ServerEditor.save fs body = (fs', Responded 400 b)) /\
  (ServerEditor.slug_of body = Ok ""
   <-> forall v, prop body "slug" = Some v -> truthy v = false) /\
  (forall fs' b, ServerEditor.save fs body = (fs', Responded 400 b) ->
     fs' = fs /\ b = JObj [("error", JStr "Missing slug")] /\
     NestedServer.save fs body = (fs, Responded 400 b)) /\
  (forall fs' b, NestedServer.save fs body = (fs', Responded 400 b) ->
     ServerEditor.save fs body = (fs', Responded 400 b)).
Proof.
  split; [|split; [apply slug_of_empty|split]].
  - split.
    + intros H; unfold ServerEditor.save; rewrite H; simpl; eauto.
    + intros (fs' & b & H). apply save_responded in H as [(H & _)|H]; [exact H|].
      destruct H as (? & ? & ? & _ & _ & _ & _ & _ & ?); discriminate.
  - intros fs' b H. pose proof H as H'.
    apply save_responded in H' as [(Hs & -> & _ & ->)|H'].
    + repeat split. rewrite nested_save, H; reflexivity.
    + destruct H' as (? & ? & ? & _ & _ & _ & _ & _ & ?); discriminate.
  - intros fs' b. rewrite nested_save.
    destruct (ServerEditor.save fs body) as [fs1 o] eqn:E; simpl.
    destruct o as [st b1| |]; simpl; try discriminate.
    destruct (save_responded _ _ _ _ _ E) as [(_ & -> & -> & ->)|H].
    + simpl; auto.
    + destruct H as (slug & text & idx & Hs & Hne & Ht & Hw & Hi & ->).
      rewrite (save_ok _ _ _ _ _ Hs Hne Ht Hw Hi) in E. injection E as <- <-.
      simpl; discriminate.
Qed.

Lemma missing_slug_rejected_witness :
  ServerEditor.save (MkFS [] [("a.html", Some "x")] Malformed)
    (JObj [("slug", JStr ""); ("html", JStr "<p>x</p>")])
  = (MkFS [] [("a.html", Some "x")] Malformed,
     Responded 400 (JObj [("error", JStr "Missing slug")])).
Proof.
  destruct (proj1 (proj1 (missing_slug_rejected
              (MkFS [] [("a.html", Some "x")] Malformed)
              (JObj [("slug", JStr ""); ("html", JStr "<p>x</p>")])))
              eq_refl) as (fs' & b & H).
  destruct (proj1 (proj2 (proj2 (missing_slug_rejected
              (MkFS [] [("a.html", Some "x")] Malformed)
              (JObj [("slug", JStr ""); ("html", JStr "<p>x</p>")]))))
              fs' b H) as (-> & -> & _).
  exact H.
Defined.

(** ** Normalising the list fields *)

Lemma as_list_normalizes x : normalizes x (Some (ServerEditor.as_list x)).
Proof.
  unfold normalizes, ServerEditor.as_list; repeat split.
  - intros l ->; reflexivity.
  - intros v -> Ha Ht. destruct v; simpl in *; try discriminate; rewrite ?Ht; auto.
  - intros [->|(v & -> & Ha & Ht)]; [reflexivity|].
    destruct v; simpl in *; try discriminate; rewrite ?Ht; auto.
Qed.

(** C5. After a save that stored a project, the index holds at some
    position the record of the sanitised slug, and its [tags] and
    [dataCategory] are the values of [meta.tags] and [meta.dataCategory]
    normalised: a list unchanged, another truthy value wrapped in a
    one-element list, an absent or falsy value as the empty list. *)
Theorem list_fields_normalized fs body fs' b :
  ServerEditor.save fs body = (fs', Responded 200 b) ->
  let meta := or_else (prop body "meta") (JObj []) in
  exists slug i e,
    ServerEditor.slug_of body = Ok slug /\
    records (index fs') !! i = Some e /\
    prop e "slug" = Some (JStr slug) /\
    normalizes (prop meta "tags") (prop e "tags") /\
    normalizes (prop meta "dataCategory") (prop e "dataCategory") /\
    NestedServer.save fs body = (fs', relocate (Responded 200 b)).
Proof.
  intros H meta. pose proof H as H'.
  apply save_responded in H' as [(_ & _ & ? & _)|H']; [discriminate|].
  destruct H' as (slug & text & idx & Hs & Hne & Ht & Hw & Hi & _).
  rewrite (save_ok _ _ _ _ _ Hs Hne Ht Hw Hi) in H. injection H as <- <-.
  exists slug, (default (length (records (index fs))) idx), (ServerEditor.make_entry slug meta).
  split; [exact Hs|]. split.
  { simpl. apply put_lookup. intros i ->. eapply findIndex_lt; eauto. }
  split; [reflexivity|].
  split; [apply as_list_normalizes|]. split; [apply as_list_normalizes|].
  rewrite nested_save, (save_ok _ _ _ _ _ Hs Hne Ht Hw Hi); reflexivity.
Qed.

Lemma list_fields_normalized_witness :
  exists slug i e,
    ServerEditor.slug_of Samples.demo_request = Ok slug /\
    records (index Samples.demo_saved) !! i = Some e /\
    prop e "slug" = Some (JStr slug) /\
    normalizes (Some (JStr "web")) (prop e "tags") /\
    normalizes (Some (JNum "0")) (prop e "dataCategory") /\
    NestedServer.save Samples.demo_fs Samples.demo_request
    = (Samples.demo_saved,
       Responded 200 (JObj [("path", JStr "TemplateEdit/projects/demo.html")])).
Proof.
  refine (list_fields_normalized Samples.demo_fs Samples.demo_request
            Samples.demo_saved (JObj [("path", JStr "projects/demo.html")]) _).
  vm_compute; reflexivity.
Defined.

(** ** The handler of [/api/sync-projects], step by step *)

Lemma key_of_Ok p : keyed p -> NestedServer.key_of p = Ok (slug_key p).
Proof. intros H; exact H. Qed.

Lemma key_of_null k : NestedServer.key_of JNull <> Ok k.
Proof. discriminate. Qed.

Lemma key_of_keyed p k : NestedServer.key_of p = Ok k -> keyed p.
Proof.
  unfold keyed, NestedServer.key_of, slug_key; intros H.
  destruct (get p "slug") as [s|e] eqn:G; simpl in *; [|discriminate].
  apply get_Ok in G as [-> _].
  destruct (toString _) as [t|e]; simpl in *; [reflexivity | discriminate].
Qed.

Lemma key_of_throws p e : NestedServer.key_of p = Throw e -> e = TypeError.
Proof.
  unfold NestedServer.key_of.
  destruct p; simpl; try congruence;
    match goal with |- context [toString ?v] => generalize v end;
    intros v; destruct (toString_throws v) as [[t ->]| ->]; simpl; congruence.
Qed.

Lemma keyed_not_null p : keyed p -> p <> JNull.
Proof. intros H ->; discriminate. Qed.

Lemma keyed_string_slug p :
  p <> JNull -> (exists k, or_else (prop p "slug") (JStr "") = JStr k) -> keyed p.
Proof.
  intros Hn [k Hk]. unfold keyed, NestedServer.key_of, slug_key.
  destruct p; try congruence; simpl; simpl in Hk; rewrite ?Hk; reflexivity.
Qed.

Lemma is_record_keyed p : is_record p = true -> keyed p.
Proof.
  unfold is_record; intros H. apply keyed_string_slug.
  - intros ->; discriminate.
  - destruct p; try discriminate; destruct (or_else _ _); try discriminate; eauto.
Qed.

Lemma keyed_scraped slug html : keyed (NestedServer.scraped_entry slug html).
Proof.
  apply keyed_string_slug; [discriminate|]. simpl.
  destruct (negb (String.eqb slug "")); eauto.
Qed.

Lemma mapM_keys l :
  Forall keyed l ->
  mapM (fun p => k ← NestedServer.key_of p; Ok (k, p)) l
  = Ok ((fun p => (slug_key p, p)) <$> l).
Proof.
  induction 1 as [|p l Hp _ IH]; [reflexivity|].
  cbn [mapM]. rewrite (key_of_Ok _ Hp). simpl. rewrite IH. reflexivity.
Qed.

Lemma mapM_keys_inv l pairs :
  mapM (fun p => k ← NestedServer.key_of p; Ok (k, p)) l = Ok pairs ->
  Forall keyed l.
Proof.
  revert pairs; induction l as [|p l IH]; intros pairs; [constructor|].
  cbn [mapM]. destruct (NestedServer.key_of p) as [k|e] eqn:K; simpl; [|discriminate].
  destruct (mapM _ l) as [ys|e] eqn:M; simpl; [|discriminate].
  intros _; constructor; [eapply key_of_keyed; eauto | eapply IH; reflexivity].
Qed.

Lemma filterM_keys (keys : gset string) (l : list json) :
  Forall keyed l ->
  NestedServer.filterM
    (fun p => k ← NestedServer.key_of p; Ok (bool_decide (k ∈ keys))) l
  = Ok (filter (fun p => slug_key p ∈ keys) l).
Proof.
  induction 1 as [|p l Hp _ IH]; [reflexivity|].
  cbn [NestedServer.filterM]. rewrite (key_of_Ok _ Hp). simpl. rewrite IH. simpl.
  rewrite filter_cons. destruct (decide (slug_key p ∈ keys)) as [Hin|Hin].
  - rewrite bool_decide_eq_true_2; auto.
  - rewrite bool_decide_eq_false_2; auto.
Qed.

Lemma html_files_listing fs :
  filter (fun f => Str.endsWith f ".html" = true) (readdirSync fs)
  = html_files (files fs).
Proof.
  unfold readdirSync, html_files. rewrite filter_app.
  destruct (index fs); simpl; rewrite ?filter_nil, app_nil_r; reflexivity.
Qed.

Lemma filter_keys_set (keys : list string) (l : list json) :
  filter (fun p => slug_key p ∈ (list_to_set keys : gset string)) l
  = filter (fun p => slug_key p ∈ keys) l.
Proof.
  apply list_filter_iff. intros p. apply elem_of_list_to_set.
Qed.

Lemma sync_ok fs :
  Forall keyed (records (index fs)) ->
  let st := synced (files fs) (records (index fs)) in
  let kept := kept_records (files fs) (NestedServer.st_projects st) in
  Forall keyed (NestedServer.st_projects st) ->
  NestedServer.sync fs =
    (MkFS (images fs) (files fs) (Parsed (JArr kept)),
     sync_answer kept (NestedServer.st_added st)
       (length (NestedServer.st_projects st) - length kept)).
Proof.
  intros Hnn st kept Hst. unfold NestedServer.sync.
  change NestedServer.load_projects with ServerEditor.load_projects.
  rewrite load_projects_records, html_files_listing, (mapM_keys _ Hnn).
  fold (synced (files fs) (records (index fs))). fold st.
  rewrite (filterM_keys _ _ Hst), filter_keys_set.
  reflexivity.
Qed.

(** *** The loop over the pages *)

Section SyncLoop.
Variable d : directory.

Local Abbreviation step := (NestedServer.sync_step d).

Lemma new_Map_keys_from (pairs : list (string * json)) (m : gmap string json) k :
  is_Some (foldl (fun m kv => <[kv.1 := kv.2]> m) m pairs !! k)
  <-> is_Some (m !! k) \/ k ∈ pairs.*1.
Proof.
  revert m; induction pairs as [|[k' v] pairs IH]; intros m; simpl.
  - rewrite elem_of_nil; tauto.
  - rewrite IH, elem_of_cons. destruct (decide (k' = k)) as [->|Hne].
    + rewrite lookup_insert_eq. split; [auto|]. intros _; left; eauto.
    + rewrite lookup_insert_ne by auto. split; intros [?|?]; auto.
      destruct H as [->|?]; [contradiction|auto].
Qed.

Lemma new_Map_keys (pairs : list (string * json)) k :
  is_Some (NestedServer.new_Map pairs !! k) <-> k ∈ pairs.*1.
Proof.
  unfold NestedServer.new_Map. rewrite new_Map_keys_from, lookup_empty.
  split; [intros [[? ?]|?]; [discriminate|auto] | auto].
Qed.

Lemma loop_inv_init (l : list json) :
  Forall keyed l ->
  loop_inv (NestedServer.SyncState l
              (NestedServer.new_Map ((fun p => (slug_key p, p)) <$> l)) []).
Proof.
  intros H; split; [|exact H]. intros k; simpl.
  rewrite new_Map_keys, <- list_fmap_compose. reflexivity.
Qed.

Lemma slug_key_scraped slug html :
  slug_key (NestedServer.scraped_entry slug html) = Str.toLowerCase slug.
Proof.
  unfold slug_key; simpl. destruct (String.eqb_spec slug ""); subst; reflexivity.
Qed.

Lemma step_inv st f : loop_inv st -> loop_inv (step st f).
Proof.
  intros [Hk Hn]. unfold step, NestedServer.sync_step.
  destruct (NestedServer.st_bySlug st !! _) eqn:E; [split; auto|].
  split; simpl.
  - intros k. rewrite fmap_app, elem_of_app; simpl.
    rewrite slug_key_scraped, list_elem_of_singleton, <- Hk.
    destruct (decide (Str.toLowerCase (basename_ext f ".html") = k)) as [->|Hne].
    + rewrite lookup_insert_eq. split; eauto.
    + rewrite lookup_insert_ne by auto. split; [auto|]. intros [?|?]; congruence.
  - apply Forall_app; split; [auto|]. constructor; [apply keyed_scraped|constructor].
Qed.

Lemma step_mono st f k :
  is_Some (NestedServer.st_bySlug st !! k) ->
  is_Some (NestedServer.st_bySlug (step st f) !! k).
Proof.
  intros H. unfold step, NestedServer.sync_step.
  destruct (NestedServer.st_bySlug st !! Str.toLowerCase _) eqn:E; [auto|]. simpl.
  destruct (decide (Str.toLowerCase (basename_ext f ".html") = k)) as [->|Hne].
  - rewrite lookup_insert_eq; eauto.
  - rewrite lookup_insert_ne; auto.
Qed.

Lemma step_key st f :
  is_Some (NestedServer.st_bySlug (step st f) !! file_key f).
Proof.
  unfold step, NestedServer.sync_step, file_key.
  destruct (NestedServer.st_bySlug st !! _) eqn:E; simpl.
  - rewrite E; eauto.
  - rewrite lookup_insert_eq; eauto.
Qed.

Lemma step_known st f :
  is_Some (NestedServer.st_bySlug st !! file_key f) -> step st f = st.
Proof.
  unfold step, NestedServer.sync_step, file_key. intros [v ->]. reflexivity.
Qed.

Lemma step_unique st f :
  loop_inv st ->
  NoDup (slug_key <$> NestedServer.st_projects st) ->
  NoDup (slug_key <$> NestedServer.st_projects (step st f)).
Proof.
  intros [Hk _] Hnd. unfold step, NestedServer.sync_step.
  destruct (NestedServer.st_bySlug st !! _) eqn:E; [auto|]. simpl.
  rewrite fmap_app; simpl. rewrite slug_key_scraped.
  apply NoDup_app; split; [auto|]. split; [|apply NoDup_singleton].
  intros k Hin Hk'. apply list_elem_of_singleton in Hk'; subst k.
  apply Hk in Hin. rewrite E in Hin. destruct Hin; discriminate.
Qed.

Lemma loop_inv_all files st : loop_inv st -> loop_inv (foldl step st files).
Proof.
  revert st; induction files as [|f files IH]; intros st H; simpl; auto.
  apply IH, step_inv, H.
Qed.

Lemma loop_mono files st k :
  is_Some (NestedServer.st_bySlug st !! k) ->
  is_Some (NestedServer.st_bySlug (foldl step st files) !! k).
Proof.
  revert st; induction files as [|f files IH]; intros st H; simpl; auto.
  apply IH, step_mono, H.
Qed.

Lemma loop_keys files st f :
  f ∈ files ->
  is_Some (NestedServer.st_bySlug (foldl step st files) !! file_key f).
Proof.
  revert st; induction files as [|g files IH]; intros st Hin; simpl.
  - apply elem_of_nil in Hin; contradiction.
  - apply elem_of_cons in Hin as [->|Hin]; [|auto].
    apply loop_mono, step_key.
Qed.

Lemma loop_known files st :
  (forall f, f ∈ files -> is_Some (NestedServer.st_bySlug st !! file_key f)) ->
  foldl step st files = st.
Proof.
  induction files as [|f files IH]; intros H; simpl; [reflexivity|].
  rewrite step_known by (apply H; left). apply IH.
  intros g Hg; apply H; right; exact Hg.
Qed.

Lemma loop_unique files st :
  loop_inv st ->
  NoDup (slug_key <$> NestedServer.st_projects st) ->
  NoDup (slug_key <$> NestedServer.st_projects (foldl step st files)).
Proof.
  revert st; induction files as [|f files IH]; intros st Hi Hn; simpl; auto.
  apply IH; [apply step_inv, Hi | apply step_unique; auto].
Qed.

End SyncLoop.

Lemma sync_responded fs fs' st b :
  NestedServer.sync fs = (fs', Responded st b) ->
  Forall keyed (records (index fs)).
Proof.
  unfold NestedServer.sync.
  change NestedServer.load_projects with ServerEditor.load_projects.
  rewrite load_projects_records.
  destruct (mapM _ (records (index fs))) as [pairs|e] eqn:M; [|discriminate].
  intros _. eapply mapM_keys_inv; eauto.
Qed.

Lemma synced_inv d l :
  Forall keyed l -> loop_inv (synced d l).
Proof. intros H; apply loop_inv_all, loop_inv_init, H. Qed.

Lemma sync_total fs :
  Forall keyed (records (index fs)) ->
  let st := synced (files fs) (records (index fs)) in
  let kept := kept_records (files fs) (NestedServer.st_projects st) in
  NestedServer.sync fs =
    (MkFS (images fs) (files fs) (Parsed (JArr kept)),
     sync_answer kept (NestedServer.st_added st)
       (length (NestedServer.st_projects st) - length kept)).
Proof.
  intros H st kept. apply sync_ok; [exact H|]. apply (synced_inv _ _ H).
Qed.

Lemma kept_records_keep d (l : list json) :
  (forall p, p ∈ l -> slug_key p ∈ file_key <$> html_files d) ->
  kept_records d l = l.
Proof.
  unfold kept_records. induction l as [|p l IH]; intros H; [reflexivity|].
  rewrite filter_cons_True by (apply H; left). f_equal. apply IH.
  intros q Hq; apply H; right; exact Hq.
Qed.

Lemma kept_records_idem d (l : list json) :
  kept_records d (kept_records d l) = kept_records d l.
Proof.
  apply kept_records_keep. intros p Hp.
  apply list_elem_of_filter in Hp as [Hp _]. exact Hp.
Qed.

(** Every page has a record among those that were kept. *)
Lemma synced_covers d l f :
  Forall keyed l ->
  f ∈ html_files d ->
  file_key f ∈ slug_key <$> kept_records d (NestedServer.st_projects (synced d l)).
Proof.
  intros Hl Hf.
  destruct (synced_inv d l Hl) as [Hk _].
  pose proof (loop_keys d (html_files d)
    (NestedServer.SyncState l
       (NestedServer.new_Map ((fun p => (slug_key p, p)) <$> l)) []) f Hf) as Hin.
  fold (synced d l) in Hin. apply Hk in Hin.
  apply list_elem_of_fmap in Hin as (p & Hkey & Hp).
  apply list_elem_of_fmap. exists p; split; [exact Hkey|].
  apply list_elem_of_filter; split; [|exact Hp].
  rewrite <- Hkey. apply list_elem_of_fmap; eauto.
Qed.

Lemma synced_again d l :
  Forall keyed l ->
  let kept := kept_records d (NestedServer.st_projects (synced d l)) in
  synced d kept
  = NestedServer.SyncState kept
      (NestedServer.new_Map ((fun p => (slug_key p, p)) <$> kept)) [].
Proof.
  intros Hl kept. unfold synced at 1. apply loop_known.
  intros f Hf; simpl. apply new_Map_keys.
  rewrite <- list_fmap_compose. apply (synced_covers d l f Hl Hf).
Qed.

(** ** Reconciling twice *)

(** C3. When a reconcile has been answered, the next one, run on the
    state the first left (the directory and the index untouched in
    between), is answered too, adds nothing ([added = []]), removes
    nothing ([removed = 0]) and leaves the index as it is. *)
Theorem reconcile_twice fs fs1 st b :
  NestedServer.sync fs = (fs1, Responded st b) ->
  NestedServer.sync fs1 = (fs1, sync_answer (records (index fs1)) [] 0).
Proof.
  intros H. pose proof (sync_responded _ _ _ _ H) as Hnn.
  rewrite (sync_total fs Hnn) in H. injection H as <- _ _.
  set (kept := kept_records (files fs) _).
  assert (Hk : Forall keyed kept).
  { apply Forall_forall. intros p Hp.
    apply list_elem_of_filter in Hp as [_ Hp].
    destruct (synced_inv (files fs) _ Hnn) as [_ Hall].
    rewrite Forall_forall in Hall. apply Hall, Hp. }
  pose proof (sync_total (MkFS (images fs) (files fs) (Parsed (JArr kept))) Hk) as H2.
  pose proof (synced_again (files fs) _ Hnn) as Hs.
  cbn zeta in H2, Hs. cbn [images files index records] in H2. fold kept in Hs.
  rewrite Hs in H2. cbn [NestedServer.st_projects NestedServer.st_added] in H2.
  assert (Hi : kept_records (files fs) kept = kept) by apply kept_records_idem.
  rewrite Hi, Nat.sub_diag in H2. exact H2.
Qed.

Lemma reconcile_twice_witness :
  NestedServer.sync (NestedServer.sync Samples.stale_fs).1
  = ((NestedServer.sync Samples.stale_fs).1,
     sync_answer
       [Samples.record "B"; NestedServer.scraped_entry "orphan" Samples.orphan_page] [] 0).
Proof.
  refine (reconcile_twice Samples.stale_fs _ 200 _ _).
  vm_compute; reflexivity.
Defined.

(** ** Slugs stay unique *)

Lemma put_keys slug meta idx (l : list json) :
  slug <> "" ->
  findIndex (ServerEditor.same_slug slug) l = Ok idx ->
  slug_key <$> ServerEditor.put idx (ServerEditor.make_entry slug meta) l
  = match idx with
    | Some _ => slug_key <$> l
    | None => ((slug_key <$> l) ++ [Str.toLowerCase slug])%list
    end
  /\ (idx = None -> Str.toLowerCase slug ∉ slug_key <$> l).
Proof.
  intros Hne Hi. destruct idx as [i|]; simpl.
  - split; [|discriminate].
    destruct (findIndex_Some _ _ _ Hi) as (x & Hx & Px & _).
    apply same_slug_key in Px. symmetry in Px. apply bool_decide_eq_true in Px.
    rewrite list_fmap_insert, slug_key_entry by auto.
    apply list_insert_id. rewrite list_lookup_fmap, Hx; simpl. congruence.
  - rewrite fmap_app; simpl. rewrite slug_key_entry by auto. split; [reflexivity|].
    intros _ Hin. apply list_elem_of_fmap in Hin as (x & Hkey & Hx).
    apply findIndex_None in Hi. rewrite Forall_forall in Hi.
    pose proof (same_slug_key _ _ _ (Hi x Hx)) as Hb.
    symmetry in Hb. apply bool_decide_eq_false in Hb. auto.
Qed.

Lemma save_unique fs body :
  unique_slugs (records (index fs)) ->
  unique_slugs (records (index (ServerEditor.save fs body).1)).
Proof.
  intros Hu. destruct (ServerEditor.save fs body) as [fs' o] eqn:E; simpl.
  destruct o as [st b| |].
  - destruct (save_responded _ _ _ _ _ E) as [(_ & -> & _)|H]; [exact Hu|].
    destruct H as (slug & text & idx & Hs & Hne & Ht & Hw & Hi & _).
    rewrite (save_ok _ _ _ _ _ Hs Hne Ht Hw Hi) in E. injection E as <- _.
    unfold unique_slugs; simpl.
    destruct (put_keys slug (or_else (prop body "meta") (JObj [])) idx _ Hne Hi)
      as [-> Hfresh].
    destruct idx; [exact Hu|].
    apply NoDup_app; split; [exact Hu|]. split; [|apply NoDup_singleton].
    intros k Hk Hk'. apply list_elem_of_singleton in Hk'; subst k.
    apply (Hfresh eq_refl Hk).
  - rewrite (save_index_kept _ _ _ _ E); [exact Hu | discriminate].
  - rewrite (save_index_kept _ _ _ _ E); [exact Hu | discriminate].
Qed.

Lemma kept_unique d (l : list json) :
  NoDup (slug_key <$> l) -> NoDup (slug_key <$> kept_records d l).
Proof.
  unfold kept_records. induction l as [|p l IH]; simpl; [auto|].
  intros Hnd. apply NoDup_cons in Hnd as [Hp Hl].
  rewrite filter_cons. destruct (decide _); [|auto].
  simpl. apply NoDup_cons; split; [|auto].
  intros Hin. apply Hp. apply list_elem_of_fmap in Hin as (q & Hq & Hin).
  apply list_elem_of_filter in Hin as [_ Hin].
  apply list_elem_of_fmap; eauto.
Qed.

Lemma sync_unique fs :
  unique_slugs (records (index fs)) ->
  unique_slugs (records (index (NestedServer.sync fs).1)).
Proof.
  intros Hu. destruct (NestedServer.sync fs) as [fs' o] eqn:E; simpl.
  destruct o as [st b|e|].
  - pose proof (sync_responded _ _ _ _ E) as Hnn.
    rewrite (sync_total fs Hnn) in E. injection E as <- _.
    unfold unique_slugs; simpl.
    apply kept_unique.
    apply loop_unique; [apply loop_inv_init, Hnn | exact Hu].
  - revert E. unfold NestedServer.sync.
    destruct (mapM _ _) as [pairs|e']; [|intros [= <- _]; exact Hu].
    destruct (NestedServer.filterM _ _); intros [= <- ?]; try discriminate; exact Hu.
  - revert E. unfold NestedServer.sync.
    destruct (mapM _ _) as [pairs|e']; [|discriminate].
    destruct (NestedServer.filterM _ _); discriminate.
Qed.

(** C2, as stated, fails: an index that holds two records of one slug
    keeps both through a save of another slug, through a save of that
    very slug, and through a reconcile. *)
Lemma duplicates_survive :
  records (index (ServerEditor.save Samples.twice_fs (Samples.record "b")).1)
  = [Samples.record "a"; Samples.record "A";
     ServerEditor.make_entry "b" (JObj [])]
  /\ (ServerEditor.save Samples.twice_fs (Samples.record "b")).2
     = Responded 200 (JObj [("path", JStr "projects/b.html")])
  /\ slug_key <$> records (index (ServerEditor.save Samples.twice_fs (Samples.record "a")).1)
     = ["a"; "a"]
  /\ slug_key <$> records (index (NestedServer.sync Samples.twice_fs).1) = ["a"; "a"]
  /\ (NestedServer.sync Samples.twice_fs).2
     = sync_answer [Samples.record "a"; Samples.record "A"] [] 0
  /\ slug_key (Samples.record "a") = slug_key (Samples.record "A").
Proof. vm_compute. repeat split. Qed.

(** C2, amended. Starting from an index in which no two records share a
    slug up to case (an index that is absent, unreadable or not an array
    among them), the index a save or a reconcile leaves behind has no two
    such records either, whatever the request and however the operation
    ends. *)
Theorem slugs_stay_unique fs body :
  unique_slugs (records (index fs)) ->
  unique_slugs (records (index (ServerEditor.save fs body).1)) /\
  unique_slugs (records (index (NestedServer.save fs body).1)) /\
  unique_slugs (records (index (NestedServer.sync fs).1)).
Proof.
  intros Hu. split; [|split].
  - apply save_unique, Hu.
  - rewrite nested_save; simpl. apply save_unique, Hu.
  - apply sync_unique, Hu.
Qed.

Lemma slugs_stay_unique_witness :
  unique_slugs (records (index (ServerEditor.save Samples.stale_fs Samples.demo_request).1)) /\
  unique_slugs (records (index (NestedServer.save Samples.stale_fs Samples.demo_request).1)) /\
  unique_slugs (records (index (NestedServer.sync Samples.stale_fs).1)).
Proof.
  apply (slugs_stay_unique Samples.stale_fs Samples.demo_request).
  unfold unique_slugs. vm_compute.
  repeat constructor; rewrite ?elem_of_cons, ?elem_of_nil; intros H;
    repeat destruct H as [H|H]; try discriminate; try contradiction.
Defined.

(** ** Saving the same slug twice *)

Lemma findIndex_split pred (l : list json) idx e :
  findIndex pred l = Ok idx ->
  exists pre post,
    Forall (fun x => pred x = Ok false) pre /\
    ServerEditor.put idx e l = pre ++ e :: post /\
    default (length l) idx = length pre /\
    match idx with
    | Some _ => exists x, pred x = Ok true /\ l = pre ++ x :: post
    | None => l = pre /\ post = []
    end.
Proof.
  revert idx; induction l as [|a l IH]; intros idx; simpl.
  - intros [= <-]. exists [], []; simpl; auto.
  - destruct (pred a) as [[|]|err] eqn:Pa; simpl; [| |discriminate].
    + intros [= <-]. exists [], l; simpl. repeat split; eauto.
    + destruct (findIndex pred l) as [k|err] eqn:F; simpl; [|discriminate].
      intros [= <-]. destruct (IH k eq_refl) as (pre & post & Hpre & Hput & Hlen & Hk).
      exists (a :: pre), post. split; [constructor; auto|].
      destruct k as [i|]; simpl in *.
      * rewrite Hput. repeat split; auto.
        destruct Hk as (x & Hx & ->). eauto.
      * rewrite Hput. destruct Hk as [-> ->]. repeat split; auto.
Qed.

Lemma findIndex_found pred (pre post : list json) e :
  Forall (fun x => pred x = Ok false) pre -> pred e = Ok true ->
  findIndex pred (pre ++ e :: post) = Ok (Some (length pre)).
Proof.
  intros Hpre He; induction Hpre as [|a pre Ha _ IH]; simpl.
  - rewrite He; reflexivity.
  - rewrite Ha; simpl. rewrite IH; reflexivity.
Qed.

Lemma same_slug_lower s1 s2 p :
  Str.toLowerCase s1 = Str.toLowerCase s2 ->
  ServerEditor.same_slug s1 p = ServerEditor.same_slug s2 p.
Proof. intros E; unfold ServerEditor.same_slug; rewrite E; reflexivity. Qed.

Lemma same_slug_entry slug meta :
  slug <> "" ->
  ServerEditor.same_slug slug (ServerEditor.make_entry slug meta) = Ok true.
Proof.
  intros Hne; unfold ServerEditor.same_slug; simpl.
  destruct (String.eqb_spec slug ""); [contradiction|]. simpl.
  rewrite String.eqb_refl; reflexivity.
Qed.

Lemma matching_none slug (l : list json) :
  Forall (fun x => ServerEditor.same_slug slug x = Ok false) l ->
  matching slug l = [].
Proof.
  unfold matching. induction 1 as [|a l Ha _ IH]; [reflexivity|].
  rewrite filter_cons_False; [exact IH|].
  apply same_slug_key in Ha. symmetry in Ha. apply bool_decide_eq_false in Ha. exact Ha.
Qed.

Lemma matching_app slug (l k : list json) :
  matching slug (l ++ k) = matching slug l ++ matching slug k.
Proof. apply filter_app. Qed.

Lemma lower_empty s : Str.toLowerCase s = "" <-> s = "".
Proof. apply str_map_empty. Qed.

(** C1, as stated, fails: when the index already holds the slug twice,
    saving it twice leaves two records of that slug. *)
Lemma upsert_twice_keeps_duplicate :
  ServerEditor.save Samples.twice_fs (Samples.record "a")
  = (MkFS [] [("a.html", Some "")]
       (Parsed (JArr [ServerEditor.make_entry "a" (JObj []); Samples.record "A"])),
     Responded 200 (JObj [("path", JStr "projects/a.html")]))
  /\ ServerEditor.save
       (MkFS [] [("a.html", Some "")]
          (Parsed (JArr [ServerEditor.make_entry "a" (JObj []); Samples.record "A"])))
       (Samples.record "A")
     = (MkFS [] [("a.html", Some ""); ("A.html", Some "")]
          (Parsed (JArr [ServerEditor.make_entry "A" (JObj []); Samples.record "A"])),
        Responded 200 (JObj [("path", JStr "projects/A.html")]))
  /\ matching "a" [ServerEditor.make_entry "A" (JObj []); Samples.record "A"]
     = [ServerEditor.make_entry "A" (JObj []); Samples.record "A"].
Proof. vm_compute. repeat split. Qed.

(** C1, amended. Let the index hold records only, at most one of them
    with the slug up to case, and let the directory take the pages of
    both calls. Two saves of that slug, the second perhaps in another
    case, both succeed, in either server. The index was [pre], the
    record of that slug, [post], or [pre] alone without such a record;
    the first save leaves [pre], its record, [post], and the second
    [pre], its own record, [post]: the record of the second call stands
    where the first call's stood, which is where the old record stood or
    the end of the list, nothing else has moved or changed, and it is
    the only record of that slug. *)
Theorem upsert_twice fs b1 b2 s1 s2 t1 t2 :
  ServerEditor.slug_of b1 = Ok s1 -> s1 <> "" ->
  ServerEditor.slug_of b2 = Ok s2 ->
  Str.toLowerCase s1 = Str.toLowerCase s2 ->
  html_text b1 = Some t1 -> html_text b2 = Some t2 ->
  can_write (s1 +:+ ".html") (files fs) ->
  can_write (s2 +:+ ".html") (files fs) ->
  Forall (fun p => is_record p = true) (records (index fs)) ->
  length (matching s1 (records (index fs))) <= 1 ->
  let e1 := ServerEditor.make_entry s1 (or_else (prop b1 "meta") (JObj [])) in
  let e2 := ServerEditor.make_entry s2 (or_else (prop b2 "meta") (JObj [])) in
  exists fs1 fs2 pre post,
    ServerEditor.save fs b1
    = (fs1, Responded 200 (JObj [("path", JStr ("projects/" +:+ s1 +:+ ".html"))])) /\
    ServerEditor.save fs1 b2
    = (fs2, Responded 200 (JObj [("path", JStr ("projects/" +:+ s2 +:+ ".html"))])) /\
    NestedServer.save fs b1
    = (fs1, Responded 200
              (JObj [("path", JStr ("TemplateEdit/projects/" +:+ s1 +:+ ".html"))])) /\
    NestedServer.save fs1 b2
    = (fs2, Responded 200
              (JObj [("path", JStr ("TemplateEdit/projects/" +:+ s2 +:+ ".html"))])) /\
    ((exists old, records (index fs) = pre ++ old :: post /\
                  slug_key old = Str.toLowerCase s1) \/
     (records (index fs) = pre /\ post = [])) /\
    matching s1 pre = [] /\ matching s1 post = [] /\
    records (index fs1) = pre ++ e1 :: post /\
    records (index fs2) = pre ++ e2 :: post /\
    matching s2 (records (index fs2)) = [e2].
Proof.
  intros Hs1 Hne1 Hs2 Hlow Ht1 Ht2 Hw1 Hw2 Hrec Hone e1 e2.
  apply writable_spelled in Hw1, Hw2.
  assert (Hne2 : s2 <> "").
  { intros ->. apply Hne1, lower_empty. rewrite Hlow; reflexivity. }
  destruct (records_total s1 _ Hrec) as [idx Hidx].
  pose proof (save_ok fs b1 s1 t1 idx Hs1 Hne1 Ht1 Hw1 Hidx) as Hsave1.
  destruct (findIndex_split _ _ _ e1 Hidx) as (pre & post & Hpre & Hput & Hlen & Hcase).
  fold e1 in Hsave1. rewrite Hput in Hsave1.
  set (fs1 := MkFS (images fs) (write (s1 +:+ ".html") t1 (files fs))
                (Parsed (JArr (pre ++ e1 :: post)))) in *.
  assert (Hpre2 : Forall (fun x => ServerEditor.same_slug s2 x = Ok false) pre).
  { eapply Forall_impl; [exact Hpre|]. intros x Hx.
    rewrite <- (same_slug_lower s1 s2 x Hlow); exact Hx. }
  assert (Hidx2 : findIndex (ServerEditor.same_slug s2) (records (index fs1))
                  = Ok (Some (length pre))).
  { simpl. apply findIndex_found; [exact Hpre2|].
    rewrite <- (same_slug_lower s1 s2 _ Hlow). apply same_slug_entry, Hne1. }
  assert (Hw2' : writable (s2 +:+ ".html") (files fs1) = true).
  { apply writable_write, Hw2. }
  pose proof (save_ok fs1 b2 s2 t2 _ Hs2 Hne2 Ht2 Hw2' Hidx2) as Hsave2.
  fold e2 in Hsave2.
  assert (Hpost : matching s1 post = []).
  { destruct idx as [i|].
    - destruct Hcase as (x & Hx & Hl). rewrite Hl in Hone.
      rewrite matching_app, (matching_none _ _ Hpre) in Hone. simpl in Hone.
      unfold matching in Hone. rewrite filter_cons_True in Hone.
      + simpl in Hone. fold (matching s1 post) in Hone.
        destruct (matching s1 post); [reflexivity | simpl in Hone; lia].
      + apply same_slug_key in Hx. symmetry in Hx.
        apply bool_decide_eq_true in Hx. exact Hx.
    - destruct Hcase as [_ ->]. reflexivity. }
  eexists fs1, _, pre, post.
  split; [exact Hsave1|]. split; [exact Hsave2|].
  split; [apply (nested_save_stored _ _ _ _ Hsave1)|].
  split; [apply (nested_save_stored _ _ _ _ Hsave2)|].
  split.
  { destruct idx as [i|].
    - destruct Hcase as (x & Hx & Hl). left; exists x; split; [exact Hl|].
      apply same_slug_key in Hx. symmetry in Hx.
      apply bool_decide_eq_true in Hx. exact Hx.
    - right; exact Hcase. }
  split; [apply matching_none, Hpre|]. split; [exact Hpost|].
  cbn [index records ServerEditor.put fs1]. split; [reflexivity|]. split.
  - rewrite insert_app_r_alt, Nat.sub_diag by lia. reflexivity.
  - rewrite insert_app_r_alt, Nat.sub_diag by lia. simpl.
    rewrite matching_app. rewrite (matching_none s2 pre Hpre2). simpl.
    unfold matching. rewrite filter_cons_True by (apply slug_key_entry, Hne2).
    f_equal. fold (matching s2 post).
    unfold matching in *. rewrite <- Hlow. exact Hpost.
Qed.

Lemma upsert_twice_witness :
  exists fs1 fs2 pre post,
    ServerEditor.save Samples.demo_fs Samples.demo_request
    = (fs1, Responded 200 (JObj [("path", JStr "projects/demo.html")])) /\
    ServerEditor.save fs1 (Samples.record "DEMO")
    = (fs2, Responded 200 (JObj [("path", JStr "projects/DEMO.html")])) /\
    NestedServer.save Samples.demo_fs Samples.demo_request
    = (fs1, Responded 200 (JObj [("path", JStr "TemplateEdit/projects/demo.html")])) /\
    NestedServer.save fs1 (Samples.record "DEMO")
    = (fs2, Responded 200 (JObj [("path", JStr "TemplateEdit/projects/DEMO.html")])) /\
    ((exists old, records (index Samples.demo_fs) = pre ++ old :: post /\
                  slug_key old = Str.toLowerCase "demo") \/
     (records (index Samples.demo_fs) = pre /\ post = [])) /\
    matching "demo" pre = [] /\ matching "demo" post = [] /\
    records (index fs1)
    = pre ++ ServerEditor.make_entry "demo" Samples.demo_meta :: post /\
    records (index fs2) = pre ++ ServerEditor.make_entry "DEMO" (JObj []) :: post /\
    matching "DEMO" (records (index fs2)) = [ServerEditor.make_entry "DEMO" (JObj [])].
Proof.
  refine (upsert_twice Samples.demo_fs Samples.demo_request (Samples.record "DEMO")
            "demo" "DEMO" "" "" _ _ _ _ _ _ _ _ _ _).
  - reflexivity.
  - discriminate.
  - reflexivity.
  - reflexivity.
  - reflexivity.
  - reflexivity.
  - split; [simpl; lia | discriminate].
  - split; [simpl; lia | discriminate].
  - repeat constructor.
  - vm_compute. lia.
Defined.

(** ** An index that cannot be used *)


Lemma save_empty_index fs idx body :
  records idx = [] ->
  ServerEditor.save (with_index fs idx) body
  = match ServerEditor.slug_of body with
    | Throw e => (with_index fs idx, Unhandled e)
    | Ok slug =>
        if String.eqb slug ""
        then (with_index fs idx, Responded 400 (JObj [("error", JStr "Missing slug")]))
        else
          match html_text body with
          | None => (with_index fs idx, Unhandled TypeError)
          | Some text =>
              if writable (slug +:+ ".html") (files fs)
              then
                (MkFS (images fs) (write (slug +:+ ".html") text (files fs))
                   (Parsed (JArr [ServerEditor.make_entry slug
                                    (or_else (prop body "meta") (JObj []))])),
                 Responded 200 (JObj [("path", JStr ("projects/" +:+ slug +:+ ".html"))]))
              else (with_index fs idx, Unhandled SystemError)
          end
  end.
Proof.
  intros Hr. unfold ServerEditor.save.
  destruct (ServerEditor.slug_of body) as [slug|e]; [|reflexivity].
  destruct (String.eqb slug ""); [reflexivity|].
  unfold html_text, writeFileSync.
  destruct (or_else (prop body "html") (JStr "")); try reflexivity.
  cbn [index with_index images files].
  destruct (writable _ _); [|reflexivity].
  cbn [index with_index images files]. rewrite load_projects_records, Hr. reflexivity.
Qed.

Lemma save_as_on_empty fs request :
  records (index fs) = [] ->
  (ServerEditor.save fs request).2
  = (ServerEditor.save (with_index fs (Parsed (JArr []))) request).2.
Proof.
  intros Hr.
  assert (Hfs : fs = with_index fs (index fs)) by (destruct fs; reflexivity).
  rewrite Hfs at 1. rewrite (save_empty_index fs (index fs) request Hr).
  rewrite (save_empty_index fs (Parsed (JArr [])) request eq_refl).
  destruct (ServerEditor.slug_of request) as [s|e]; [|reflexivity].
  destruct (String.eqb s ""); [reflexivity|].
  destruct (html_text request); [|reflexivity].
  destruct (writable _ _); reflexivity.
Qed.

(** C8. When the index file is absent or cannot be parsed, a save
    reads it as the empty list, in both servers. Whatever the request,
    the save is answered as it would be with an index that is the empty
    array, so nothing of the fault reaches the caller. A request with a
    non-empty slug and a usable page, for which the directory takes the
    page, succeeds: the answer carries the stored path, the page is
    written, and the index written holds the new record and nothing
    else. And whenever a save on such an index has stored a project, the
    index it leaves holds that one record. *)
Theorem broken_index_recovered fs :
  index fs = Missing \/ index fs = Malformed ->
  (forall request,
     (ServerEditor.save fs request).2
     = (ServerEditor.save (with_index fs (Parsed (JArr []))) request).2 /\
     (NestedServer.save fs request).2
     = (NestedServer.save (with_index fs (Parsed (JArr []))) request).2) /\
  (forall body slug text,
     ServerEditor.slug_of body = Ok slug -> slug <> "" ->
     html_text body = Some text ->
     can_write (slug +:+ ".html") (files fs) ->
     let entry := ServerEditor.make_entry slug (or_else (prop body "meta") (JObj [])) in
     let fs' := MkFS (images fs) (write (slug +:+ ".html") text (files fs))
                  (Parsed (JArr [entry])) in
     ServerEditor.save fs body
     = (fs', Responded 200 (JObj [("path", JStr ("projects/" +:+ slug +:+ ".html"))])) /\
     NestedServer.save fs body
     = (fs', Responded 200
               (JObj [("path", JStr ("TemplateEdit/projects/" +:+ slug +:+ ".html"))]))) /\
  (forall request fs1 b,
     ServerEditor.save fs request = (fs1, Responded 200 b) \/
     NestedServer.save fs request = (fs1, Responded 200 b) ->
     exists slug, ServerEditor.slug_of request = Ok slug /\
       records (index fs1)
       = [ServerEditor.make_entry slug (or_else (prop request "meta") (JObj []))]).
Proof.
  intros Hidx.
  assert (Hr : records (index fs) = []) by (destruct Hidx as [-> | ->]; reflexivity).
  split; [|split].
  - intros request. pose proof (save_as_on_empty fs request Hr) as Hsame.
    split; [exact Hsame|]. rewrite !nested_save. cbn [snd]. rewrite Hsame. reflexivity.
  - intros body slug text Hs Hne Ht Hw entry fs'. apply writable_spelled in Hw.
    assert (Hl : findIndex (ServerEditor.same_slug slug) (records (index fs)) = Ok None).
    { rewrite Hr. reflexivity. }
    pose proof (save_ok fs body slug text None Hs Hne Ht Hw Hl) as Hsave.
    rewrite Hr in Hsave. simpl in Hsave.
    split; [exact Hsave|]. apply (nested_save_stored _ _ _ _ Hsave).
  - intros request fs1 b H.
    assert (exists b', ServerEditor.save fs request = (fs1, Responded 200 b')) as [b' H'].
    { destruct H as [H|H]; [eauto|]. apply nested_save_stored_inv in H; exact H. }
    clear H. pose proof H' as H.
    apply save_responded in H' as [(_ & _ & ? & _)|H']; [discriminate|].
    destruct H' as (s & tx & idx & Hs' & Hne' & Ht' & Hw' & Hi & _).
    rewrite (save_ok _ _ _ _ _ Hs' Hne' Ht' Hw' Hi) in H. injection H as <- _.
    exists s; split; [exact Hs'|]. cbn [index records].
    rewrite Hr in Hi |- *. injection Hi as <-. reflexivity.
Qed.

Lemma broken_index_recovered_witness :
  ServerEditor.save (MkFS [] [] Malformed) Samples.page_request
  = (MkFS [] [("My-Project-.html", Some "<p>x</p>")]
       (Parsed (JArr [ServerEditor.make_entry "My-Project-" (JObj [("title", JStr "T")])])),
     Responded 200 (JObj [("path", JStr "projects/My-Project-.html")])) /\
  NestedServer.save (MkFS [] [] Malformed) Samples.page_request
  = (MkFS [] [("My-Project-.html", Some "<p>x</p>")]
       (Parsed (JArr [ServerEditor.make_entry "My-Project-" (JObj [("title", JStr "T")])])),
     Responded 200 (JObj [("path", JStr "TemplateEdit/projects/My-Project-.html")])).
Proof.
  refine (proj1 (proj2 (broken_index_recovered (MkFS [] [] Malformed) _))
            Samples.page_request "My-Project-" "<p>x</p>" _ _ _ _).
  - right; reflexivity.
  - reflexivity.
  - discriminate.
  - reflexivity.
  - split; [simpl; lia | discriminate].
Defined.

Lemma loop_projects d files st p :
  p ∈ NestedServer.st_projects (foldl (NestedServer.sync_step d) st files) ->
  p ∈ NestedServer.st_projects st \/
  exists f, f ∈ files /\
    p = NestedServer.scraped_entry (basename_ext f ".html") (read_or_empty f d).
Proof.
  revert st; induction files as [|f files IH]; intros st; simpl; [auto|].
  intros H. apply IH in H as [H|(g & Hg & ->)].
  - unfold NestedServer.sync_step in H.
    destruct (NestedServer.st_bySlug st !! _); [auto|]. simpl in H.
    apply elem_of_app in H as [H|H]; [auto|].
    apply list_elem_of_singleton in H. right; exists f; split; [left|exact H].
  - right; exists g; split; [right; exact Hg | reflexivity].
Qed.




(** ** The two servers *)

Lemma nested_upload fs file : NestedServer.upload fs file = ServerEditor.upload fs file.
Proof. reflexivity. Qed.

(** C9, as stated, fails: the server that keeps the projects beside the
    editor has no reconcile route. On the same directory it leaves
    [GET /api/sync-projects] unanswered (Express sends 404) and the index
    as it was, where the other server reconciles and rewrites the index. *)
Lemma reconcile_route_differs :
  ServerEditor.handle Samples.stale_fs GetSync = (Samples.stale_fs, NotFound)
  /\ NestedServer.handle Samples.stale_fs GetSync
     = (with_index Samples.stale_fs
          (Parsed (JArr [Samples.record "B";
                         NestedServer.scraped_entry "orphan" Samples.orphan_page])),
        sync_answer
          [Samples.record "B"; NestedServer.scraped_entry "orphan" Samples.orphan_page]
          ["orphan"] 1)
  /\ index Samples.stale_fs
     <> Parsed (JArr [Samples.record "B";
                      NestedServer.scraped_entry "orphan" Samples.orphan_page]).
Proof. vm_compute. repeat split. discriminate. Qed.

(** C9, amended. For an upload and for a save the two servers do the
    same, whatever the request and however it ends: on the same
    directories they leave the same files and the same index, and they
    give the same answer, but for the stored path of a successful save,
    which the nested layout starts with [TemplateEdit/]. So a save that
    can go through (slug, page and lookup are fine and the directory
    takes the page) is answered 200 by both, with the two paths; one
    that is not answered 200 ends the same way in both. Reconcile exists
    in the nested-layout server only; the other one has no route for it
    and changes nothing. *)
Theorem servers_agree_on_upload_and_save fs :
  (forall file, NestedServer.handle fs (PostUpload file)
                = ServerEditor.handle fs (PostUpload file)) /\
  (forall body,
     NestedServer.handle fs (PostSave body)
     = ((ServerEditor.handle fs (PostSave body)).1,
        relocate (ServerEditor.handle fs (PostSave body)).2)) /\
  (forall body slug text idx,
     ServerEditor.slug_of body = Ok slug -> slug <> "" ->
     html_text body = Some text ->
     can_write (slug +:+ ".html") (files fs) ->
     findIndex (ServerEditor.same_slug slug) (records (index fs)) = Ok idx ->
     exists fs',
       ServerEditor.handle fs (PostSave body)
       = (fs', Responded 200 (JObj [("path", JStr ("projects/" +:+ slug +:+ ".html"))])) /\
       NestedServer.handle fs (PostSave body)
       = (fs', Responded 200
                 (JObj [("path", JStr ("TemplateEdit/projects/" +:+ slug +:+ ".html"))]))) /\
  (forall body,
     (forall b, (ServerEditor.handle fs (PostSave body)).2 <> Responded 200 b) ->
     NestedServer.handle fs (PostSave body) = ServerEditor.handle fs (PostSave body)) /\
  ServerEditor.handle fs GetSync = (fs, NotFound).
Proof.
  split; [intros file; reflexivity|].
  split; [intros body; apply nested_save|].
  split; [|split; [|reflexivity]].
  - intros body slug text idx Hs Hne Ht Hw Hi. simpl.
    apply writable_spelled in Hw.
    pose proof (save_ok fs body slug text idx Hs Hne Ht Hw Hi) as H.
    eexists; split; [exact H|]. apply (nested_save_stored _ _ _ _ H).
  - intros body Hb. simpl in *. rewrite nested_save.
    destruct (ServerEditor.save fs body) as [fs' o] eqn:E; simpl in *.
    destruct o as [st b| |]; try reflexivity.
    destruct (save_responded _ _ _ _ _ E) as [(_ & _ & -> & ->)|H]; [reflexivity|].
    destruct H as (? & ? & ? & _ & _ & _ & _ & _ & ->). exfalso; eapply Hb; reflexivity.
Qed.

Lemma servers_agree_on_upload_and_save_witness :
  exists fs',
    ServerEditor.handle Samples.demo_fs (PostSave Samples.page_request)
    = (fs', Responded 200 (JObj [("path", JStr "projects/My-Project-.html")])) /\
    NestedServer.handle Samples.demo_fs (PostSave Samples.page_request)
    = (fs', Responded 200 (JObj [("path", JStr "TemplateEdit/projects/My-Project-.html")])).
Proof.
  refine (proj1 (proj2 (proj2 (servers_agree_on_upload_and_save Samples.demo_fs)))
            Samples.page_request "My-Project-" "<p>x</p>" None _ _ _ _ _).
  - reflexivity.
  - discriminate.
  - reflexivity.
  - split; [simpl; lia | discriminate].
  - reflexivity.
Defined.

(** ** Scraping a page *)

Lemma scraped_title_settled slug html :
  extracted_title slug html = Some (JStr (settled_title slug html)).
Proof.
  unfold extracted_title, settled_title, NestedServer.scraped_entry,
    NestedServer.parseMetaFromHtml. simpl.
  destruct (match1 NestedServer.title_re html) as [t|]; simpl;
    destruct (match1 NestedServer.h1_re html) as [h|]; simpl.
  - destruct (String.eqb (Str.trim (remove_first NestedServer.owner_re t)) "") eqn:E;
      [reflexivity|]. rewrite E. reflexivity.
  - destruct (String.eqb (Str.trim (remove_first NestedServer.owner_re t)) "") eqn:E;
      [reflexivity|]. reflexivity.
  - reflexivity.
  - reflexivity.
Qed.

Lemma scraped_image_settled slug html :
  extracted_image slug html = Some (JStr (settled_image html)).
Proof.
  unfold extracted_image, settled_image, NestedServer.scraped_entry,
    NestedServer.parseMetaFromHtml. simpl.
  destruct (match1 NestedServer.img_re html); reflexivity.
Qed.

(** C4, as stated, fails: a title element that is empty once the owner
    suffix is stripped gives way to the h1 element, although a title
    matched; the text of the h1 element and the [src] of the image lose
    their surrounding white space; of an img tag with a [src] and a
    [data-src] the second is taken; and a first img element without a
    [src] gives way to a later one. *)
Lemma scraper_departs_from_wording :
  extracted_title "x" Samples.empty_title_page = Some (JStr "Real")
  /\ claimed_title "x" Samples.empty_title_page = ""
  /\ extracted_title "x" Samples.padded_h1_page = Some (JStr "Hello")
  /\ claimed_title "x" Samples.padded_h1_page = " Hello "
  /\ extracted_image "x" Samples.padded_img_page = Some (JStr "a.png")
  /\ claimed_image Samples.padded_img_page = " a.png "
  /\ extracted_image "x" Samples.two_src_page = Some (JStr "b.png")
  /\ claimed_image Samples.two_src_page = "a.png"
  /\ extracted_image "x" Samples.late_src_page = Some (JStr "y.png")
  /\ claimed_image Samples.late_src_page = "".
Proof. vm_compute. repeat split. Qed.

(** *** The matcher against the patterns' meaning *)

Lemma star_sound p inside r k :
  (forall cap s g rest, k cap s = Some (g, rest) -> accepts r inside cap s g rest) ->
  forall s cap g rest,
    star p inside k cap s = Some (g, rest) -> accepts (Star p :: r) inside cap s g rest.
Proof.
  intros Hk; induction s as [|c s IH]; intros cap g rest; simpl.
  - intros H; apply acc_star_stop, Hk, H.
  - destruct (p c) eqn:Pc; [|intros H; apply acc_star_stop, Hk, H].
    destruct (star p inside k (push inside cap c) s) as [[g' rest']|] eqn:S.
    + intros [= <- <-]. apply acc_star_more; [exact Pc | apply IH, S].
    + intros H; apply acc_star_stop, Hk, H.
Qed.

Lemma one_sound p inside k cap s g rest :
  one p inside k cap s = Some (g, rest) ->
  exists c s', s = String c s' /\ p c = true /\ k (push inside cap c) s' = Some (g, rest).
Proof.
  unfold one. destruct s as [|c s']; [discriminate|].
  destruct (p c) eqn:Pc; [|discriminate]. eauto.
Qed.

Lemma exec_sound r :
  forall inside cap s g rest,
    exec r inside cap s = Some (g, rest) -> accepts r inside cap s g rest.
Proof.
  induction r as [|it r IH]; intros inside cap s g rest; simpl.
  - intros [= <- <-]; constructor.
  - destruct it.
    + intros H. apply one_sound in H as (c & s' & -> & Pc & H).
      apply acc_lit; auto.
    + intros H. apply one_sound in H as (c & s' & -> & Pc & H).
      apply acc_class; auto.
    + apply star_sound. intros; apply IH; auto.
    + intros H. apply one_sound in H as (c & s' & -> & Pc & H).
      apply acc_plus; [exact Pc|].
      revert H. apply star_sound. intros; apply IH; auto.
    + intros H; apply acc_open, IH, H.
    + intros H; apply acc_close, IH, H.
    + destruct s; [|discriminate]. intros H; apply acc_end, IH, H.
Qed.

Lemma star_fallback p inside k cap s m :
  k cap s = Some m -> exists m', star p inside k cap s = Some m'.
Proof.
  intros H. destruct s as [|c s]; simpl; [eauto|].
  destruct (p c); [|eauto].
  destruct (star p inside k (push inside cap c) s); eauto.
Qed.

Lemma exec_complete r inside cap s g rest :
  accepts r inside cap s g rest -> exists m, exec r inside cap s = Some m.
Proof.
  induction 1 as [ inside cap s
                 | x r inside cap c s g rest Pc _ IH
                 | p r inside cap c s g rest Pc _ IH
                 | p r inside cap s g rest _ IH
                 | p r inside cap c s g rest Pc _ IH
                 | p r inside cap c s g rest Pc _ IH
                 | r inside cap s g rest _ IH
                 | r inside cap s g rest _ IH
                 | r inside cap g rest _ IH ]; simpl in *.
  - eauto.
  - unfold one. rewrite Pc. exact IH.
  - unfold one. rewrite Pc. exact IH.
  - destruct IH as [m IH]. eapply star_fallback; eauto.
  - rewrite Pc. destruct IH as [m ->]. eauto.
  - unfold one. rewrite Pc. exact IH.
  - exact IH.
  - exact IH.
  - exact IH.
Qed.

Lemma append_cons c (a b : string) : String c a +:+ b = String c (a +:+ b).
Proof. reflexivity. Qed.

Lemma append_empty_r s : s +:+ "" = s.
Proof. induction s as [|c s IH]; [reflexivity|]. rewrite append_cons, IH; reflexivity. Qed.

Lemma append_assoc (a b c : string) : (a +:+ b) +:+ c = a +:+ (b +:+ c).
Proof.
  induction a as [|x a IH]; [reflexivity|]. rewrite !append_cons, IH; reflexivity.
Qed.

Lemma append_length (a b : string) :
  String.length (a +:+ b) = String.length a + String.length b.
Proof.
  induction a as [|x a IH]; [reflexivity|]. rewrite append_cons; simpl; congruence.
Qed.

Lemma accepts_rest r inside cap s g rest :
  accepts r inside cap s g rest -> exists mid, s = mid +:+ rest.
Proof.
  induction 1; try (destruct IHaccepts as [mid ->]).
  - exists ""; reflexivity.
  - exists (String c mid); reflexivity.
  - exists (String c mid); reflexivity.
  - eauto.
  - exists (String c mid); reflexivity.
  - exists (String c mid); reflexivity.
  - eauto.
  - eauto.
  - eauto.
Qed.

Lemma search_sound r s m :
  search r s = Some m ->
  exists mid,
    s = before m +:+ mid +:+ after m /\
    accepts r false "" (mid +:+ after m) (group1 m) (after m).
Proof.
  revert m; induction s as [|c s IH]; intros m; simpl.
  - destruct (exec r false "" "") as [[g rest]|] eqn:E; [|discriminate].
    intros [= <-]; simpl. apply exec_sound in E.
    destruct (accepts_rest _ _ _ _ _ _ E) as [mid Hmid].
    exists mid; split; [exact Hmid|]. rewrite <- Hmid; exact E.
  - destruct (exec r false "" (String c s)) as [[g rest]|] eqn:E.
    + intros [= <-]; simpl. apply exec_sound in E.
      destruct (accepts_rest _ _ _ _ _ _ E) as [mid Hmid].
      exists mid; split; [exact Hmid|]. rewrite <- Hmid; exact E.
    + destruct (search r s) as [m'|]; [|discriminate].
      intros [= <-]; simpl. destruct (IH m' eq_refl) as (mid & Hs & Ha).
      exists mid; split; [rewrite append_cons; congruence | exact Ha].
Qed.

Lemma search_leftmost r s m :
  search r s = Some m ->
  forall pre' s', s = pre' +:+ s' -> String.length pre' < String.length (before m) ->
    forall g rest, ~ accepts r false "" s' g rest.
Proof.
  revert m; induction s as [|c s IH]; intros m; simpl.
  - destruct (exec r false "" "") as [[g rest]|]; [|discriminate].
    intros [= <-]; simpl. intros; lia.
  - destruct (exec r false "" (String c s)) as [[g rest]|] eqn:E.
    + intros [= <-]; simpl. intros; lia.
    + destruct (search r s) as [m'|] eqn:S; [|discriminate].
      intros [= <-]; simpl. intros pre' s' Hs Hlen g rest Ha.
      destruct pre' as [|c' pre'].
      * change (String c s = s') in Hs. subst s'.
        apply exec_complete in Ha as [m Hm]. congruence.
      * rewrite append_cons in Hs. injection Hs as -> ->. simpl in Hlen.
        eapply (IH m' eq_refl pre' s' eq_refl); [lia | exact Ha].
Qed.

Lemma search_none r s :
  search r s = None ->
  forall pre' s', s = pre' +:+ s' -> forall g rest, ~ accepts r false "" s' g rest.
Proof.
  induction s as [|c s IH]; simpl.
  - destruct (exec r false "" "") as [[g rest]|] eqn:E; [discriminate|].
    intros _ pre' s' Hs g rest Ha.
    destruct pre'; [|discriminate]. change ("" = s') in Hs; subst s'.
    apply exec_complete in Ha as [m Hm]. congruence.
  - destruct (exec r false "" (String c s)) as [[g rest]|] eqn:E; [discriminate|].
    destruct (search r s) as [m'|] eqn:S; [discriminate|].
    intros _ pre' s' Hs g rest Ha.
    destruct pre' as [|c' pre'].
    + change (String c s = s') in Hs. subst s'.
      apply exec_complete in Ha as [m Hm]. congruence.
    + rewrite append_cons in Hs. injection Hs as -> ->.
      eapply (IH eq_refl pre' s' eq_refl); exact Ha.
Qed.

(** *** The shape of what the patterns of the scraper match *)

Lemma pushes_empty inside cap : pushes inside cap "" = cap.
Proof. destruct inside; simpl; [apply append_empty_r | reflexivity]. Qed.

Lemma pushes_push inside cap c mid :
  pushes inside (push inside cap c) mid = pushes inside cap (String c mid).
Proof.
  destruct inside; simpl; [|reflexivity]. rewrite append_assoc; reflexivity.
Qed.

Lemma lits_cons x a : lits (String x a) = Lit x :: lits a.
Proof. reflexivity. Qed.

Lemma accepts_lits_inv a r inside :
  forall cap s g rest,
    accepts (lits a ++ r) inside cap s g rest ->
    exists tag s', s = tag +:+ s' /\ ci_eq a tag = true /\
      accepts r inside (pushes inside cap tag) s' g rest.
Proof.
  induction a as [|x a IH]; intros cap s g rest H.
  - exists "", s. rewrite pushes_empty. auto.
  - rewrite lits_cons in H. simpl in H.
    inversion H as [| ? ? ? ? c s0 ? ? Hc H0 | | | | | | |]; subst.
    destruct (IH _ _ _ _ H0) as (tag & s' & -> & Hci & Ha).
    exists (String c tag), s'. rewrite <- pushes_push.
    repeat split; auto. simpl. rewrite Hc, Hci. reflexivity.
Qed.

Lemma accepts_lits_intro a r inside :
  forall tag cap s' g rest,
    ci_eq a tag = true ->
    accepts r inside (pushes inside cap tag) s' g rest ->
    accepts (lits a ++ r) inside cap (tag +:+ s') g rest.
Proof.
  induction a as [|x a IH]; intros tag cap s' g rest Hci Ha.
  - destruct tag; [|discriminate]. rewrite pushes_empty in Ha. exact Ha.
  - destruct tag as [|c tag]; [discriminate|]. simpl in Hci.
    apply andb_true_iff in Hci as [Hc Hci].
    rewrite lits_cons, append_cons. simpl. apply acc_lit; [exact Hc|].
    apply IH; [exact Hci|]. rewrite pushes_push. exact Ha.
Qed.

Lemma accepts_star_inv p r inside cap s g rest :
  accepts (Star p :: r) inside cap s g rest ->
  exists mid s', s = mid +:+ s' /\ all_chars p mid = true /\
    accepts r inside (pushes inside cap mid) s' g rest.
Proof.
  remember (Star p :: r) as R eqn:HR. intros H.
  induction H; try discriminate; injection HR as -> ->.
  - exists "", s. rewrite pushes_empty. auto.
  - destruct (IHaccepts eq_refl) as (mid & s' & -> & Hall & Ha).
    exists (String c mid), s'. rewrite <- pushes_push.
    repeat split; auto. simpl. rewrite H, Hall. reflexivity.
Qed.

Lemma accepts_star_intro p r inside :
  forall mid cap s' g rest,
    all_chars p mid = true ->
    accepts r inside (pushes inside cap mid) s' g rest ->
    accepts (Star p :: r) inside cap (mid +:+ s') g rest.
Proof.
  induction mid as [|c mid IH]; intros cap s' g rest Hall Ha.
  - rewrite pushes_empty in Ha. apply acc_star_stop, Ha.
  - simpl in Hall. apply andb_true_iff in Hall as [Hc Hall].
    rewrite append_cons. apply acc_star_more; [exact Hc|].
    apply IH; [exact Hall|]. rewrite pushes_push. exact Ha.
Qed.

Lemma ci_char_gt c : ci_char ">" c = true <-> c = ">"%char.
Proof.
  split; [|intros ->; reflexivity].
  destruct c as [[] [] [] [] [] [] [] []]; vm_compute; congruence.
Qed.

(** The pattern of an element: [<name[^>]*>([^<]+)</name>], flag [i]. *)
Lemma element_pattern name s text rest :
  accepts (lits ("<" +:+ name)
           ++ [Star (NestedServer.no ">"); Lit ">"; Open;
               Plus (NestedServer.no "<"); Close]
           ++ lits ("</" +:+ name +:+ ">"))
    false "" s text rest
  <-> element_at name s text rest.
Proof.
  split.
  - intros H.
    apply accepts_lits_inv in H as (tag & s1 & -> & Htag & H). simpl in H.
    apply accepts_star_inv in H as (attrs & s2 & -> & Hattrs & H). simpl in H.
    inversion H as [| ? ? ? ? c s3 ? ? Hc H3 | | | | | | |]; subst.
    apply ci_char_gt in Hc; subst c.
    inversion H3 as [| | | | | | ? ? ? ? ? ? H4 | |]; subst.
    inversion H4 as [| | | | | ? ? ? ? c s4 ? ? Hc H5 | | |]; subst.
    apply accepts_star_inv in H5 as (mid & s5 & -> & Hmid & H5). simpl in H5.
    inversion H5 as [| | | | | | | ? ? ? ? ? ? H6 |]; subst.
    rewrite <- (app_nil_r (lits _)) in H6.
    apply accepts_lits_inv in H6 as (close & s6 & -> & Hclose & H6). simpl in H6.
    inversion H6; subst.
    change (("" +:+ String c "") +:+ mid) with (String c mid) in *.
    exists tag, attrs, close.
    repeat split; auto; try discriminate.
    simpl. rewrite Hc, Hmid. reflexivity.
  - intros (tag & attrs & close & -> & Htag & Hattrs & Hne & Htext & Hclose).
    apply accepts_lits_intro; [exact Htag|]. simpl.
    apply accepts_star_intro; [exact Hattrs|]. simpl.
    change (">" +:+ text +:+ close +:+ rest) with (String ">" (text +:+ close +:+ rest)).
    apply acc_lit; [reflexivity|]. simpl. apply acc_open.
    destruct text as [|c text]; [contradiction|]. simpl in Htext.
    apply andb_true_iff in Htext as [Hc Htext].
    rewrite append_cons. apply acc_plus; [exact Hc|]. simpl.
    apply accepts_star_intro; [exact Htext|]. simpl. apply acc_close.
    rewrite <- (app_nil_r (lits _)).
    apply accepts_lits_intro; [exact Hclose|]. simpl. constructor.
Qed.

Lemma ci_eq_length a b : ci_eq a b = true -> String.length b = String.length a.
Proof.
  revert b; induction a as [|x a IH]; intros [|c b]; simpl; try discriminate; auto.
  intros H; apply andb_true_iff in H as [_ H]. f_equal; auto.
Qed.

Lemma append_inj_length (a a' b b' : string) :
  String.length a = String.length a' -> a +:+ b = a' +:+ b' -> a = a' /\ b = b'.
Proof.
  revert a'; induction a as [|c a IH]; intros [|c' a']; simpl; try discriminate.
  - intros _ H. split; [reflexivity | exact H].
  - intros [= Hl] H. rewrite !append_cons in H. injection H as <- H.
    destruct (IH a' Hl H) as [<- <-]. auto.
Qed.

(** A text without characters of a class, followed by one of the class,
    is cut at one place only. *)
Lemma first_split_class (p : ascii -> bool) (a a' : string) x x' b b' :
  all_chars (fun c => negb (p c)) a = true ->
  all_chars (fun c => negb (p c)) a' = true ->
  p x = true -> p x' = true ->
  a +:+ String x b = a' +:+ String x' b' -> a = a' /\ x = x' /\ b = b'.
Proof.
  revert a'; induction a as [|c a IH]; intros [|c' a'] Ha Ha' Hx Hx' H.
  - change (String x b = String x' b') in H. injection H as <- <-. auto.
  - rewrite append_cons in H. change (String x b = String c' (a' +:+ String x' b')) in H.
    injection H as <- _. simpl in Ha'. apply andb_true_iff in Ha' as [Hc _].
    rewrite Hx in Hc. discriminate.
  - rewrite append_cons in H. change (String c (a +:+ String x b) = String x' b') in H.
    injection H as -> _. simpl in Ha. apply andb_true_iff in Ha as [Hc _].
    rewrite Hx' in Hc. discriminate.
  - rewrite !append_cons in H. injection H as <- H.
    simpl in Ha, Ha'. apply andb_true_iff in Ha as [_ Ha].
    apply andb_true_iff in Ha' as [_ Ha'].
    destruct (IH a' Ha Ha' Hx Hx' H) as (<- & <- & <-). auto.
Qed.

Lemma ci_char_lt c : ci_char "<" c = true <-> c = "<"%char.
Proof.
  split; [|intros ->; reflexivity].
  destruct c as [[] [] [] [] [] [] [] []]; vm_compute; congruence.
Qed.

(** An element at the start of a text has one text only. *)
Lemma element_at_unique name s text rest text' rest' :
  element_at name s text rest -> element_at name s text' rest' -> text = text'.
Proof.
  intros (tag & attrs & close & -> & Htag & Hattrs & Hne & Htext & Hclose)
         (tag' & attrs' & close' & Hs & Htag' & Hattrs' & Hne' & Htext' & Hclose').
  apply append_inj_length in Hs as [_ Hs].
  2:{ rewrite (ci_eq_length _ _ Htag), (ci_eq_length _ _ Htag'). reflexivity. }
  change (attrs +:+ String ">" (text +:+ close +:+ rest)
          = attrs' +:+ String ">" (text' +:+ close' +:+ rest')) in Hs.
  apply (first_split_class (is_char ">")) in Hs as (_ & _ & Hs); auto.
  destruct close as [|c close]; [discriminate|].
  destruct close' as [|c' close']; [discriminate|].
  simpl in Hclose, Hclose'.
  apply andb_true_iff in Hclose as [Hc _]. apply andb_true_iff in Hclose' as [Hc' _].
  apply ci_char_lt in Hc, Hc'. subst c c'.
  rewrite !append_cons in Hs.
  apply (first_split_class (is_char "<")) in Hs as (Ht & _ & _); auto.
Qed.

(** The end of the pattern of an image: [src=], a quote, the captured
    text, a quote. *)
Lemma src_pattern cap s src rest :
  accepts (lits "src="
           ++ [Class NestedServer.quote; Open;
               Plus (fun c => negb (NestedServer.quote c)); Close;
               Class NestedServer.quote])
    false cap s src rest
  <-> exists key q1 q2,
        s = key +:+ String q1 src +:+ String q2 rest /\
        ci_eq "src=" key = true /\
        NestedServer.quote q1 = true /\ NestedServer.quote q2 = true /\
        src <> "" /\ all_chars (fun c => negb (NestedServer.quote c)) src = true.
Proof.
  split.
  - intros H2.
    apply accepts_lits_inv in H2 as (key & s4 & -> & Hkey & H2). simpl in H2.
    inversion H2 as [| | ? ? ? ? q1 s5 ? ? Hq1 H5 | | | | | |]; subst.
    inversion H5 as [| | | | | | ? ? ? ? ? ? H6 | |]; subst.
    inversion H6 as [| | | | | ? ? ? ? d s6 ? ? Hd H7 | | |]; subst.
    apply accepts_star_inv in H7 as (mid & s7 & -> & Hmid & H7). simpl in H7.
    inversion H7 as [| | | | | | | ? ? ? ? ? ? H8 |]; subst.
    inversion H8 as [| | ? ? ? ? q2 s8 ? ? Hq2 H9 | | | | | |]; subst.
    inversion H9; subst.
    change (("" +:+ String d "") +:+ mid) with (String d mid) in *.
    exists key, q1, q2.
    rewrite !append_cons. repeat split; auto; try discriminate.
    simpl. rewrite Hd, Hmid. reflexivity.
  - intros (key & q1 & q2 & -> & Hkey & Hq1 & Hq2 & Hsrc & Hall).
    apply accepts_lits_intro; [exact Hkey|]. simpl.
    rewrite append_cons. apply acc_class; [exact Hq1|]. simpl. apply acc_open.
    destruct src as [|d src]; [contradiction|]. simpl in Hall.
    apply andb_true_iff in Hall as [Hd Hall].
    rewrite append_cons. apply acc_plus; [exact Hd|]. simpl.
    apply accepts_star_intro; [exact Hall|]. simpl. apply acc_close.
    apply acc_class; [exact Hq2|]. simpl. constructor.
Qed.

(** The pattern of an image, the order of the matcher's attempts apart *)
Lemma image_pattern s src rest :
  accepts NestedServer.img_re false "" s src rest
  <-> exists attrs, image_shape s attrs src rest.
Proof.
  unfold NestedServer.img_re. split.
  - intros H.
    apply accepts_lits_inv in H as (tag & s1 & -> & Htag & H).
    cbn [pushes app] in H.
    inversion H as [| | | | | ? ? ? ? c s2 ? ? Hc H2 | | |]; subst.
    apply accepts_star_inv in H2 as (attrs & s3 & -> & Hattrs & H2).
    cbn [pushes push] in H2.
    change (accepts
              (lits "src="
               ++ [Class NestedServer.quote; Open;
                   Plus (fun c => negb (NestedServer.quote c)); Close;
                   Class NestedServer.quote])
              false "" s3 src rest) in H2.
    apply src_pattern in H2 as (key & q1 & q2 & -> & Hkey & Hq1 & Hq2 & Hsrc & Hall).
    exists (String c attrs), tag, key, q1, q2.
    rewrite !append_cons. repeat split; auto; try discriminate.
    simpl. rewrite Hc, Hattrs. reflexivity.
  - intros (attrs & tag & key & q1 & q2 & -> & Htag & Hne & Hattrs & Hkey
            & Hq1 & Hq2 & Hsrc & Hall).
    apply accepts_lits_intro; [exact Htag|]. cbn [pushes app].
    destruct attrs as [|c attrs]; [contradiction|]. simpl in Hattrs.
    apply andb_true_iff in Hattrs as [Hc Hattrs].
    rewrite append_cons. apply acc_plus; [exact Hc|]. cbn [push].
    apply accepts_star_intro; [exact Hattrs|]. cbn [pushes].
    apply src_pattern. exists key, q1, q2. auto 10.
Qed.

(** *** The order of the matcher's attempts

    A greedy repetition hands over to the rest of the pattern after the
    longest run with which the rest matches. *)
Lemma star_none p inside k :
  forall s cap, star p inside k cap s = None ->
  forall mid s', s = mid +:+ s' -> all_chars p mid = true ->
    k (pushes inside cap mid) s' = None.
Proof.
  induction s as [|c s IH]; intros cap H mid s' Hs Hall.
  - destruct mid; [|discriminate]. change ("" = s') in Hs; subst s'.
    rewrite pushes_empty. exact H.
  - simpl in H. destruct mid as [|c' mid].
    + change (String c s = s') in Hs. subst s'. rewrite pushes_empty.
      destruct (p c); [|exact H].
      destruct (star p inside k (push inside cap c) s); [discriminate | exact H].
    + rewrite append_cons in Hs. injection Hs as -> ->.
      simpl in Hall. apply andb_true_iff in Hall as [Hc Hall]. rewrite Hc in H.
      destruct (star p inside k (push inside cap c') (mid +:+ s')) eqn:S; [discriminate|].
      rewrite <- pushes_push. apply (IH _ S mid s' eq_refl Hall).
Qed.

Lemma star_greedy p inside k :
  forall s cap m, star p inside k cap s = Some m ->
  exists mid s',
    s = mid +:+ s' /\ all_chars p mid = true /\
    k (pushes inside cap mid) s' = Some m /\
    forall mid2 s2, s = mid2 +:+ s2 -> all_chars p mid2 = true ->
      String.length mid < String.length mid2 ->
      k (pushes inside cap mid2) s2 = None.
Proof.
  induction s as [|c s IH]; intros cap m H.
  - exists "", "". rewrite pushes_empty. repeat split; auto.
    intros mid2 s2 Hs _ Hlen. destruct mid2; [simpl in Hlen; lia | discriminate].
  - simpl in H. destruct (p c) eqn:Pc.
    + destruct (star p inside k (push inside cap c) s) as [m'|] eqn:S.
      * injection H as <-. destruct (IH _ _ S) as (mid & s' & -> & Hall & Hk & Hmax).
        exists (String c mid), s'. rewrite <- pushes_push.
        split; [reflexivity|]. split; [simpl; rewrite Pc, Hall; reflexivity|].
        split; [exact Hk|].
        intros mid2 s2 Hs Hall2 Hlen. destruct mid2 as [|c2 mid2]; [simpl in Hlen; lia|].
        rewrite !append_cons in Hs. injection Hs as <- Hs.
        simpl in Hall2. apply andb_true_iff in Hall2 as [_ Hall2].
        rewrite <- pushes_push. apply (Hmax mid2 s2 Hs Hall2). simpl in Hlen; lia.
      * exists "", (String c s). rewrite pushes_empty. repeat split; auto.
        intros mid2 s2 Hs Hall2 Hlen. destruct mid2 as [|c2 mid2]; [simpl in Hlen; lia|].
        rewrite append_cons in Hs. injection Hs as <- Hs.
        simpl in Hall2. apply andb_true_iff in Hall2 as [_ Hall2].
        rewrite <- pushes_push. apply (star_none _ _ _ _ _ S mid2 s2 Hs Hall2).
    + exists "", (String c s). rewrite pushes_empty. repeat split; auto.
      intros mid2 s2 Hs Hall2 Hlen. destruct mid2 as [|c2 mid2]; [simpl in Hlen; lia|].
      rewrite append_cons in Hs. injection Hs as <- Hs.
      simpl in Hall2. apply andb_true_iff in Hall2 as [Hc2 _]. congruence.
Qed.

Lemma exec_lits_inv a r inside :
  forall cap s m,
    exec (lits a ++ r) inside cap s = Some m ->
    exists tag s', s = tag +:+ s' /\ ci_eq a tag = true /\
      exec r inside (pushes inside cap tag) s' = Some m.
Proof.
  induction a as [|x a IH]; intros cap s m H.
  - exists "", s. rewrite pushes_empty. auto.
  - rewrite lits_cons in H. cbn [app exec] in H. destruct m as [g rest].
    apply one_sound in H as (c & s' & -> & Pc & H).
    destruct (IH _ _ _ H) as (tag & s'' & -> & Hci & He).
    exists (String c tag), s''. rewrite <- pushes_push.
    repeat split; auto. simpl. rewrite Pc, Hci. reflexivity.
Qed.

(** What the matcher returns for the pattern of an image is the reading
    with the longest run before [src=]. *)
Lemma exec_image s src rest :
  exec NestedServer.img_re false "" s = Some (src, rest) -> image_at s src rest.
Proof.
  unfold NestedServer.img_re. intros H.
  apply exec_lits_inv in H as (tag & s1 & -> & Htag & H).
  cbn [pushes app exec] in H.
  apply one_sound in H as (c & s2 & -> & Hc & H). cbn [push] in H.
  apply star_greedy in H as (mid & s3 & -> & Hmid & H & Hmax). cbn [pushes] in H, Hmax.
  apply exec_sound in H.
  change (accepts
            (lits "src="
             ++ [Class NestedServer.quote; Open;
                 Plus (fun c => negb (NestedServer.quote c)); Close;
                 Class NestedServer.quote])
            false "" s3 src rest) in H.
  apply src_pattern in H as (key & q1 & q2 & -> & Hkey & Hq1 & Hq2 & Hsrc & Hall).
  exists (String c mid). split.
  - exists tag, key, q1, q2. rewrite !append_cons.
    repeat split; auto; try discriminate. simpl. rewrite Hc, Hmid. reflexivity.
  - intros attrs' src' rest'
      (tag' & key' & q1' & q2' & Hs & Htag' & Hne' & Hattrs' & Hkey' & Hq1' & Hq2'
       & Hsrc' & Hall').
    destruct (Nat.le_gt_cases (String.length attrs') (String.length (String c mid)))
      as [Hle|Hgt]; [exact Hle|]. exfalso.
    apply append_inj_length in Hs as [_ Hs].
    2:{ rewrite (ci_eq_length _ _ Htag), (ci_eq_length _ _ Htag'). reflexivity. }
    destruct attrs' as [|c' attrs']; [contradiction|].
    rewrite !append_cons in Hs. injection Hs as <- Hs.
    simpl in Hattrs'. apply andb_true_iff in Hattrs' as [_ Hattrs'].
    simpl in Hgt.
    assert (Hnone := Hmax attrs' _ Hs Hattrs' ltac:(lia)).
    assert (Hacc : accepts
                     (lits "src="
                      ++ [Class NestedServer.quote; Open;
                          Plus (fun c => negb (NestedServer.quote c)); Close;
                          Class NestedServer.quote])
                     false "" (key' +:+ String q1' src' +:+ String q2' rest') src' rest').
    { apply src_pattern. exists key', q1', q2'. auto 10. }
    apply exec_complete in Hacc as [m Hm].
    change (exec
              (lits "src="
               ++ [Class NestedServer.quote; Open;
                   Plus (fun c => negb (NestedServer.quote c)); Close;
                   Class NestedServer.quote])
              false "" (key' +:+ String q1' src' +:+ String q2' rest') = None) in Hnone.
    congruence.
Qed.

Lemma image_at_accepts s src rest :
  image_at s src rest -> accepts NestedServer.img_re false "" s src rest.
Proof. intros (attrs & H & _). apply image_pattern. eauto. Qed.

(** An image at the start of a text has one [src] only. *)
Lemma image_at_unique s src rest src' rest' :
  image_at s src rest -> image_at s src' rest' -> src = src'.
Proof.
  intros (attrs & H & Hmax) (attrs' & H' & Hmax').
  pose proof (Hmax _ _ _ H') as L1. pose proof (Hmax' _ _ _ H) as L2.
  destruct H as (tag & key & q1 & q2 & -> & Htag & _ & _ & Hkey & _ & Hq2 & _ & Hall).
  destruct H' as (tag' & key' & q1' & q2' & Hs & Htag' & _ & _ & Hkey' & _ & Hq2' & _ & Hall').
  apply append_inj_length in Hs as [_ Hs].
  2:{ rewrite (ci_eq_length _ _ Htag), (ci_eq_length _ _ Htag'). reflexivity. }
  apply append_inj_length in Hs as [_ Hs]; [|lia].
  apply append_inj_length in Hs as [_ Hs].
  2:{ rewrite (ci_eq_length _ _ Hkey), (ci_eq_length _ _ Hkey'). reflexivity. }
  rewrite !append_cons in Hs. injection Hs as _ Hs.
  apply (first_split_class NestedServer.quote) in Hs as (Ht & _ & _); auto.
Qed.

Lemma search_exec r s m :
  search r s = Some m ->
  exists s', s = before m +:+ s' /\ exec r false "" s' = Some (group1 m, after m).
Proof.
  revert m; induction s as [|c s IH]; intros m; simpl.
  - destruct (exec r false "" "") as [[g rest]|] eqn:E; [|discriminate].
    intros [= <-]; simpl. exists "". auto.
  - destruct (exec r false "" (String c s)) as [[g rest]|] eqn:E.
    + intros [= <-]; simpl. exists (String c s). auto.
    + destruct (search r s) as [m'|]; [|discriminate].
      intros [= <-]; simpl. destruct (IH m' eq_refl) as (s' & Hs & He).
      exists s'; split; [rewrite append_cons; congruence | exact He].
Qed.

(** *** What [match] finds

    For a pattern [r] and a reading [at_] of what it matches at the start
    of a text: when the matcher returns a reading, every reading is
    accepted by the pattern, and a text has one reading at most, [match]
    finds exactly what is read at the leftmost place where something is. *)
Section Leftmost.
Variable r : regex.
Variable at_ : string -> string -> string -> Prop.
Hypothesis Hexec : forall s y rest, exec r false "" s = Some (y, rest) -> at_ s y rest.
Hypothesis Hacc : forall s y rest, at_ s y rest -> accepts r false "" s y rest.
Hypothesis Huniq : forall s y rest y' rest', at_ s y rest -> at_ s y' rest' -> y = y'.

Lemma match1_found html x : match1 r html = Some x -> leftmost at_ html x.
Proof.
  unfold match1. destruct (search r html) as [m|] eqn:S; [|discriminate].
  intros [= <-]. destruct (search_exec _ _ _ S) as (s' & Hs & He).
  exists (before m), s', (after m).
  split; [exact Hs|]. split; [apply Hexec, He|].
  intros pre' s'' Hs' Hlen y rest Hy. apply Hacc in Hy.
  exact (search_leftmost _ _ _ S pre' s'' Hs' Hlen y rest Hy).
Qed.

Lemma match1_absent html : match1 r html = None -> nowhere at_ html.
Proof.
  unfold match1. destruct (search r html) as [m|] eqn:S; [discriminate|].
  intros _ pre s Hs y rest Hy. apply Hacc in Hy.
  exact (search_none _ _ S pre s Hs y rest Hy).
Qed.

Lemma leftmost_unique html x y : leftmost at_ html x -> leftmost at_ html y -> x = y.
Proof.
  intros (pre & s & rest & Hs & Ha & Hmin) (pre' & s' & rest' & Hs' & Ha' & Hmin').
  destruct (Nat.lt_trichotomy (String.length pre) (String.length pre')) as [L|[E|L]].
  - exfalso. exact (Hmin' pre s Hs L x rest Ha).
  - rewrite Hs in Hs'. apply append_inj_length in Hs' as [_ <-]; [|exact E].
    exact (Huniq _ _ _ _ _ Ha Ha').
  - exfalso. exact (Hmin pre' s' Hs' L y rest' Ha').
Qed.

Lemma match1_iff html x : match1 r html = Some x <-> leftmost at_ html x.
Proof.
  split; [apply match1_found|]. intros H.
  destruct (match1 r html) as [y|] eqn:M.
  - f_equal. apply (leftmost_unique html); [apply match1_found, M | exact H].
  - exfalso. destruct H as (pre & s & rest & Hs & Ha & _).
    exact (match1_absent html M pre s Hs x rest Ha).
Qed.

Lemma match1_none_iff html : match1 r html = None <-> nowhere at_ html.
Proof.
  split; [apply match1_absent|]. intros H.
  destruct (match1 r html) as [y|] eqn:M; [|reflexivity].
  exfalso. destruct (match1_found html y M) as (pre & s & rest & Hs & Ha & _).
  exact (H pre s Hs y rest Ha).
Qed.

End Leftmost.

Lemma match1_leftmost r at_ html x :
  (forall s y rest, accepts r false "" s y rest <-> at_ s y rest) ->
  match1 r html = Some x -> leftmost at_ html x.
Proof.
  intros Hat. unfold match1. destruct (search r html) as [m|] eqn:S; [|discriminate].
  intros [= <-]. destruct (search_sound _ _ _ S) as (mid & Hs & Ha).
  exists (before m), (mid +:+ after m), (after m).
  split; [exact Hs|]. split; [apply Hat, Ha|].
  intros pre' s' Hs' Hlen y rest Hy. apply Hat in Hy.
  exact (search_leftmost _ _ _ S pre' s' Hs' Hlen y rest Hy).
Qed.

Lemma match1_nowhere r at_ html :
  (forall s y rest, accepts r false "" s y rest <-> at_ s y rest) ->
  match1 r html = None -> nowhere at_ html.
Proof.
  intros Hat. unfold match1. destruct (search r html) as [m|] eqn:S; [discriminate|].
  intros _ pre s Hs y rest Hy. apply Hat in Hy.
  exact (search_none _ _ S pre s Hs y rest Hy).
Qed.

(** *** Making a slug readable *)

Lemma capitalize_length prev s :
  String.length (NestedServer.capitalize prev s) = String.length s.
Proof. revert prev; induction s as [|c s IH]; intros prev; simpl; auto. Qed.

Lemma capitalize_get s :
  forall prev i c,
    String.get i s = Some c ->
    String.get i (NestedServer.capitalize prev s)
    = Some (if is_word c
               && negb (match i with
                        | 0 => prev
                        | S j => default false (is_word <$> String.get j s)
                        end)
            then upper_char c else c).
Proof.
  induction s as [|a s IH]; intros prev i c; [discriminate|].
  destruct i as [|i]; simpl.
  - intros [= ->]. reflexivity.
  - intros H. rewrite (IH (is_word a) i c H). destruct i; reflexivity.
Qed.

Lemma hyphen_to_space_word c :
  is_word (if is_char "-" c then " "%char else c) = is_word c.
Proof.
  destruct (is_char "-" c) eqn:E; [|reflexivity].
  apply is_char_eq in E; subst; reflexivity.
Qed.

Lemma humanize_get slug i c :
  String.get i slug = Some c ->
  String.get i (NestedServer.humanize slug) = Some (readable_char slug i c).
Proof.
  intros H. unfold NestedServer.humanize, Str.replace_class.
  rewrite (capitalize_get _ false i (if is_char "-" c then " "%char else c))
    by (rewrite str_map_get, H; reflexivity).
  rewrite hyphen_to_space_word. unfold readable_char, starts_word. rewrite H.
  f_equal. destruct (is_char "-" c) eqn:E.
  - apply is_char_eq in E; subst; reflexivity.
  - destruct i as [|j]; [reflexivity|].
    rewrite str_map_get. destruct (String.get j slug) as [d|]; simpl; [|reflexivity].
    rewrite hyphen_to_space_word. reflexivity.
Qed.

Lemma trim_empty : Str.trim "" = "".
Proof. reflexivity. Qed.

Lemma title_pattern s text rest :
  accepts NestedServer.title_re false "" s text rest <-> element_at "title" s text rest.
Proof. apply (element_pattern "title"). Qed.

Lemma h1_pattern s text rest :
  accepts NestedServer.h1_re false "" s text rest <-> element_at "h1" s text rest.
Proof. apply (element_pattern "h1"). Qed.

Lemma title_found html t :
  match1 NestedServer.title_re html = Some t <-> leftmost (element_at "title") html t.
Proof.
  apply match1_iff.
  - intros s y rest H. apply title_pattern, exec_sound, H.
  - intros s y rest H. apply title_pattern, H.
  - apply element_at_unique.
Qed.

Lemma title_absent html :
  match1 NestedServer.title_re html = None <-> nowhere (element_at "title") html.
Proof.
  apply match1_none_iff.
  - intros s y rest H. apply title_pattern, exec_sound, H.
  - intros s y rest H. apply title_pattern, H.
Qed.

Lemma h1_found html t :
  match1 NestedServer.h1_re html = Some t <-> leftmost (element_at "h1") html t.
Proof.
  apply match1_iff.
  - intros s y rest H. apply h1_pattern, exec_sound, H.
  - intros s y rest H. apply h1_pattern, H.
  - apply element_at_unique.
Qed.

Lemma h1_absent html :
  match1 NestedServer.h1_re html = None <-> nowhere (element_at "h1") html.
Proof.
  apply match1_none_iff.
  - intros s y rest H. apply h1_pattern, exec_sound, H.
  - intros s y rest H. apply h1_pattern, H.
Qed.

Lemma image_found html src :
  match1 NestedServer.img_re html = Some src <-> leftmost image_at html src.
Proof.
  apply match1_iff; [apply exec_image | apply image_at_accepts | apply image_at_unique].
Qed.

Lemma image_absent html :
  match1 NestedServer.img_re html = None <-> nowhere image_at html.
Proof. apply match1_none_iff; [apply exec_image | apply image_at_accepts]. Qed.

(** C4, amended. The title recorded for a page is the text of the first
    title element, the owner suffix and the surrounding white space
    stripped, when there is such an element and that text is not empty;
    otherwise the text of the first h1 element, surrounding white space
    stripped, when there is one and that text is not empty; otherwise the
    slug with a space for each hyphen and a capital for each letter that
    starts a run of letters, digits and underscores. An element is what
    the pattern matches, at the leftmost place where it matches.

    The image is not read by tag and attribute. It is found at the
    leftmost [<img] after which, with one character or more in between
    and no [>], some [src=] stands before a quoted, non-empty text; and
    there it is the text after the last such [src=], surrounding white
    space stripped. Without such a place it is the empty string.

    Each of the three searches finds exactly what this reading
    determines. Where the title text is not empty after stripping, or
    where neither a title nor an h1 element is there, the title is that
    of the original wording. *)
Theorem scraped_title_and_image slug html :
  extracted_title slug html = Some (JStr (settled_title slug html)) /\
  extracted_image slug html = Some (JStr (settled_image html)) /\
  (forall t, match1 NestedServer.title_re html = Some t
             <-> leftmost (element_at "title") html t) /\
  (match1 NestedServer.title_re html = None <-> nowhere (element_at "title") html) /\
  (forall h, match1 NestedServer.h1_re html = Some h
             <-> leftmost (element_at "h1") html h) /\
  (match1 NestedServer.h1_re html = None <-> nowhere (element_at "h1") html) /\
  (forall src, match1 NestedServer.img_re html = Some src <-> leftmost image_at html src) /\
  (match1 NestedServer.img_re html = None <-> nowhere image_at html) /\
  (forall src, leftmost image_at html src ->
     extracted_image slug html = Some (JStr (Str.trim src))) /\
  (nowhere image_at html -> extracted_image slug html = Some (JStr "")) /\
  (String.length (NestedServer.humanize slug) = String.length slug /\
   forall i c, String.get i slug = Some c ->
     String.get i (NestedServer.humanize slug) = Some (readable_char slug i c)) /\
  (forall t, leftmost (element_at "title") html t ->
     Str.trim (remove_first NestedServer.owner_re t) <> "" ->
     extracted_title slug html
     = Some (JStr (Str.trim (remove_first NestedServer.owner_re t))) /\
     settled_title slug html = claimed_title slug html) /\
  (nowhere (element_at "title") html -> nowhere (element_at "h1") html ->
   extracted_title slug html = Some (JStr (NestedServer.humanize slug)) /\
   settled_title slug html = claimed_title slug html).
Proof.
  split; [apply scraped_title_settled|].
  split; [apply scraped_image_settled|].
  split; [intros t; apply title_found|].
  split; [apply title_absent|].
  split; [intros h; apply h1_found|].
  split; [apply h1_absent|].
  split; [intros src; apply image_found|].
  split; [apply image_absent|].
  split.
  { intros src H. apply image_found in H.
    rewrite scraped_image_settled. unfold settled_image. rewrite H. reflexivity. }
  split.
  { intros H. apply image_absent in H.
    rewrite scraped_image_settled. unfold settled_image. rewrite H. reflexivity. }
  split; [split|].
  - unfold NestedServer.humanize, Str.replace_class.
    rewrite capitalize_length. apply str_map_length.
  - apply humanize_get.
  - split.
    + intros t Ht Hne. apply title_found in Ht.
      rewrite scraped_title_settled. unfold settled_title, claimed_title.
      rewrite Ht; simpl.
      destruct (String.eqb_spec (Str.trim (remove_first NestedServer.owner_re t)) "");
        [contradiction | auto].
    + intros Ht Hh. apply title_absent in Ht. apply h1_absent in Hh.
      rewrite scraped_title_settled. unfold settled_title, claimed_title.
      rewrite Ht, Hh. auto.
Qed.

Lemma scraped_title_and_image_witness :
  extracted_title "orphan-page" Samples.plain_page = Some (JStr "Orphan Page")
  /\ extracted_image "orphan-page" Samples.plain_page = Some (JStr "a.png")
  /\ leftmost (element_at "title") Samples.plain_page "Orphan Page | sharva paralkar "
  /\ leftmost (element_at "h1") Samples.plain_page "Hi"
  /\ leftmost image_at Samples.plain_page "a.png"
  /\ leftmost image_at Samples.two_src_page "b.png"
  /\ leftmost image_at Samples.late_src_page "y.png"
  /\ nowhere (element_at "title") Samples.padded_h1_page
  /\ settled_title "orphan-page" Samples.padded_img_page = "Orphan Page"
  /\ NestedServer.humanize "don't-stop" = "Don'T Stop".
Proof.
  pose proof (scraped_title_and_image "orphan-page" Samples.plain_page)
    as (Ht & Hi & Hm & _ & Hh & _ & Hs & _).
  split; [exact Ht|]. split; [exact Hi|].
  split; [apply Hm; vm_compute; reflexivity|].
  split; [apply Hh; vm_compute; reflexivity|].
  split; [apply Hs; vm_compute; reflexivity|].
  split.
  { destruct (scraped_title_and_image "x" Samples.two_src_page)
      as (_ & _ & _ & _ & _ & _ & H & _).
    apply H; vm_compute; reflexivity. }
  split.
  { destruct (scraped_title_and_image "x" Samples.late_src_page)
      as (_ & _ & _ & _ & _ & _ & H & _).
    apply H; vm_compute; reflexivity. }
  split.
  - destruct (scraped_title_and_image "x" Samples.padded_h1_page)
      as (_ & _ & _ & H & _).
    apply H; vm_compute; reflexivity.
  - split; vm_compute; reflexivity.
Defined.

(** ** Uploading an image *)

(** An upload is stored under the cleaned last component of the name the
    client sent; a name without a last component (a directory, [.], [..])
    leaves the request without a file. *)
Lemma upload_stores_sanitized_name :
  ServerEditor.upload (MkFS [] [] Missing) (Some Samples.photo)
  = (MkFS [("my_photo.png", "bytes")] [] Missing,
     Responded 200 (JObj [("url", JStr "public/images/my_photo.png")]))
  /\ ServerEditor.upload (MkFS [] [] Missing)
       (Some (MkUpload (String "a" (String (ascii_of_nat 92) "b.png")) "bytes"))
     = (MkFS [("b.png", "bytes")] [] Missing,
        Responded 200 (JObj [("url", JStr "public/images/b.png")]))
  /\ ServerEditor.upload (MkFS [] [] Missing) (Some (MkUpload ".." "bytes"))
     = (MkFS [] [] Missing, Responded 400 (JObj [("error", JStr "No image file")]))
  /\ ServerEditor.upload (MkFS [] [] Missing) (Some (MkUpload "dir/" "bytes"))
     = (MkFS [] [] Missing, Responded 400 (JObj [("error", JStr "No image file")]))
  /\ ServerEditor.upload (MkFS [] [] Missing) None
     = (MkFS [] [] Missing, Responded 400 (JObj [("error", JStr "No image file")])).
Proof. repeat split; reflexivity. Qed.

(** ** A page the directory does not take *)

(** The write of the page is not guarded: when a subdirectory bears the
    name of the page, or the name is too long, the save ends in the
    error of the file system and nothing is stored, whatever the index. *)
Lemma save_refused_by_the_directory :
  ServerEditor.save Samples.stale_fs (Samples.record "B")
  = (Samples.stale_fs, Unhandled SystemError)
  /\ NestedServer.save Samples.stale_fs (Samples.record "B")
     = (Samples.stale_fs, Unhandled SystemError)
  /\ ServerEditor.save (MkFS [] [] Missing) (Samples.record Samples.long_slug)
     = (MkFS [] [] Missing, Unhandled SystemError)
  /\ String.length Samples.long_slug = 256.
Proof. vm_compute. repeat split. Qed.

(** * Further properties of the handlers *)

Import Props.

(** ** The name of an uploaded file *)

Lemma all_chars_map (p : ascii -> bool) f s :
  (forall c, p (f c) = true) -> all_chars p (Str.map f s) = true.
Proof.
  intros H; induction s as [|c s IH]; simpl; [reflexivity|]. rewrite H, IH; reflexivity.
Qed.

Lemma map_fixed (p : ascii -> bool) f s :
  (forall c, p c = true -> f c = c) -> all_chars p s = true -> Str.map f s = s.
Proof.
  intros H; induction s as [|c s IH]; simpl; [reflexivity|].
  intros Hall. apply andb_true_iff in Hall as [Hc Hall]. rewrite (H c Hc), IH; auto.
Qed.

Lemma all_chars_list p s :
  all_chars p s = forallb p (list_ascii_of_string s).
Proof. induction s as [|c s IH]; simpl; congruence. Qed.

Lemma forallb_rev (p : ascii -> bool) l : forallb p (rev l) = forallb p l.
Proof.
  induction l as [|c l IH]; simpl; [reflexivity|].
  rewrite forallb_app, IH; simpl. rewrite andb_true_r. apply andb_comm.
Qed.

Lemma take_while_all p l : forallb p l = true -> take_while p l = l.
Proof.
  induction l as [|c l IH]; simpl; [reflexivity|].
  intros H. apply andb_true_iff in H as [Hc H]. rewrite Hc, IH; auto.
Qed.

Lemma drop_while_none p l : forallb (fun c => negb (p c)) l = true -> drop_while p l = l.
Proof.
  destruct l as [|c l]; simpl; [reflexivity|].
  intros H. apply andb_true_iff in H as [Hc _].
  destruct (p c); [discriminate | reflexivity].
Qed.

Lemma basename_plain n :
  all_chars (fun c => negb (is_slash c)) n = true -> basename n = n.
Proof.
  intros H. unfold basename. rewrite all_chars_list, <- forallb_rev in H.
  rewrite (drop_while_none _ _ H), (take_while_all _ _ H), rev_involutive.
  apply string_of_list_ascii_of_string.
Qed.

Lemma name_char_no_slash c : name_char c = true -> negb (is_slash c) = true.
Proof.
  unfold is_slash. destruct (is_char "/" c) eqn:E; [|reflexivity].
  apply is_char_eq in E; subst. discriminate.
Qed.

Lemma all_chars_impl (p q : ascii -> bool) s :
  (forall c, p c = true -> q c = true) -> all_chars p s = true -> all_chars q s = true.
Proof.
  intros H; induction s as [|c s IH]; simpl; [reflexivity|].
  intros Hall. apply andb_true_iff in Hall as [Hc Hall]. rewrite (H c Hc), IH; auto.
Qed.

(** X1. Whatever name the client sends, the name the storage picks holds
    only characters of [a-zA-Z0-9._-], hence no path separator; a name
    that is not empty and already holds only such characters is kept as
    it is, and an empty one gives [image]. *)
Theorem uploaded_name_is_safe :
  (forall file, all_chars name_char (ServerEditor.storage_filename file) = true) /\
  (forall file, all_chars (fun c => negb (is_slash c))
                  (ServerEditor.storage_filename file) = true) /\
  (forall n d, n <> "" -> all_chars name_char n = true ->
     ServerEditor.storage_filename (MkUpload n d) = n) /\
  (forall d, ServerEditor.storage_filename (MkUpload "" d) = "image").
Proof.
  assert (Hsafe : forall file,
            all_chars name_char (ServerEditor.storage_filename file) = true).
  { intros file. unfold ServerEditor.storage_filename, Str.replace_class.
    apply all_chars_map. intros c. unfold ServerEditor.unsafe_name_char, name_char.
    destruct (is_lower c || is_upper c || is_digit c || is_char "." c
              || is_char "_" c || is_char "-" c) eqn:E; simpl; [exact E | reflexivity]. }
  split; [exact Hsafe|]. split; [|split].
  - intros file. eapply all_chars_impl; [apply name_char_no_slash | apply Hsafe].
  - intros n d Hne Hall. unfold ServerEditor.storage_filename; simpl.
    destruct (String.eqb_spec n ""); [contradiction|].
    rewrite basename_plain
      by (eapply all_chars_impl; [apply name_char_no_slash | exact Hall]).
    unfold Str.replace_class. apply (map_fixed name_char); [|exact Hall].
    intros c Hc. unfold ServerEditor.unsafe_name_char. fold (name_char c).
    rewrite Hc. reflexivity.
  - intros d. reflexivity.
Qed.

Lemma uploaded_name_is_safe_witness :
  ServerEditor.storage_filename (MkUpload "my_photo-2.png" "bytes") = "my_photo-2.png".
Proof.
  apply (proj1 (proj2 (proj2 uploaded_name_is_safe)) "my_photo-2.png" "bytes").
  - discriminate.
  - reflexivity.
Defined.

(** ** What a save changes *)

Lemma lookup_write_some name other text d :
  is_Some (lookup_entry other d) -> is_Some (lookup_entry other (write name text d)).
Proof.
  destruct (String.eqb_spec other name) as [->|Hne].
  - rewrite lookup_write; eauto.
  - rewrite lookup_write_other; auto.
Qed.

Lemma write_write name text d : write name text (write name text d) = write name text d.
Proof.
  induction d as [|[n c] d IH]; simpl.
  - rewrite String.eqb_refl; reflexivity.
  - destruct (String.eqb n name) eqn:E; simpl; rewrite E; [reflexivity|].
    rewrite IH; reflexivity.
Qed.

(** The three ways a save can end once the slug is there. *)
Lemma save_cases fs body :
  (ServerEditor.save fs body).1 = fs \/
  exists slug text,
    ServerEditor.slug_of body = Ok slug /\ slug <> "" /\
    html_text body = Some text /\
    writable (page slug) (files fs) = true /\
    ((exists e, findIndex (ServerEditor.same_slug slug) (records (index fs)) = Throw e /\
        ServerEditor.save fs body
        = (MkFS (images fs) (write (page slug) text (files fs)) (index fs), Unhandled e))
     \/
     (exists idx, findIndex (ServerEditor.same_slug slug) (records (index fs)) = Ok idx /\
        ServerEditor.save fs body
        = (MkFS (images fs) (write (page slug) text (files fs))
             (Parsed (JArr (ServerEditor.put idx
                (ServerEditor.make_entry slug (or_else (prop body "meta") (JObj [])))
                (records (index fs))))),
           Responded 200 (JObj [("path", JStr ("projects/" +:+ slug +:+ ".html"))])))).
Proof.
  destruct (ServerEditor.slug_of body) as [slug|e] eqn:Hs.
  2:{ left. unfold ServerEditor.save. rewrite Hs. reflexivity. }
  destruct (String.eqb_spec slug "") as [->|Hne].
  { left. unfold ServerEditor.save. rewrite Hs. reflexivity. }
  destruct (html_text body) as [text|] eqn:Ht.
  2:{ left. unfold ServerEditor.save. rewrite Hs.
      destruct (String.eqb_spec slug ""); [contradiction|].
      unfold html_text in Ht. unfold writeFileSync.
      destruct (or_else (prop body "html") (JStr "")); try reflexivity. discriminate. }
  destruct (writable (page slug) (files fs)) eqn:Hw.
  2:{ left. unfold ServerEditor.save. rewrite Hs.
      destruct (String.eqb_spec slug ""); [contradiction|].
      rewrite (html_text_refused body text (files fs) (slug +:+ ".html") Ht Hw).
      reflexivity. }
  right. exists slug, text. repeat split; auto.
  destruct (findIndex (ServerEditor.same_slug slug) (records (index fs))) as [idx|e] eqn:F.
  - right. exists idx. split; [reflexivity|]. apply save_ok; auto.
  - left. exists e. split; [reflexivity|].
    unfold ServerEditor.save. rewrite Hs.
    destruct (String.eqb_spec slug ""); [contradiction|].
    rewrite (html_text_write body text (files fs) (slug +:+ ".html") Ht Hw). simpl.
    rewrite load_projects_records, F. reflexivity.
Qed.

Lemma same_slug_other slug p :
  is_record p = true -> slug_key p <> Str.toLowerCase slug ->
  ServerEditor.same_slug slug p = Ok false.
Proof.
  intros Hr Hk. destruct (is_record_same_slug slug p Hr) as [b Hb].
  rewrite Hb. f_equal. rewrite (same_slug_key _ _ _ Hb).
  apply bool_decide_eq_false_2, Hk.
Qed.

Lemma same_slug_unfit slug p :
  is_record p = false -> ServerEditor.same_slug slug p = Throw TypeError.
Proof.
  unfold is_record, ServerEditor.same_slug, get. intros H.
  destruct p; try reflexivity; simpl in *;
    try (destruct (or_else _ _); try discriminate; reflexivity); discriminate.
Qed.

Lemma findIndex_throws pred (pre post : list json) bad e :
  Forall (fun x => pred x = Ok false) pre -> pred bad = Throw e ->
  findIndex pred (pre ++ bad :: post) = Throw e.
Proof.
  intros Hpre Hbad; induction Hpre as [|a pre Ha _ IH]; simpl.
  - rewrite Hbad; reflexivity.
  - rewrite Ha; simpl. rewrite IH; reflexivity.
Qed.

Lemma keys_differ slug (l : list json) :
  Forall (fun x => ServerEditor.same_slug slug x = Ok false) l ->
  Forall (fun p => slug_key p <> Str.toLowerCase slug) l.
Proof.
  intros H. eapply Forall_impl; [exact H|]. intros p Hp. apply same_slug_key in Hp.
  symmetry in Hp. apply bool_decide_eq_false in Hp. exact Hp.
Qed.

(** X3. A save that stored a project replaced the first record whose
    slug equals the new one up to case, in place, or, when there was no
    such record, appended the new record at the end; every other record
    is where it was. *)
Theorem save_replaces_or_appends fs body fs' b :
  ServerEditor.save fs body = (fs', Responded 200 b) ->
  exists slug,
    ServerEditor.slug_of body = Ok slug /\
    let e := ServerEditor.make_entry slug (or_else (prop body "meta") (JObj [])) in
    slug_key e = Str.toLowerCase slug /\
    ((exists pre old post,
        records (index fs) = pre ++ old :: post /\
        Forall (fun p => slug_key p <> Str.toLowerCase slug) pre /\
        slug_key old = Str.toLowerCase slug /\
        records (index fs') = pre ++ e :: post)
     \/
     (Forall (fun p => slug_key p <> Str.toLowerCase slug) (records (index fs)) /\
      records (index fs') = records (index fs) ++ [e])).
Proof.
  intros H. pose proof H as H'.
  apply save_responded in H' as [(_ & _ & ? & _)|H']; [discriminate|].
  destruct H' as (slug & text & idx & Hs & Hne & Ht & Hw & Hi & _).
  rewrite (save_ok _ _ _ _ _ Hs Hne Ht Hw Hi) in H. injection H as <- _.
  exists slug. split; [exact Hs|]. intros e. split; [apply slug_key_entry, Hne|].
  destruct (findIndex_split _ _ _ e Hi) as (pre & post & Hpre & Hput & _ & Hcase).
  cbn [index records]. fold e. rewrite Hput.
  destruct idx as [i|].
  - left. destruct Hcase as (old & Hold & Hl). exists pre, old, post.
    repeat split; auto; [apply keys_differ, Hpre|].
    apply same_slug_key in Hold. symmetry in Hold.
    apply bool_decide_eq_true in Hold. exact Hold.
  - right. destruct Hcase as [Hl ->]. rewrite Hl. split; [|reflexivity].
    apply keys_differ, Hpre.
Qed.

Lemma save_replaces_or_appends_witness :
  exists slug,
    ServerEditor.slug_of Samples.demo_request = Ok slug /\
    let e := ServerEditor.make_entry slug Samples.demo_meta in
    slug_key e = Str.toLowerCase slug /\
    ((exists pre old post,
        records (index Samples.demo_fs) = pre ++ old :: post /\
        Forall (fun p => slug_key p <> Str.toLowerCase slug) pre /\
        slug_key old = Str.toLowerCase slug /\
        records (index Samples.demo_saved) = pre ++ e :: post)
     \/
     (Forall (fun p => slug_key p <> Str.toLowerCase slug) (records (index Samples.demo_fs)) /\
      records (index Samples.demo_saved) = records (index Samples.demo_fs) ++ [e])).
Proof.
  refine (save_replaces_or_appends Samples.demo_fs Samples.demo_request
            Samples.demo_saved (JObj [("path", JStr "projects/demo.html")]) _).
  vm_compute; reflexivity.
Defined.

Lemma put_keeps_others idx e (l : list json) slug p :
  findIndex (ServerEditor.same_slug slug) l = Ok idx ->
  p ∈ l -> slug_key p <> Str.toLowerCase slug -> p ∈ ServerEditor.put idx e l.
Proof.
  intros Hi Hp Hk.
  destruct (findIndex_split _ _ _ e Hi) as (pre & post & _ & -> & _ & Hcase).
  destruct idx as [i|].
  - destruct Hcase as (old & Hold & ->).
    apply same_slug_key in Hold. symmetry in Hold. apply bool_decide_eq_true in Hold.
    apply elem_of_app in Hp as [Hp|Hp]; [apply elem_of_app; left; exact Hp|].
    apply elem_of_cons in Hp as [->|Hp]; [contradiction|].
    apply elem_of_app; right; right; exact Hp.
  - destruct Hcase as [-> ->]. apply elem_of_app; left; exact Hp.
Qed.

Lemma put_length idx e (l : list json) : length l <= length (ServerEditor.put idx e l).
Proof.
  destruct idx; simpl; [rewrite length_insert | rewrite length_app; simpl]; lia.
Qed.

(** X4. Whatever the request and however the save ends, it leaves the
    images alone, deletes no page and changes no page but the one of
    the sanitised slug, removes no record from the index, and keeps
    every record whose slug differs, up to case, from the sanitised one. *)
Theorem save_footprint fs body :
  let fs' := (ServerEditor.save fs body).1 in
  images fs' = images fs /\
  (forall name, is_Some (lookup_entry name (files fs)) ->
                is_Some (lookup_entry name (files fs'))) /\
  (forall name,
     (forall slug, ServerEditor.slug_of body = Ok slug -> name <> page slug) ->
     lookup_entry name (files fs') = lookup_entry name (files fs)) /\
  length (records (index fs)) <= length (records (index fs')) /\
  (forall p, p ∈ records (index fs) ->
     (forall slug, ServerEditor.slug_of body = Ok slug ->
                   slug_key p <> Str.toLowerCase slug) ->
     p ∈ records (index fs')).
Proof.
  intros fs'. subst fs'.
  destruct (save_cases fs body) as [->|(slug & text & Hs & Hne & Ht & Hw & Hcase)].
  { repeat split; auto. }
  destruct Hcase as [(e & _ & ->)|(idx & Hi & ->)]; cbn [fst images files index records].
  - split; [reflexivity|]. split; [intros name; apply lookup_write_some|].
    split; [intros name Hn; apply lookup_write_other, (Hn slug Hs)|].
    split; [lia | auto].
  - split; [reflexivity|]. split; [intros name; apply lookup_write_some|].
    split; [intros name Hn; apply lookup_write_other, (Hn slug Hs)|].
    split; [apply put_length|].
    intros p Hp Hk. eapply put_keeps_others; eauto.
Qed.

(** X5. The page is written before the index is read: when the slug and
    the page are fine and the directory takes the page, but the index
    holds, before any record of that slug, an element the lookup cannot
    inspect ([null], or a slug that is truthy and not a string), the save
    ends in a [TypeError] with the page already written and the index
    file untouched. *)
Theorem save_fails_after_writing_page fs body slug text pre bad post :
  ServerEditor.slug_of body = Ok slug -> slug <> "" ->
  html_text body = Some text ->
  can_write (page slug) (files fs) ->
  records (index fs) = pre ++ bad :: post ->
  Forall (fun p => is_record p = true /\ slug_key p <> Str.toLowerCase slug) pre ->
  is_record bad = false ->
  ServerEditor.save fs body
  = (MkFS (images fs) (write (page slug) text (files fs)) (index fs),
     Unhandled TypeError) /\
  NestedServer.save fs body
  = (MkFS (images fs) (write (page slug) text (files fs)) (index fs),
     Unhandled TypeError).
Proof.
  intros Hs Hne Ht Hw Hl Hpre Hbad. apply writable_spelled in Hw.
  assert (F : findIndex (ServerEditor.same_slug slug) (records (index fs))
              = Throw TypeError).
  { rewrite Hl. apply findIndex_throws; [|apply same_slug_unfit, Hbad].
    eapply Forall_impl; [exact Hpre|]. intros p [Hr Hk]. apply same_slug_other; auto. }
  assert (H : ServerEditor.save fs body
              = (MkFS (images fs) (write (page slug) text (files fs)) (index fs),
                 Unhandled TypeError)).
  { unfold ServerEditor.save. rewrite Hs.
    destruct (String.eqb_spec slug ""); [contradiction|].
    rewrite (html_text_write body text (files fs) (slug +:+ ".html") Ht Hw). simpl.
    rewrite load_projects_records, F. reflexivity. }
  split; [exact H|]. rewrite nested_save, H. reflexivity.
Qed.

Lemma save_fails_after_writing_page_witness :
  ServerEditor.save (MkFS [] [] (Parsed (JArr [Samples.record "a"; JNull; Samples.record "b"])))
    (Samples.record "b")
  = (MkFS [] [("b.html", Some "")]
       (Parsed (JArr [Samples.record "a"; JNull; Samples.record "b"])),
     Unhandled TypeError) /\
  NestedServer.save (MkFS [] [] (Parsed (JArr [Samples.record "a"; JNull; Samples.record "b"])))
    (Samples.record "b")
  = (MkFS [] [("b.html", Some "")]
       (Parsed (JArr [Samples.record "a"; JNull; Samples.record "b"])),
     Unhandled TypeError).
Proof.
  refine (save_fails_after_writing_page
            (MkFS [] [] (Parsed (JArr [Samples.record "a"; JNull; Samples.record "b"])))
            (Samples.record "b") "b" "" [Samples.record "a"] JNull [Samples.record "b"]
            _ _ _ _ _ _ _).
  - reflexivity.
  - discriminate.
  - reflexivity.
  - split; [simpl; lia | discriminate].
  - reflexivity.
  - repeat constructor. discriminate.
  - reflexivity.
Defined.

(** ** Saving again, and saving well-typed requests *)

(** X6. Saving the same request a second time changes nothing: the
    second save finds the record the first one stored, puts the same
    record in its place, writes the same page, and gives the same answer.
    Both servers. *)
Theorem save_is_idempotent fs body fs1 b :
  ServerEditor.save fs body = (fs1, Responded 200 b) ->
  ServerEditor.save fs1 body = (fs1, Responded 200 b) /\
  NestedServer.save fs1 body = NestedServer.save fs body.
Proof.
  intros H. pose proof H as H'.
  apply save_responded in H' as [(_ & _ & ? & _)|H']; [discriminate|].
  destruct H' as (slug & text & idx & Hs & Hne & Ht & Hw & Hi & _).
  pose proof (save_ok _ _ _ _ _ Hs Hne Ht Hw Hi) as H1. rewrite H1 in H.
  set (e := ServerEditor.make_entry slug (or_else (prop body "meta") (JObj []))) in *.
  destruct (findIndex_split _ _ _ e Hi) as (pre & post & Hpre & Hput & _ & _).
  rewrite Hput in H, H1. injection H as <- <-.
  assert (H2 : ServerEditor.save
                 (MkFS (images fs) (write (slug +:+ ".html") text (files fs))
                    (Parsed (JArr (pre ++ e :: post)))) body
               = (MkFS (images fs) (write (slug +:+ ".html") text (files fs))
                    (Parsed (JArr (pre ++ e :: post))),
                  Responded 200 (JObj [("path", JStr ("projects/" +:+ slug +:+ ".html"))]))).
  { rewrite (save_ok _ body slug text (Some (length pre)) Hs Hne Ht).
    - cbn [images files index records ServerEditor.put]. fold e.
      rewrite write_write, insert_app_r_alt, Nat.sub_diag by lia. reflexivity.
    - cbn [files]. apply writable_write, Hw.
    - cbn [index records]. apply findIndex_found; [exact Hpre|].
      apply same_slug_entry, Hne. }
  split; [exact H2|]. rewrite !nested_save, H1, H2. reflexivity.
Qed.

Lemma save_is_idempotent_witness :
  ServerEditor.save Samples.demo_saved Samples.demo_request
  = (Samples.demo_saved, Responded 200 (JObj [("path", JStr "projects/demo.html")])) /\
  NestedServer.save Samples.demo_saved Samples.demo_request
  = NestedServer.save Samples.demo_fs Samples.demo_request.
Proof.
  refine (save_is_idempotent Samples.demo_fs Samples.demo_request
            Samples.demo_saved (JObj [("path", JStr "projects/demo.html")]) _).
  vm_compute; reflexivity.
Defined.

Lemma is_record_not_null p : is_record p = true -> p <> JNull.
Proof. intros H ->. discriminate. Qed.

Lemma is_record_scraped slug html :
  is_record (NestedServer.scraped_entry slug html) = true.
Proof. unfold is_record; simpl. destruct (negb (String.eqb slug "")); reflexivity. Qed.

Lemma mapM_keys_throw (l : list json) e :
  mapM (fun p => k ← NestedServer.key_of p; Ok (k, p)) l = Throw e ->
  e = TypeError /\ ~ Forall keyed l.
Proof.
  intros M. split.
  - revert e M; induction l as [|p l IH]; intros e; [discriminate|]. cbn [mapM].
    destruct (NestedServer.key_of p) as [k|e'] eqn:K; simpl.
    + destruct (mapM _ l) as [ys|e''] eqn:M; simpl; [discriminate|].
      intros [= <-]. eapply IH; reflexivity.
    + intros [= <-]. eapply key_of_throws; eauto.
  - intros H. rewrite (mapM_keys _ H) in M. discriminate.
Qed.

(** How a reconcile ends: with its answer, or before it wrote anything. *)
Lemma sync_cases fs :
  (Forall keyed (records (index fs)) /\
   NestedServer.sync fs
   = (with_index fs
        (Parsed (JArr (kept_records (files fs)
                         (NestedServer.st_projects (synced (files fs) (records (index fs))))))),
      sync_answer
        (kept_records (files fs)
           (NestedServer.st_projects (synced (files fs) (records (index fs)))))
        (NestedServer.st_added (synced (files fs) (records (index fs))))
        (length (NestedServer.st_projects (synced (files fs) (records (index fs))))
         - length (kept_records (files fs)
             (NestedServer.st_projects (synced (files fs) (records (index fs))))))))
  \/
  (~ Forall keyed (records (index fs)) /\
   NestedServer.sync fs = (fs, Unhandled TypeError)).
Proof.
  destruct (mapM (fun p => k ← NestedServer.key_of p; Ok (k, p)) (records (index fs)))
    as [pairs|e] eqn:M.
  - left. pose proof (mapM_keys_inv _ _ M) as Hnn. split; [exact Hnn|].
    apply (sync_total fs Hnn).
  - right. destruct (mapM_keys_throw _ _ M) as [-> Hn]. split; [exact Hn|].
    unfold NestedServer.sync.
    change NestedServer.load_projects with ServerEditor.load_projects.
    rewrite load_projects_records, M. reflexivity.
Qed.

Lemma synced_records d (l : list json) :
  Forall (fun p => is_record p = true) l ->
  Forall (fun p => is_record p = true) (NestedServer.st_projects (synced d l)).
Proof.
  intros H. apply Forall_forall. intros p Hp.
  apply loop_projects in Hp as [Hp|(f & _ & ->)].
  - rewrite Forall_forall in H. apply H, Hp.
  - apply is_record_scraped.
Qed.

(** X7. An index whose elements the lookup of a save can inspect (none
    is [null], every slug is absent, falsy or a string) stays such an
    index through every save and every reconcile, however they end. On
    such an index a save whose slug and page are strings or absent ends
    in one of three ways: with status 400 when the sanitised slug is
    empty; with status 200 when the directory takes the page; and, when
    it does not (the name is too long, or a subdirectory bears it), in
    the error of the file system, with nothing written. *)
Theorem index_stays_inspectable fs body :
  Forall (fun p => is_record p = true) (records (index fs)) ->
  Forall (fun p => is_record p = true) (records (index (ServerEditor.save fs body).1)) /\
  Forall (fun p => is_record p = true) (records (index (NestedServer.save fs body).1)) /\
  Forall (fun p => is_record p = true) (records (index (NestedServer.sync fs).1)) /\
  (forall slug text,
     ServerEditor.slug_of body = Ok slug -> html_text body = Some text ->
     (slug = "" ->
      ServerEditor.save fs body
      = (fs, Responded 400 (JObj [("error", JStr "Missing slug")]))) /\
     (slug <> "" -> can_write (page slug) (files fs) ->
      exists fs', ServerEditor.save fs body
        = (fs', Responded 200 (JObj [("path", JStr ("projects/" +:+ page slug))]))) /\
     (slug <> "" -> ~ can_write (page slug) (files fs) ->
      ServerEditor.save fs body = (fs, Unhandled SystemError) /\
      NestedServer.save fs body = (fs, Unhandled SystemError))).
Proof.
  intros Hr.
  assert (Hsave : Forall (fun p => is_record p = true)
                    (records (index (ServerEditor.save fs body).1))).
  { destruct (save_cases fs body) as [->|(slug & text & Hs & Hne & Ht & Hw & Hcase)]; [exact Hr|].
    destruct Hcase as [(e & _ & ->)|(idx & Hi & ->)]; cbn [fst index records]; [exact Hr|].
    destruct idx as [i|]; simpl.
    - apply Forall_insert; [exact Hr | apply is_record_entry].
    - apply Forall_app; split; [exact Hr|]. constructor; [apply is_record_entry|constructor]. }
  split; [exact Hsave|]. split; [rewrite nested_save; exact Hsave|]. split.
  - destruct (sync_cases fs) as [[_ ->]|[_ ->]]; cbn [fst with_index index records]; [|exact Hr].
    apply Forall_forall. intros p Hp. apply list_elem_of_filter in Hp as [_ Hp].
    pose proof (synced_records (files fs) _ Hr) as Hall.
    rewrite Forall_forall in Hall. apply Hall, Hp.
  - intros slug text Hs Ht. split; [|split].
    + intros ->. unfold ServerEditor.save. rewrite Hs. reflexivity.
    + intros Hne Hw. apply writable_spelled in Hw.
      destruct (records_total slug _ Hr) as [idx Hi].
      rewrite (save_ok _ _ _ _ _ Hs Hne Ht Hw Hi). eauto.
    + intros Hne Hw.
      assert (Hw' : writable (slug +:+ ".html") (files fs) = false).
      { destruct (writable _ _) eqn:E; [|reflexivity].
        exfalso; apply Hw, writable_spelled, E. }
      assert (H : ServerEditor.save fs body = (fs, Unhandled SystemError)).
      { unfold ServerEditor.save. rewrite Hs.
        destruct (String.eqb_spec slug ""); [contradiction|].
        rewrite (html_text_refused _ _ _ _ Ht Hw'). reflexivity. }
      split; [exact H|]. rewrite nested_save, H. reflexivity.
Qed.

Lemma index_stays_inspectable_witness :
  Forall (fun p => is_record p = true)
    (records (index (ServerEditor.save Samples.stale_fs (Samples.record "B")).1)) /\
  Forall (fun p => is_record p = true)
    (records (index (NestedServer.save Samples.stale_fs (Samples.record "B")).1)) /\
  Forall (fun p => is_record p = true)
    (records (index (NestedServer.sync Samples.stale_fs).1)) /\
  (forall slug text,
     ServerEditor.slug_of (Samples.record "B") = Ok slug ->
     html_text (Samples.record "B") = Some text ->
     (slug = "" ->
      ServerEditor.save Samples.stale_fs (Samples.record "B")
      = (Samples.stale_fs, Responded 400 (JObj [("error", JStr "Missing slug")]))) /\
     (slug <> "" -> can_write (page slug) (files Samples.stale_fs) ->
      exists fs', ServerEditor.save Samples.stale_fs (Samples.record "B")
        = (fs', Responded 200 (JObj [("path", JStr ("projects/" +:+ page slug))]))) /\
     (slug <> "" -> ~ can_write (page slug) (files Samples.stale_fs) ->
      ServerEditor.save Samples.stale_fs (Samples.record "B")
      = (Samples.stale_fs, Unhandled SystemError) /\
      NestedServer.save Samples.stale_fs (Samples.record "B")
      = (Samples.stale_fs, Unhandled SystemError))).
Proof.
  apply (index_stays_inspectable Samples.stale_fs (Samples.record "B")).
  repeat constructor.
Defined.

(** ** What a reconcile adds and what it keeps *)

Lemma entry_slug_scraped slug html :
  entry_slug (NestedServer.scraped_entry slug html) = slug.
Proof.
  unfold entry_slug; simpl. destruct (String.eqb_spec slug ""); subst; reflexivity.
Qed.

Lemma loop_new d files :
  forall st, loop_inv st ->
  exists new,
    NestedServer.st_projects (foldl (NestedServer.sync_step d) st files)
    = NestedServer.st_projects st ++ new /\
    NestedServer.st_added (foldl (NestedServer.sync_step d) st files)
    = NestedServer.st_added st ++ (entry_slug <$> new) /\
    Forall (fun p => exists f, f ∈ files /\
              p = NestedServer.scraped_entry (basename_ext f ".html") (read_or_empty f d))
      new /\
    NoDup (slug_key <$> new) /\
    (forall p, p ∈ new -> slug_key p ∉ slug_key <$> NestedServer.st_projects st).
Proof.
  induction files as [|f files IH]; intros st Hinv.
  - exists []. simpl. rewrite !app_nil_r. repeat split; auto; try constructor.
    intros p Hp. apply elem_of_nil in Hp. contradiction.
  - simpl foldl.
    destruct (NestedServer.st_bySlug st !! Str.toLowerCase (basename_ext f ".html"))
      as [v|] eqn:E.
    + rewrite (step_known d st f) by (unfold file_key; rewrite E; eauto).
      destruct (IH st Hinv) as (new & Hp & Ha & Hs & Hnd & Hfresh).
      exists new. repeat split; auto.
      eapply Forall_impl; [exact Hs|]. intros p (g & Hg & ->). exists g; split; [right|]; auto.
    + set (e := NestedServer.scraped_entry (basename_ext f ".html") (read_or_empty f d)).
      assert (Hstep : NestedServer.sync_step d st f
                      = NestedServer.SyncState (NestedServer.st_projects st ++ [e])
                          (<[Str.toLowerCase (basename_ext f ".html") := e]>
                             (NestedServer.st_bySlug st))
                          (NestedServer.st_added st ++ [basename_ext f ".html"])).
      { unfold NestedServer.sync_step. rewrite E. reflexivity. }
      pose proof (step_inv d st f Hinv) as Hinv1. rewrite Hstep in Hinv1 |- *.
      destruct (IH _ Hinv1) as (new & Hp & Ha & Hs & Hnd & Hfresh).
      cbn [NestedServer.st_projects NestedServer.st_added] in Hp, Ha, Hfresh.
      assert (Hke : slug_key e = Str.toLowerCase (basename_ext f ".html"))
        by apply slug_key_scraped.
      assert (Hse : entry_slug e = basename_ext f ".html") by apply entry_slug_scraped.
      exists (e :: new). rewrite Hp, Ha, <- !app_assoc, fmap_cons, Hse. cbn [app].
      split; [reflexivity|]. split; [reflexivity|].
      split; [|split].
      * constructor; [exists f; split; [left|reflexivity]|].
        eapply Forall_impl; [exact Hs|]. intros p (g & Hg & ->).
        exists g; split; [right|]; auto.
      * apply NoDup_cons; split; [|exact Hnd].
        intros Hin. apply list_elem_of_fmap in Hin as (p & Hkp & Hin).
        apply (Hfresh p Hin). rewrite fmap_app, elem_of_app. right.
        simpl. rewrite <- Hkp. left.
      * intros p Hin Hk. apply elem_of_cons in Hin as [->|Hin].
        -- destruct Hinv as [Hdom _]. apply Hdom in Hk. rewrite Hke, E in Hk.
           destruct Hk; discriminate.
        -- apply (Hfresh p Hin). rewrite fmap_app, elem_of_app. left; exact Hk.
Qed.

Lemma synced_new d (old : list json) :
  Forall keyed old ->
  NestedServer.st_projects (synced d old) = old ++ added_records d old /\
  NestedServer.st_added (synced d old) = entry_slug <$> added_records d old /\
  Forall (scraped_from d) (added_records d old) /\
  NoDup (slug_key <$> added_records d old) /\
  (forall p, p ∈ added_records d old -> slug_key p ∉ slug_key <$> old).
Proof.
  intros Hnn.
  destruct (loop_new d (html_files d) _ (loop_inv_init old Hnn))
    as (new & Hp & Ha & Hs & Hnd & Hfresh).
  fold (synced d old) in Hp, Ha. cbn [NestedServer.st_projects NestedServer.st_added] in *.
  assert (Hnew : added_records d old = new).
  { unfold added_records. rewrite Hp. apply drop_app_length. }
  rewrite Hnew. repeat split; auto.
Qed.

Lemma scraped_key d p :
  scraped_from d p -> slug_key p ∈ file_key <$> html_files d.
Proof.
  intros (f & Hf & ->). rewrite slug_key_scraped.
  apply list_elem_of_fmap. exists f; split; [reflexivity | exact Hf].
Qed.

Lemma kept_new d (old : list json) :
  Forall keyed old ->
  kept_records d (NestedServer.st_projects (synced d old))
  = kept_records d old ++ added_records d old.
Proof.
  intros Hnn. destruct (synced_new d old Hnn) as (-> & _ & Hs & _).
  unfold kept_records at 1. rewrite filter_app. f_equal.
  apply kept_records_keep. intros p Hp.
  rewrite Forall_forall in Hs. apply scraped_key, Hs, Hp.
Qed.

Lemma toString_convertible v : (exists t, toString v = Ok t) <-> convertible v = true.
Proof.
  induction v as [|b|d|s|items IH|props] using json_array_ind.
  - simpl; split; eauto.
  - destruct b; simpl; split; eauto.
  - simpl; split; eauto.
  - simpl; split; eauto.
  - cbn [toString convertible]. induction IH as [|x rest Hx _ IHrest].
    + simpl; split; eauto.
    + cbn [forallb]. rewrite andb_true_iff, <- Hx, <- IHrest.
      assert (Hh : (exists t, match x with JNull => Ok "" | _ => toString x end = Ok t)
                   <-> exists t, toString x = Ok t).
      { destruct x; simpl; split; eauto. }
      rewrite <- Hh.
      destruct (match x with JNull => Ok "" | _ => toString x end) as [h|e]; simpl.
      * destruct rest as [|y rest]; [simpl; split; eauto|].
        match goal with |- context [mbind _ ?m] => destruct m as [t|e] end; simpl.
        -- split; eauto.
        -- split; [intros [? ?]; discriminate | intros [_ [? ?]]; discriminate].
      * split; [intros [? ?]; discriminate | intros [[? ?] _]; discriminate].
  - simpl. destruct (assoc "toString" props); split; eauto; try discriminate.
    intros [? ?]; discriminate.
Qed.

Lemma key_of_not_null p :
  p <> JNull ->
  NestedServer.key_of p
  = (t ← toString (or_else (prop p "slug") (JStr "")); Ok (Str.toLowerCase t)).
Proof. destruct p; intros H; try reflexivity. congruence. Qed.

Lemma has_key_not_null p :
  p <> JNull -> has_key p = convertible (or_else (prop p "slug") (JStr "")).
Proof. destruct p; intros H; try reflexivity. congruence. Qed.

Lemma keyed_has_key p : keyed p <-> has_key p = true.
Proof.
  split.
  - intros H. pose proof (keyed_not_null _ H) as Hn.
    rewrite (has_key_not_null _ Hn). apply toString_convertible.
    unfold keyed in H. rewrite (key_of_not_null _ Hn) in H.
    destruct (toString _) as [t|e]; [eauto | discriminate].
  - intros H.
    assert (Hn : p <> JNull) by (intros ->; discriminate).
    rewrite (has_key_not_null _ Hn) in H.
    apply toString_convertible in H as [t Ht].
    unfold keyed, slug_key. rewrite (key_of_not_null _ Hn), Ht. reflexivity.
Qed.

(** X8. A reconcile is answered exactly when it can take the key of
    every element of the index: none is [null], and no slug is, or holds
    inside an array, an object with a property named [toString]. Then it
    rewrites the index and answers with status 200, touching neither the
    pages nor the images; a slug may be missing, or a number, and every
    element a save can inspect is such an element. With one element of
    the other kind it throws a [TypeError] before it has written
    anything. *)
Theorem reconcile_answers_when_keyed fs :
  (Forall (fun p => has_key p = true) (records (index fs)) ->
   exists kept added removed,
     NestedServer.sync fs
     = (with_index fs (Parsed (JArr kept)), sync_answer kept added removed)) /\
  (Exists (fun p => has_key p = false) (records (index fs)) ->
   NestedServer.sync fs = (fs, Unhandled TypeError)) /\
  (forall p, is_record p = true -> has_key p = true).
Proof.
  split; [|split].
  - intros Hk.
    assert (Hnn : Forall keyed (records (index fs))).
    { eapply Forall_impl; [exact Hk|]. intros p Hp. apply keyed_has_key, Hp. }
    eexists _, _, _. apply (sync_total fs Hnn).
  - intros Hbad. destruct (sync_cases fs) as [[Hnn _]|[_ H]]; [|exact H].
    exfalso. apply Exists_exists in Hbad as (p & Hp & Hf).
    rewrite Forall_forall in Hnn. apply Hnn, keyed_has_key in Hp. congruence.
  - intros p Hp. apply keyed_has_key, is_record_keyed, Hp.
Qed.

Lemma reconcile_answers_when_keyed_witness :
  (exists kept added removed,
     NestedServer.sync
       (with_index Samples.stale_fs (Parsed (JArr [JObj [("slug", JNum "7")]; JStr "b"])))
     = (with_index Samples.stale_fs (Parsed (JArr kept)), sync_answer kept added removed)) /\
  NestedServer.sync
    (with_index Samples.stale_fs
       (Parsed (JArr [Samples.record "B";
                      JObj [("slug", JArr [JObj [("toString", JNum "1")]])]])))
  = (with_index Samples.stale_fs
       (Parsed (JArr [Samples.record "B";
                      JObj [("slug", JArr [JObj [("toString", JNum "1")]])]])),
     Unhandled TypeError) /\
  NestedServer.sync (with_index Samples.stale_fs (Parsed (JArr [Samples.record "B"; JNull])))
  = (with_index Samples.stale_fs (Parsed (JArr [Samples.record "B"; JNull])),
     Unhandled TypeError).
Proof.
  split; [|split].
  - apply (proj1 (reconcile_answers_when_keyed
             (with_index Samples.stale_fs
                (Parsed (JArr [JObj [("slug", JNum "7")]; JStr "b"]))))).
    repeat constructor.
  - apply (proj1 (proj2 (reconcile_answers_when_keyed
             (with_index Samples.stale_fs
                (Parsed (JArr [Samples.record "B";
                               JObj [("slug", JArr [JObj [("toString", JNum "1")]])]])))))).
    right; left; reflexivity.
  - apply (proj1 (proj2 (reconcile_answers_when_keyed
             (with_index Samples.stale_fs (Parsed (JArr [Samples.record "B"; JNull])))))).
    right; left; reflexivity.
Defined.

(** X9. An answered reconcile leaves, in this order, the old records
    that have a page, in the order they had, and then one new record for
    each page it added, in listing order; the answer lists these records,
    the slugs of the new ones as [added], and as [removed] the number of
    old records without a page. Each new record is scraped from a page of
    the directory. The pages and the images are untouched. *)
Theorem reconcile_keeps_then_appends fs fs' st b :
  NestedServer.sync fs = (fs', Responded st b) ->
  let old := records (index fs) in
  let kept := kept_records (files fs) old in
  let new := added_records (files fs) old in
  fs' = with_index fs (Parsed (JArr (kept ++ new))) /\
  Responded st b
  = sync_answer (kept ++ new) (entry_slug <$> new) (length old - length kept) /\
  Forall (scraped_from (files fs)) new /\
  length (kept ++ new) + (length old - length kept) = length old + length new.
Proof.
  intros H old kept new. pose proof (sync_responded _ _ _ _ H) as Hnn.
  rewrite (sync_total fs Hnn) in H. cbn zeta in H.
  destruct (synced_new (files fs) old Hnn) as (Hp & Ha & Hs & _).
  fold old in H. rewrite (kept_new (files fs) old Hnn), Ha in H.
  fold kept new in H. rewrite Hp in H. fold new in H.
  assert (Hle : length kept <= length old) by apply length_filter.
  assert (Hlen : length (old ++ new) - length (kept ++ new) = length old - length kept).
  { rewrite !length_app. lia. }
  rewrite Hlen in H. injection H as <- <- <-.
  repeat split; auto. rewrite length_app. lia.
Qed.

Lemma reconcile_keeps_then_appends_witness :
  (NestedServer.sync Samples.stale_fs).1
  = with_index Samples.stale_fs
      (Parsed (JArr (kept_records (files Samples.stale_fs) (records (index Samples.stale_fs))
                     ++ added_records (files Samples.stale_fs)
                          (records (index Samples.stale_fs))))) /\
  Responded 200
    (JObj [ ("projects",
             JArr [Samples.record "B";
                   NestedServer.scraped_entry "orphan" Samples.orphan_page]);
            ("added", JArr [JStr "orphan"]);
            ("removed", JNum "1");
            ("message", JStr "Synced: 2 project(s). Added: 1; removed from list: 1.") ])
  = sync_answer
      (kept_records (files Samples.stale_fs) (records (index Samples.stale_fs))
       ++ added_records (files Samples.stale_fs) (records (index Samples.stale_fs)))
      (entry_slug <$> added_records (files Samples.stale_fs)
                        (records (index Samples.stale_fs)))
      (length (records (index Samples.stale_fs))
       - length (kept_records (files Samples.stale_fs) (records (index Samples.stale_fs)))) /\
  Forall (scraped_from (files Samples.stale_fs))
    (added_records (files Samples.stale_fs) (records (index Samples.stale_fs))) /\
  length (kept_records (files Samples.stale_fs) (records (index Samples.stale_fs))
          ++ added_records (files Samples.stale_fs) (records (index Samples.stale_fs)))
  + (length (records (index Samples.stale_fs))
     - length (kept_records (files Samples.stale_fs) (records (index Samples.stale_fs))))
  = length (records (index Samples.stale_fs))
    + length (added_records (files Samples.stale_fs) (records (index Samples.stale_fs))).
Proof.
  refine (reconcile_keeps_then_appends Samples.stale_fs
            (NestedServer.sync Samples.stale_fs).1 200 _ _).
  vm_compute; reflexivity.
Defined.

(** X10. After an answered reconcile the index and the directory agree:
    every page has a record of its key (its name without [.html],
    lower-cased), and every record has a page of its key. *)
Theorem reconcile_makes_index_match_pages fs fs' st b :
  NestedServer.sync fs = (fs', Responded st b) ->
  (forall f, f ∈ html_files (files fs') ->
     file_key f ∈ slug_key <$> records (index fs')) /\
  (forall p, p ∈ records (index fs') ->
     slug_key p ∈ file_key <$> html_files (files fs')).
Proof.
  intros H. pose proof (sync_responded _ _ _ _ H) as Hnn.
  rewrite (sync_total fs Hnn) in H. injection H as <- _ _.
  cbn [files index records]. split.
  - intros f Hf. apply (synced_covers (files fs) _ f Hnn Hf).
  - intros p Hp. apply list_elem_of_filter in Hp as [Hp _]. exact Hp.
Qed.

Lemma reconcile_makes_index_match_pages_witness :
  (forall f, f ∈ html_files (files (NestedServer.sync Samples.stale_fs).1) ->
     file_key f ∈ slug_key <$> records (index (NestedServer.sync Samples.stale_fs).1)) /\
  (forall p, p ∈ records (index (NestedServer.sync Samples.stale_fs).1) ->
     slug_key p ∈ file_key <$> html_files (files (NestedServer.sync Samples.stale_fs).1)).
Proof.
  refine (reconcile_makes_index_match_pages Samples.stale_fs
            (NestedServer.sync Samples.stale_fs).1 200 _ _).
  vm_compute; reflexivity.
Defined.

(** X11. The slugs an answered reconcile reports as added are names of
    pages without [.html]; no two of them are equal up to case, and none
    equals, up to case, the slug of a record the index already had. *)
Theorem added_slugs_are_new fs fs' st b :
  NestedServer.sync fs = (fs', Responded st b) ->
  let added := entry_slug <$> added_records (files fs) (records (index fs)) in
  NoDup (Str.toLowerCase <$> added) /\
  (forall s, s ∈ added ->
     Str.toLowerCase s ∉ slug_key <$> records (index fs)) /\
  (forall s, s ∈ added ->
     exists f, f ∈ html_files (files fs) /\ s = basename_ext f ".html").
Proof.
  intros H added. pose proof (sync_responded _ _ _ _ H) as Hnn.
  destruct (synced_new (files fs) _ Hnn) as (_ & _ & Hs & Hnd & Hfresh).
  subst added. split; [|split].
  - rewrite <- list_fmap_compose. exact Hnd.
  - intros s Hin. apply list_elem_of_fmap in Hin as (p & -> & Hp). apply (Hfresh p Hp).
  - intros s Hin. apply list_elem_of_fmap in Hin as (p & -> & Hp).
    rewrite Forall_forall in Hs. destruct (Hs p Hp) as (f & Hf & ->).
    exists f. split; [exact Hf | apply entry_slug_scraped].
Qed.

Lemma added_slugs_are_new_witness :
  NoDup (Str.toLowerCase
           <$> (entry_slug <$> added_records (files Samples.stale_fs)
                                 (records (index Samples.stale_fs)))) /\
  (forall s, s ∈ entry_slug <$> added_records (files Samples.stale_fs)
                                  (records (index Samples.stale_fs)) ->
     Str.toLowerCase s ∉ slug_key <$> records (index Samples.stale_fs)) /\
  (forall s, s ∈ entry_slug <$> added_records (files Samples.stale_fs)
                                  (records (index Samples.stale_fs)) ->
     exists f, f ∈ html_files (files Samples.stale_fs) /\ s = basename_ext f ".html").
Proof.
  refine (added_slugs_are_new Samples.stale_fs
            (NestedServer.sync Samples.stale_fs).1 200 _ _).
  vm_compute; reflexivity.
Defined.

(** ** A save followed by a reconcile *)

Lemma list_ascii_append (a b : string) :
  list_ascii_of_string (a +:+ b) = list_ascii_of_string a ++ list_ascii_of_string b.
Proof.
  induction a as [|c a IH]; [reflexivity|]. rewrite append_cons. simpl. congruence.
Qed.

Lemma endsWith_rev_prefix (r x : list ascii) : Str.endsWith_rev (r ++ x) r = true.
Proof.
  induction r as [|c r IH]; simpl; [destruct x; reflexivity|].
  rewrite N.eqb_refl, IH. reflexivity.
Qed.

Lemma endsWith_append (a b : string) : Str.endsWith (a +:+ b) b = true.
Proof.
  unfold Str.endsWith. rewrite list_ascii_append, rev_app_distr.
  apply endsWith_rev_prefix.
Qed.

Lemma substring_prefix (a b : string) :
  String.substring 0 (String.length a) (a +:+ b) = a.
Proof.
  induction a as [|c a IH].
  - change ("" +:+ b) with b. destruct b; reflexivity.
  - rewrite append_cons. simpl. rewrite IH. reflexivity.
Qed.

Lemma dropEnd_append (a b : string) : Str.dropEnd (String.length b) (a +:+ b) = a.
Proof.
  unfold Str.dropEnd. rewrite append_length.
  replace (String.length a + String.length b - String.length b) with (String.length a) by lia.
  apply substring_prefix.
Qed.

Lemma basename_ext_page slug : basename_ext (page slug) ".html" = slug.
Proof.
  unfold basename_ext, page. rewrite endsWith_append. apply (dropEnd_append slug ".html").
Qed.

Lemma write_lists_name name text d : name ∈ (write name text d).*1.
Proof.
  induction d as [|[n c] d IH]; simpl; [left|].
  destruct (String.eqb_spec n name) as [->|Hn]; simpl; [left | right; exact IH].
Qed.

Lemma page_is_listed slug text d : page slug ∈ html_files (write (page slug) text d).
Proof.
  unfold html_files. apply list_elem_of_filter. split; [|apply write_lists_name].
  apply (endsWith_append slug ".html").
Qed.

(** X12. A project that was just saved survives the next reconcile: the
    page the save wrote is one the reconcile lists, under the key of the
    record, so the record is kept as it was stored, and its slug is not
    among the added ones. *)
Theorem saved_project_survives_reconcile fs body fs1 b fs2 st b2 :
  NestedServer.save fs body = (fs1, Responded 200 b) ->
  NestedServer.sync fs1 = (fs2, Responded st b2) ->
  exists slug,
    NestedServer.slug_of body = Ok slug /\
    page slug ∈ html_files (files fs1) /\
    file_key (page slug) = Str.toLowerCase slug /\
    NestedServer.make_entry slug (or_else (prop body "meta") (JObj []))
      ∈ records (index fs2) /\
    (forall s, s ∈ entry_slug <$> added_records (files fs1) (records (index fs1)) ->
       Str.toLowerCase s <> Str.toLowerCase slug) /\
    files fs2 = files fs1.
Proof.
  intros Hsave Hsync.
  apply nested_save_stored_inv in Hsave as [b' Hsave]. pose proof Hsave as H'.
  apply save_responded in H' as [(_ & _ & ? & _)|H']; [discriminate|].
  destruct H' as (slug & text & idx & Hs & Hne & Ht & Hw & Hi & _).
  rewrite (save_ok _ _ _ _ _ Hs Hne Ht Hw Hi) in Hsave. injection Hsave as <- _.
  set (e := ServerEditor.make_entry slug (or_else (prop body "meta") (JObj []))) in *.
  exists slug. split; [exact Hs|].
  assert (Hkey : file_key (page slug) = Str.toLowerCase slug).
  { unfold file_key. rewrite basename_ext_page. reflexivity. }
  assert (Hpage : page slug ∈ html_files (write (page slug) text (files fs)))
    by apply page_is_listed.
  split; [exact Hpage|]. split; [exact Hkey|].
  assert (He : e ∈ ServerEditor.put idx e (records (index fs))).
  { destruct (findIndex_split _ _ _ e Hi) as (pre & post & _ & -> & _).
    apply elem_of_app. right. left. }
  pose proof (sync_responded _ _ _ _ Hsync) as Hnn.
  pose proof Hsync as Hsync'.
  rewrite (sync_total _ Hnn) in Hsync'. injection Hsync' as <- _ _.
  cbn [files index records] in *.
  change (slug +:+ ".html") with (page slug) in *.
  destruct (synced_new (write (page slug) text (files fs)) _ Hnn)
    as (Hp & _ & _ & _ & Hfresh).
  assert (Hke : slug_key e = Str.toLowerCase slug) by (apply slug_key_entry, Hne).
  change (NestedServer.make_entry slug (or_else (prop body "meta") (JObj []))) with e.
  split; [|split; [|reflexivity]].
  - apply list_elem_of_filter. split.
    + rewrite Hke, <- Hkey.
      apply list_elem_of_fmap. exists (page slug). split; [reflexivity | exact Hpage].
    + rewrite Hp. apply elem_of_app. left. exact He.
  - intros s Hin Hlow. apply list_elem_of_fmap in Hin as (p & -> & Hin).
    apply (Hfresh p Hin). apply list_elem_of_fmap. exists e. split; [|exact He].
    rewrite Hke. exact Hlow.
Qed.

Lemma saved_project_survives_reconcile_witness :
  exists slug,
    NestedServer.slug_of Samples.page_request = Ok slug /\
    page slug ∈ html_files (files (NestedServer.save Samples.stale_fs Samples.page_request).1) /\
    file_key (page slug) = Str.toLowerCase slug /\
    NestedServer.make_entry slug (JObj [("title", JStr "T")])
      ∈ records (index (NestedServer.sync
                          (NestedServer.save Samples.stale_fs Samples.page_request).1).1) /\
    (forall s,
       s ∈ entry_slug
             <$> added_records
                   (files (NestedServer.save Samples.stale_fs Samples.page_request).1)
                   (records (index (NestedServer.save Samples.stale_fs
                                      Samples.page_request).1)) ->
       Str.toLowerCase s <> Str.toLowerCase slug) /\
    files (NestedServer.sync (NestedServer.save Samples.stale_fs Samples.page_request).1).1
    = files (NestedServer.save Samples.stale_fs Samples.page_request).1.
Proof.
  refine (saved_project_survives_reconcile Samples.stale_fs Samples.page_request
            (NestedServer.save Samples.stale_fs Samples.page_request).1
            (JObj [("path", JStr "TemplateEdit/projects/My-Project-.html")])
            (NestedServer.sync (NestedServer.save Samples.stale_fs Samples.page_request).1).1
            200 _ _ _).
  - vm_compute; reflexivity.
  - vm_compute; reflexivity.
Defined.

(** ** What the scraper can return *)

Lemma all_chars_append p (a b : string) :
  all_chars p (a +:+ b) = all_chars p a && all_chars p b.
Proof.
  induction a as [|c a IH]; [reflexivity|]. rewrite append_cons. simpl.
  rewrite IH, andb_assoc. reflexivity.
Qed.

Lemma all_chars_trimStart p s : all_chars p s = true -> all_chars p (Str.trimStart s) = true.
Proof.
  induction s as [|c s IH]; simpl; [auto|]. intros H.
  destruct (is_space c); [|exact H].
  apply andb_true_iff in H as [_ H]. auto.
Qed.

Lemma all_chars_trimEnd p s : all_chars p s = true -> all_chars p (Str.trimEnd s) = true.
Proof.
  induction s as [|c s IH]; simpl; [auto|]. intros H.
  apply andb_true_iff in H as [Hc H]. specialize (IH H).
  destruct (Str.trimEnd s) as [|d t].
  - destruct (is_space c); simpl; [reflexivity | rewrite Hc; reflexivity].
  - simpl. rewrite Hc. exact IH.
Qed.

Lemma all_chars_trim p s : all_chars p s = true -> all_chars p (Str.trim s) = true.
Proof. intros H. apply all_chars_trimEnd, all_chars_trimStart, H. Qed.

Lemma all_chars_remove_first p r s :
  all_chars p s = true -> all_chars p (remove_first r s) = true.
Proof.
  intros H. unfold remove_first. destruct (search r s) as [m|] eqn:S; [|exact H].
  destruct (search_sound _ _ _ S) as (mid & Hs & _). rewrite Hs in H.
  rewrite !all_chars_append in H. rewrite all_chars_append.
  apply andb_true_iff in H as [Hb H]. apply andb_true_iff in H as [_ Ha].
  rewrite Hb, Ha. reflexivity.
Qed.

Lemma trimEnd_idem s : Str.trimEnd (Str.trimEnd s) = Str.trimEnd s.
Proof.
  induction s as [|c s IH]; simpl; [reflexivity|].
  destruct (Str.trimEnd s) as [|d t] eqn:E.
  - destruct (is_space c) eqn:Ec; simpl; [reflexivity | rewrite Ec; reflexivity].
  - change (Str.trimEnd (String c (String d t))
            = String c (String d t)).
    cbn [Str.trimEnd]. cbn [Str.trimEnd] in IH. rewrite IH. reflexivity.
Qed.

Lemma trimStart_clean s :
  match s with String c _ => is_space c = false | EmptyString => True end ->
  Str.trimStart s = s.
Proof. destruct s as [|c s]; simpl; [auto|]. intros ->. reflexivity. Qed.

Lemma trimStart_head s :
  match Str.trimStart s with String c _ => is_space c = false | EmptyString => True end.
Proof.
  induction s as [|c s IH]; simpl; [exact I|].
  destruct (is_space c) eqn:E; [exact IH | exact E].
Qed.

Lemma trimEnd_head s :
  match s with String c _ => is_space c = false | EmptyString => True end ->
  match Str.trimEnd s with String c _ => is_space c = false | EmptyString => True end.
Proof.
  destruct s as [|c s]; simpl; [auto|]. intros Hc.
  destruct (Str.trimEnd s); [rewrite Hc|]; exact Hc.
Qed.

Lemma trim_trimmed s : trimmed (Str.trim s).
Proof.
  unfold trimmed, Str.trim.
  rewrite (trimStart_clean (Str.trimEnd (Str.trimStart s)))
    by apply trimEnd_head, trimStart_head.
  apply trimEnd_idem.
Qed.

Lemma match1_title_text html t :
  match1 NestedServer.title_re html = Some t -> all_chars (NestedServer.no "<") t = true.
Proof.
  intros H. apply (match1_leftmost _ (element_at "title")) in H; [|apply title_pattern].
  destruct H as (_ & _ & _ & _ & (_ & _ & _ & _ & _ & _ & _ & H & _) & _). exact H.
Qed.

Lemma match1_h1_text html t :
  match1 NestedServer.h1_re html = Some t -> all_chars (NestedServer.no "<") t = true.
Proof.
  intros H. apply (match1_leftmost _ (element_at "h1")) in H; [|apply h1_pattern].
  destruct H as (_ & _ & _ & _ & (_ & _ & _ & _ & _ & _ & _ & H & _) & _). exact H.
Qed.

Lemma match1_img_text html t :
  match1 NestedServer.img_re html = Some t ->
  all_chars (fun c => negb (NestedServer.quote c)) t = true.
Proof.
  intros H. apply image_found in H.
  destruct H as (_ & _ & _ & _ & (_ & (_ & _ & _ & _ & _ & _ & _ & _ & _ & _ & _ & _ & H) & _) & _).
  exact H.
Qed.

(** X13. Whatever the page, the title [parseMetaFromHtml] returns holds
    no [<] and has no white space at either end, and the image it returns
    holds no quote of either kind and has no white space at either end;
    on a page with nothing to find, the empty page among them, both are
    the empty string. *)
Theorem scraped_texts_are_clean html :
  let m := NestedServer.parseMetaFromHtml html in
  all_chars (NestedServer.no "<") (NestedServer.title m) = true /\
  trimmed (NestedServer.title m) /\
  all_chars (fun c => negb (NestedServer.quote c)) (NestedServer.image m) = true /\
  trimmed (NestedServer.image m) /\
  (match1 NestedServer.title_re html = None ->
   match1 NestedServer.h1_re html = None ->
   NestedServer.title m = "") /\
  (match1 NestedServer.img_re html = None -> NestedServer.image m = "") /\
  NestedServer.parseMetaFromHtml "" = NestedServer.Meta "" "".
Proof.
  unfold NestedServer.parseMetaFromHtml. cbn zeta. cbn [NestedServer.title NestedServer.image].
  pose proof (match1_title_text html) as Ht.
  pose proof (match1_h1_text html) as Hh.
  pose proof (match1_img_text html) as Hi.
  destruct (match1 NestedServer.title_re html) as [t|];
    destruct (match1 NestedServer.h1_re html) as [h|];
    destruct (match1 NestedServer.img_re html) as [src|];
    try specialize (Ht _ eq_refl); try specialize (Hh _ eq_refl);
    try specialize (Hi _ eq_refl);
    try destruct (String.eqb (Str.trim (remove_first NestedServer.owner_re t)) "");
    repeat split; try discriminate; try reflexivity; try apply trim_trimmed;
    try (apply all_chars_trim; try apply all_chars_remove_first; assumption).
Qed.

(** ** Stripping the owner's name from a title *)

Lemma ci_char_bar c : ci_char "|" c = true <-> c = "|"%char.
Proof.
  split; [|intros ->; reflexivity].
  destruct c as [[] [] [] [] [] [] [] []]; vm_compute; congruence.
Qed.

Lemma space_is_no_bar c : is_space c = true -> NestedServer.no "|" c = true.
Proof.
  unfold NestedServer.no. destruct (is_char "|" c) eqn:E; [|reflexivity].
  apply is_char_eq in E; subst. discriminate.
Qed.

Lemma owner_pattern s g rest :
  accepts NestedServer.owner_re false "" s g rest
  <-> owner_suffix s /\ g = "" /\ rest = "".
Proof.
  unfold NestedServer.owner_re. split.
  - intros H. cbn [app] in H.
    apply accepts_star_inv in H as (w1 & s1 & -> & Hw1 & H). cbn [pushes] in H.
    inversion H as [| ? ? ? ? c s2 ? ? Hc H2 | | | | | | |]; subst.
    apply ci_char_bar in Hc; subst c. cbn [push] in H2.
    apply accepts_star_inv in H2 as (w2 & s3 & -> & Hw2 & H2). cbn [pushes] in H2.
    change (accepts (lits "Sharva Paralkar" ++ [Star is_space; End]) false "" s3 g rest) in H2.
    apply accepts_lits_inv in H2 as (name & s4 & -> & Hname & H2). cbn [pushes] in H2.
    apply accepts_star_inv in H2 as (w3 & s5 & -> & Hw3 & H2). cbn [pushes] in H2.
    inversion H2 as [| | | | | | | | ? ? ? ? ? H3]; subst.
    inversion H3; subst.
    split; [|auto]. exists w1, w2, name, w3. rewrite append_empty_r. repeat split; auto.
  - intros ((w1 & w2 & name & w3 & -> & Hw1 & Hw2 & Hname & Hw3) & -> & ->). cbn [app].
    apply accepts_star_intro; [exact Hw1|]. cbn [pushes].
    change ("|" +:+ w2 +:+ name +:+ w3) with (String "|" (w2 +:+ name +:+ w3)).
    apply acc_lit; [reflexivity|]. cbn [push].
    apply accepts_star_intro; [exact Hw2|]. cbn [pushes].
    change (accepts (lits "Sharva Paralkar" ++ [Star is_space; End]) false ""
              (name +:+ w3) "" "").
    apply accepts_lits_intro; [exact Hname|]. cbn [pushes].
    rewrite <- (append_empty_r w3).
    apply accepts_star_intro; [exact Hw3|]. cbn [pushes].
    apply acc_end. constructor.
Qed.

Lemma exec_owner s :
  (owner_suffix s -> exec NestedServer.owner_re false "" s = Some ("", "")) /\
  (forall m, exec NestedServer.owner_re false "" s = Some m -> owner_suffix s).
Proof.
  split.
  - intros H.
    assert (Ha : accepts NestedServer.owner_re false "" s "" "") by (apply owner_pattern; auto).
    apply exec_complete in Ha as [[g rest] Hm]. rewrite Hm.
    apply exec_sound, owner_pattern in Hm as (_ & -> & ->). reflexivity.
  - intros [g rest] Hm. apply exec_sound, owner_pattern in Hm as (H & _). exact H.
Qed.

Lemma first_split x (a a' b b' : string) :
  all_chars (NestedServer.no x) a = true -> all_chars (NestedServer.no x) a' = true ->
  a +:+ String x b = a' +:+ String x b' -> a = a'.
Proof.
  revert a'; induction a as [|c a IH]; intros [|c' a'] Ha Ha' H.
  - reflexivity.
  - rewrite append_cons in H. change (String x b = String c' (a' +:+ String x b')) in H.
    injection H as <- _. simpl in Ha'. apply andb_true_iff in Ha' as [Hc _].
    unfold NestedServer.no, is_char in Hc. rewrite N.eqb_refl in Hc. discriminate.
  - rewrite append_cons in H. change (String c (a +:+ String x b) = String x b') in H.
    injection H as -> _. simpl in Ha. apply andb_true_iff in Ha as [Hc _].
    unfold NestedServer.no, is_char in Hc. rewrite N.eqb_refl in Hc. discriminate.
  - rewrite !append_cons in H. injection H as <- H.
    simpl in Ha, Ha'. apply andb_true_iff in Ha as [_ Ha].
    apply andb_true_iff in Ha' as [_ Ha']. f_equal. apply (IH a' Ha Ha' H).
Qed.

Lemma owner_suffix_after t s :
  all_chars (NestedServer.no "|") t = true -> owner_suffix s ->
  (owner_suffix (t +:+ s) <-> all_chars is_space t = true).
Proof.
  intros Ht (w1 & w2 & name & w3 & -> & Hw1 & Hw2 & Hname & Hw3). split.
  - intros (v1 & v2 & name' & v3 & Heq & Hv1 & _).
    rewrite <- append_assoc in Heq.
    change ("|" +:+ w2 +:+ name +:+ w3) with (String "|" (w2 +:+ name +:+ w3)) in Heq.
    change ("|" +:+ v2 +:+ name' +:+ v3) with (String "|" (v2 +:+ name' +:+ v3)) in Heq.
    apply first_split in Heq.
    + rewrite <- Heq, all_chars_append in Hv1. apply andb_true_iff in Hv1 as [H _]. exact H.
    + rewrite all_chars_append, Ht. simpl.
      eapply all_chars_impl; [apply space_is_no_bar | exact Hw1].
    + eapply all_chars_impl; [apply space_is_no_bar | exact Hv1].
  - intros Hsp. exists (t +:+ w1), w2, name, w3. rewrite append_assoc.
    repeat split; auto. rewrite all_chars_append, Hsp, Hw1. reflexivity.
Qed.

Lemma trimEnd_spaces s : Str.trimEnd s = "" <-> all_chars is_space s = true.
Proof.
  induction s as [|c s IH]; simpl; [tauto|].
  destruct (Str.trimEnd s) as [|d t].
  - destruct (is_space c); simpl; [tauto|]. split; discriminate.
  - split; [discriminate|]. intros H. apply andb_true_iff in H as [_ H].
    apply IH in H. discriminate.
Qed.

Lemma trimEnd_cons c s :
  all_chars is_space (String c s) = false ->
  Str.trimEnd (String c s) = String c (Str.trimEnd s).
Proof.
  simpl. intros H. destruct (Str.trimEnd s) as [|d t] eqn:E; [|reflexivity].
  apply trimEnd_spaces in E. rewrite E, andb_true_r in H. rewrite H. reflexivity.
Qed.

Lemma search_owner t s :
  all_chars (NestedServer.no "|") t = true -> owner_suffix s ->
  search NestedServer.owner_re (t +:+ s) = Some (Found (Str.trimEnd t) "" "").
Proof.
  intros Ht Hs. induction t as [|c t IH].
  - change ("" +:+ s) with s.
    destruct s as [|d s']; cbn [search];
      rewrite (proj1 (exec_owner _) Hs); reflexivity.
  - rewrite append_cons. cbn [search]. rewrite <- append_cons.
    destruct (all_chars is_space (String c t)) eqn:Esp.
    + rewrite (proj1 (exec_owner _)) by (apply owner_suffix_after; auto).
      apply trimEnd_spaces in Esp. rewrite Esp. reflexivity.
    + destruct (exec NestedServer.owner_re false "" (String c t +:+ s)) as [m|] eqn:E.
      * apply (proj2 (exec_owner _)) in E. apply owner_suffix_after in E; auto.
        congruence.
      * simpl in Ht. apply andb_true_iff in Ht as [_ Ht].
        rewrite (IH Ht), (trimEnd_cons _ _ Esp). reflexivity.
Qed.

Lemma trim_swap s : Str.trimStart (Str.trimEnd s) = Str.trimEnd (Str.trimStart s).
Proof.
  induction s as [|c s IH]; [reflexivity|].
  destruct (is_space c) eqn:Ec.
  - cbn [Str.trimStart]. rewrite Ec. cbn [Str.trimEnd].
    destruct (Str.trimEnd s) as [|d t] eqn:E.
    + rewrite Ec. simpl. rewrite <- IH. reflexivity.
    + cbn [Str.trimStart]. rewrite Ec. exact IH.
  - rewrite (trimStart_clean (String c s)) by exact Ec.
    apply trimStart_clean. apply (trimEnd_head (String c s)). exact Ec.
Qed.

Lemma trim_trimEnd s : Str.trim (Str.trimEnd s) = Str.trim s.
Proof. unfold Str.trim. rewrite trim_swap. apply trimEnd_idem. Qed.

Lemma no_bar_no_owner s :
  all_chars (NestedServer.no "|") s = true -> remove_first NestedServer.owner_re s = s.
Proof.
  intros H. unfold remove_first. destruct (search _ s) as [m|] eqn:S; [|reflexivity].
  exfalso. destruct (search_sound _ _ _ S) as (mid & Hs & Ha).
  apply owner_pattern in Ha as ((w1 & w2 & name & w3 & Hw & _) & _).
  rewrite Hs, Hw, !all_chars_append in H.
  rewrite !andb_true_iff in H. destruct H as (_ & _ & H & _). discriminate.
Qed.

(** X14. The title expression strips the owner's name: for a text
    without a bar, followed by white space, a bar, white space, the
    owner's name in any case and white space, what is left after the
    replacement and the trim is the text, trimmed. A text without a bar
    is only trimmed. *)
Theorem owner_name_is_stripped :
  (forall t s,
     all_chars (NestedServer.no "|") t = true -> owner_suffix s ->
     Str.trim (remove_first NestedServer.owner_re (t +:+ s)) = Str.trim t) /\
  (forall t,
     all_chars (NestedServer.no "|") t = true ->
     Str.trim (remove_first NestedServer.owner_re t) = Str.trim t) /\
  (forall html t s,
     match1 NestedServer.title_re html = Some (t +:+ s) ->
     all_chars (NestedServer.no "|") t = true -> owner_suffix s ->
     Str.trim t <> "" ->
     NestedServer.title (NestedServer.parseMetaFromHtml html) = Str.trim t).
Proof.
  assert (Hstrip : forall t s,
     all_chars (NestedServer.no "|") t = true -> owner_suffix s ->
     Str.trim (remove_first NestedServer.owner_re (t +:+ s)) = Str.trim t).
  { intros t s Ht Hs. unfold remove_first. rewrite (search_owner t s Ht Hs). simpl.
    rewrite append_empty_r. apply trim_trimEnd. }
  split; [exact Hstrip|]. split.
  - intros t Ht. rewrite no_bar_no_owner; auto.
  - intros html t s Hm Ht Hs Hne. unfold NestedServer.parseMetaFromHtml.
    rewrite Hm, (Hstrip t s Ht Hs). cbn [NestedServer.title].
    destruct (String.eqb_spec (Str.trim t) ""); [contradiction|].
    destruct (match1 NestedServer.h1_re html); reflexivity.
Qed.

Lemma owner_name_is_stripped_witness :
  Str.trim (remove_first NestedServer.owner_re ("Orphan Page" +:+ "  |sharva PARALKAR "))
  = Str.trim "Orphan Page" /\
  NestedServer.title (NestedServer.parseMetaFromHtml Samples.plain_page)
  = Str.trim "Orphan Page".
Proof.
  split.
  - apply (proj1 owner_name_is_stripped "Orphan Page" "  |sharva PARALKAR ").
    + reflexivity.
    + exists "  ", "", "sharva PARALKAR", " ". repeat split.
  - apply (proj2 (proj2 owner_name_is_stripped) Samples.plain_page
             "Orphan Page" " | sharva paralkar ").
    + vm_compute; reflexivity.
    + reflexivity.
    + exists " ", " ", "sharva paralkar", " ". repeat split.
    + discriminate.
Defined.

(** ** A title made from the slug *)

Lemma lower_upper c : lower_char (upper_char c) = lower_char c.
Proof. destruct c as [[] [] [] [] [] [] [] []]; reflexivity. Qed.

Lemma upper_upper c : upper_char (upper_char c) = upper_char c.
Proof. destruct c as [[] [] [] [] [] [] [] []]; reflexivity. Qed.

Lemma upper_word c : is_word (upper_char c) = is_word c.
Proof. destruct c as [[] [] [] [] [] [] [] []]; reflexivity. Qed.

Lemma upper_no_hyphen c : NestedServer.no "-" (upper_char c) = NestedServer.no "-" c.
Proof. destruct c as [[] [] [] [] [] [] [] []]; reflexivity. Qed.

Lemma lower_hyphen c :
  lower_char (if is_char "-" c then " "%char else c)
  = (if is_char "-" (lower_char c) then " "%char else lower_char c).
Proof. destruct c as [[] [] [] [] [] [] [] []]; reflexivity. Qed.

Lemma lower_capitalize prev s :
  Str.toLowerCase (NestedServer.capitalize prev s) = Str.toLowerCase s.
Proof.
  revert prev; induction s as [|c s IH]; intros prev; [reflexivity|].
  cbn [NestedServer.capitalize Str.toLowerCase Str.map].
  fold (Str.toLowerCase (NestedServer.capitalize (is_word c) s)).
  fold (Str.toLowerCase s). rewrite IH. f_equal.
  destruct (is_word c && negb prev); [apply lower_upper | reflexivity].
Qed.

Lemma capitalize_no_hyphen prev s :
  all_chars (NestedServer.no "-") s = true ->
  all_chars (NestedServer.no "-") (NestedServer.capitalize prev s) = true.
Proof.
  revert prev; induction s as [|c s IH]; intros prev; simpl; [auto|].
  intros H. apply andb_true_iff in H as [Hc H]. rewrite (IH _ H), andb_true_r.
  destruct (is_word c && negb prev); [rewrite upper_no_hyphen|]; exact Hc.
Qed.

Lemma capitalize_idem prev s :
  NestedServer.capitalize prev (NestedServer.capitalize prev s)
  = NestedServer.capitalize prev s.
Proof.
  revert prev; induction s as [|c s IH]; intros prev; [reflexivity|].
  cbn [NestedServer.capitalize].
  destruct (is_word c && negb prev) eqn:E.
  - rewrite upper_word, E, upper_upper, IH. reflexivity.
  - rewrite E, IH. reflexivity.
Qed.

Lemma hyphens_gone s :
  all_chars (NestedServer.no "-") (Str.replace_class (is_char "-") " " s) = true.
Proof.
  unfold Str.replace_class. apply all_chars_map. intros c.
  unfold NestedServer.no. destruct (is_char "-" c) eqn:E; [reflexivity|].
  rewrite E. reflexivity.
Qed.

(** X15. The title made from a slug differs from the slug only in case
    and in having a space for each hyphen: lower-cased it is the
    lower-cased slug with spaces for hyphens. It holds no hyphen, and
    making it readable once more changes nothing. *)
Theorem readable_slug_keeps_the_letters slug :
  Str.toLowerCase (NestedServer.humanize slug)
  = Str.replace_class (is_char "-") " " (Str.toLowerCase slug) /\
  all_chars (NestedServer.no "-") (NestedServer.humanize slug) = true /\
  NestedServer.humanize (NestedServer.humanize slug) = NestedServer.humanize slug.
Proof.
  unfold NestedServer.humanize. split; [|split].
  - rewrite lower_capitalize. unfold Str.toLowerCase, Str.replace_class.
    rewrite !str_map_map. apply str_map_ext. intros c. apply lower_hyphen.
  - apply capitalize_no_hyphen, hyphens_gone.
  - assert (H : Str.replace_class (is_char "-") " "
                  (NestedServer.capitalize false (Str.replace_class (is_char "-") " " slug))
                = NestedServer.capitalize false (Str.replace_class (is_char "-") " " slug)).
    { unfold Str.replace_class at 1.
      apply (map_fixed (NestedServer.no "-")).
      - intros c Hc. unfold NestedServer.no in Hc.
        destruct (is_char "-" c); [discriminate | reflexivity].
      - apply capitalize_no_hyphen, hyphens_gone. }
    rewrite H. apply capitalize_idem.
Qed.

(** ** A reconcile with nothing to do *)

(** X16. When the reconcile can take the key of every element of the
    index (none is [null], no slug is or holds an object with a property
    [toString]), every page has a record of its key and every record has
    a page of its key, a reconcile adds nothing, removes nothing, answers
    with the records as they are, and writes them back unchanged. *)
Theorem reconcile_of_matching_index_is_noop fs :
  Forall (fun p => has_key p = true) (records (index fs)) ->
  (forall f, f ∈ html_files (files fs) -> file_key f ∈ slug_key <$> records (index fs)) ->
  (forall p, p ∈ records (index fs) -> slug_key p ∈ file_key <$> html_files (files fs)) ->
  NestedServer.sync fs
  = (with_index fs (Parsed (JArr (records (index fs)))),
     sync_answer (records (index fs)) [] 0) /\
  added_records (files fs) (records (index fs)) = [].
Proof.
  intros Hk Hpages Hrecs.
  assert (Hnn : Forall keyed (records (index fs))).
  { eapply Forall_impl; [exact Hk|]. intros p Hp. apply keyed_has_key, Hp. }
  assert (Hs : synced (files fs) (records (index fs))
               = NestedServer.SyncState (records (index fs))
                   (NestedServer.new_Map ((fun p => (slug_key p, p)) <$> records (index fs)))
                   []).
  { unfold synced. apply loop_known. intros f Hf. simpl.
    apply new_Map_keys. rewrite <- list_fmap_compose. apply Hpages, Hf. }
  pose proof (sync_total fs Hnn) as H. cbn zeta in H. rewrite Hs in H.
  cbn [NestedServer.st_projects NestedServer.st_added] in H.
  rewrite (kept_records_keep _ _ Hrecs), Nat.sub_diag in H.
  split; [exact H|].
  unfold added_records. rewrite Hs. cbn [NestedServer.st_projects].
  apply drop_all.
Qed.

Lemma reconcile_of_matching_index_is_noop_witness :
  NestedServer.sync (NestedServer.sync Samples.stale_fs).1
  = (with_index (NestedServer.sync Samples.stale_fs).1
       (Parsed (JArr (records (index (NestedServer.sync Samples.stale_fs).1)))),
     sync_answer (records (index (NestedServer.sync Samples.stale_fs).1)) [] 0) /\
  added_records (files (NestedServer.sync Samples.stale_fs).1)
    (records (index (NestedServer.sync Samples.stale_fs).1)) = [].
Proof.
  apply (reconcile_of_matching_index_is_noop (NestedServer.sync Samples.stale_fs).1).
  - repeat constructor.
  - refine (proj1 (Forall_forall
              (fun f => file_key f
                        ∈ slug_key <$> records (index (NestedServer.sync Samples.stale_fs).1))
              _) _).
    refine (bool_decide_unpack _ _). vm_compute. exact I.
  - refine (proj1 (Forall_forall
              (fun p => slug_key p
                        ∈ file_key <$> html_files (files (NestedServer.sync Samples.stale_fs).1))
              _) _).
    refine (bool_decide_unpack _ _). vm_compute. exact I.
Defined.
